(** * esp32_bt.c: the GATT server multiplexer of bt-common

    A shallow embedding of [src/esp32/esp32_bt.c]: the service list
    [s_svcs], the connection list [s_conns] with the per-connection session
    lists, the two stack callbacks [esp32_bt_gatts_ev] and [esp32_bt_gap_ev]
    and the public [mgos_bt_gatts_register_service]; then the three text
    conversions ([mgos_bt_addr_to_str], [bt_uuid128_to_str],
    [mgos_bt_uuid_to_str]) and the start-up function [mgos_bt_common_init]
    with its WiFi hook.

    Conventions.
    - The intrusive [SLIST]s are Rocq lists, head first.  An entry obtained
      from [calloc] carries its address; [0] is [NULL].
    - Integers of the stack API (connection ids, attribute handles,
      transaction ids, status codes) are [Z]; the file only compares them.
    - Everything the file does to the outside is recorded, in program order,
      as a list of [action]s: calls into the BLE stack, calls of a service
      handler, [calloc]/[free], and the two points where a connection entry
      is linked into / unlinked from [s_conns].  [LOG] lines are not
      recorded.
    - A service handler is an arbitrary function on an outside world [W]
      (the handler's own data and the system configuration read through
      [get_cfg()]); it cannot reach the [static] lists of this file.
    - Reading through a null or too short handle table (also the first
      handle of an empty one), or through a session whose service entry is
      not in [s_svcs], has no defined result in C: the dispatcher then
      yields [None].
    - The source tests the result of [calloc] only in
      [mgos_bt_gatts_register_service]; that call takes the outcome of its
      [calloc] as an argument.  The allocations of the dispatcher, whose
      result the source uses unchecked, are taken to succeed. *)

From Stdlib Require Import List ZArith Bool Arith Lia Ascii Permutation.
Import ListNotations.

Set Implicit Arguments.

Local Open Scope Z_scope.

(** ** Types of the stack interface *)

Definition addr := nat.

Inductive esp_gatt_status_t :=
| ESP_GATT_OK
| ESP_GATT_READ_NOT_PERMIT
| ESP_GATT_WRITE_NOT_PERMIT.

(** [esp_bt_uuid_t]: the length and the bytes of the uuid union. *)
Record esp_bt_uuid_t := {
  uuid_len : nat;
  uuid_bytes : list Z
}.

(** Entry 0 of a service's [esp_gatts_attr_db_t] table (the service
    declaration): the only entry this file reads, and of it only
    [att_desc.length] and [att_desc.value].  The table itself is handed to
    the stack unread. *)
Record esp_attr_desc_t := {
  att_length : nat;
  att_value : list Z
}.

Record gatts_read_evt_param := {
  rd_conn_id : Z;
  rd_trans_id : Z;
  rd_bda : list Z;
  rd_handle : Z;
  rd_offset : Z;
  rd_is_long : bool;
  rd_need_rsp : bool
}.

Record gatts_write_evt_param := {
  wr_conn_id : Z;
  wr_trans_id : Z;
  wr_bda : list Z;
  wr_handle : Z;
  wr_offset : Z;
  wr_need_rsp : bool;
  wr_is_prep : bool;
  wr_value : list Z
}.

Record gatts_mtu_evt_param := {
  mtu_conn_id : Z;
  mtu_mtu : Z
}.

Record gatts_connect_evt_param := {
  cn_conn_id : Z;
  cn_remote_bda : list Z;
  cn_is_connected : bool
}.

Record gatts_disconnect_evt_param := {
  dc_conn_id : Z;
  dc_remote_bda : list Z;
  dc_is_connected : bool
}.

(** [handles] and [num_handle] of the C payload are one list here:
    [num_handle] is its length. *)
Record gatts_add_attr_tab_evt_param := {
  tab_status : Z;
  tab_svc_uuid : esp_bt_uuid_t;
  tab_handles : list Z
}.

Definition tab_num_handle (p : gatts_add_attr_tab_evt_param) : nat :=
  length (tab_handles p).

(** The event kind together with the member of [esp_ble_gatts_cb_param_t]
    it selects.  Kinds that the dispatcher only logs carry no payload. *)
Inductive gatts_event :=
| ESP_GATTS_REG_EVT (status app_id : Z)
| ESP_GATTS_READ_EVT (p : gatts_read_evt_param)
| ESP_GATTS_WRITE_EVT (p : gatts_write_evt_param)
| ESP_GATTS_EXEC_WRITE_EVT
| ESP_GATTS_MTU_EVT (p : gatts_mtu_evt_param)
| ESP_GATTS_CONF_EVT
| ESP_GATTS_UNREG_EVT
| ESP_GATTS_CREATE_EVT
| ESP_GATTS_ADD_INCL_SRVC_EVT
| ESP_GATTS_ADD_CHAR_EVT
| ESP_GATTS_ADD_CHAR_DESCR_EVT
| ESP_GATTS_DELETE_EVT
| ESP_GATTS_START_EVT
| ESP_GATTS_STOP_EVT
| ESP_GATTS_CONNECT_EVT (p : gatts_connect_evt_param)
| ESP_GATTS_DISCONNECT_EVT (p : gatts_disconnect_evt_param)
| ESP_GATTS_OPEN_EVT
| ESP_GATTS_CANCEL_OPEN_EVT
| ESP_GATTS_CLOSE_EVT
| ESP_GATTS_LISTEN_EVT
| ESP_GATTS_CONGEST_EVT
| ESP_GATTS_RESPONSE_EVT
| ESP_GATTS_CREAT_ATTR_TAB_EVT (p : gatts_add_attr_tab_evt_param)
| ESP_GATTS_SET_ATTR_VAL_EVT.

Inductive gap_event :=
| ESP_GAP_BLE_ADV_DATA_SET_COMPLETE_EVT
| ESP_GAP_BLE_SCAN_RSP_DATA_SET_COMPLETE_EVT
| ESP_GAP_BLE_SCAN_PARAM_SET_COMPLETE_EVT
| ESP_GAP_BLE_SCAN_RESULT_EVT
| ESP_GAP_BLE_ADV_DATA_RAW_SET_COMPLETE_EVT
| ESP_GAP_BLE_SCAN_RSP_DATA_RAW_SET_COMPLETE_EVT
| ESP_GAP_BLE_ADV_START_COMPLETE_EVT
| ESP_GAP_BLE_SCAN_START_COMPLETE_EVT
| ESP_GAP_BLE_AUTH_CMPL_EVT
| ESP_GAP_BLE_KEY_EVT
| ESP_GAP_BLE_SEC_REQ_EVT
| ESP_GAP_BLE_PASSKEY_NOTIF_EVT
| ESP_GAP_BLE_PASSKEY_REQ_EVT
| ESP_GAP_BLE_OOB_REQ_EVT
| ESP_GAP_BLE_LOCAL_IR_EVT
| ESP_GAP_BLE_LOCAL_ER_EVT
| ESP_GAP_BLE_NC_REQ_EVT
| ESP_GAP_BLE_ADV_STOP_COMPLETE_EVT
| ESP_GAP_BLE_SCAN_STOP_COMPLETE_EVT
| ESP_GAP_BLE_SET_STATIC_RAND_ADDR_EVT
| ESP_GAP_BLE_UPDATE_CONN_PARAMS_EVT
| ESP_GAP_BLE_SET_PKT_LENGTH_COMPLETE_EVT.

(** What the file does to the outside, in program order. *)
Inductive action :=
| esp_ble_gap_set_device_name
| esp_ble_gap_config_adv_data
| esp_ble_gap_start_advertising
| esp_ble_gap_update_conn_params (bda : list Z) (latency max_int min_int timeout : Z)
| esp_ble_gatts_create_attr_tab (svc_descr : esp_attr_desc_t) (gatts_if : Z) (num_attrs : nat)
| esp_ble_gatts_send_response (gatt_if conn_id trans_id : Z) (status : esp_gatt_status_t)
| esp_ble_gatts_start_service (svch : Z)
| cb_call (se : addr) (bs : option addr) (ev : gatts_event)
| calloc (p : addr)
| free (p : addr)
| conns_insert_head (ce : addr)
| conns_remove (ce : addr).

(** ** Formatting

    The three [sprintf] conversions the file uses, for an [unsigned int] of
    32 bits: [%0Nx] (lower-case hexadecimal, zero-padded to a minimum of N
    characters), and [%u].  A C string is the list of its characters before
    the terminating NUL. *)

Definition hex_digit (d : nat) : ascii :=
  nth d ["0"; "1"; "2"; "3"; "4"; "5"; "6"; "7"; "8"; "9";
         "a"; "b"; "c"; "d"; "e"; "f"]%char "0"%char.

Definition dec_digit (d : nat) : ascii :=
  nth d ["0"; "1"; "2"; "3"; "4"; "5"; "6"; "7"; "8"; "9"]%char "0"%char.

(** The [n] low digits of [v] in base [base], most significant first. *)
Definition digits (base : Z) (n : nat) (v : Z) : list nat :=
  map (fun k => Z.to_nat ((v / base ^ Z.of_nat k) mod base)) (rev (seq 0 n)).

Fixpoint strip_zeros (l : list nat) : list nat :=
  match l with
  | O :: rest =>
      match rest with
      | [] => l
      | _ :: _ => strip_zeros rest
      end
  | _ => l
  end.

Definition pad_zeros (w : nat) (l : list nat) : list nat :=
  repeat O (w - length l) ++ l.

Definition printf_x (w : nat) (v : Z) : list ascii :=
  map hex_digit (pad_zeros w (strip_zeros (digits 16 8 (v mod 2 ^ 32)))).

Definition printf_u (v : Z) : list ascii :=
  map dec_digit (strip_zeros (digits 10 10 (v mod 2 ^ 32))).

(** [mgos_bt_addr_to_str]: [None] when the address has fewer than the six
    bytes the function reads. *)
Definition mgos_bt_addr_to_str (bda : list Z) : option (list ascii) :=
  match bda with
  | b0 :: b1 :: b2 :: b3 :: b4 :: b5 :: _ =>
      Some (printf_x 2 b0 ++ ":"%char :: printf_x 2 b1 ++ ":"%char
            :: printf_x 2 b2 ++ ":"%char :: printf_x 2 b3 ++ ":"%char
            :: printf_x 2 b4 ++ ":"%char :: printf_x 2 b5)
  | _ => None
  end.

(** [bt_uuid128_to_str]: the sixteen bytes from [u[15]] down to [u[0]]. *)
Definition bt_uuid128_to_str (u : list Z) : option (list ascii) :=
  match u with
  | u0 :: u1 :: u2 :: u3 :: u4 :: u5 :: u6 :: u7 :: u8 :: u9 :: u10 :: u11
    :: u12 :: u13 :: u14 :: u15 :: _ =>
      Some (printf_x 2 u15 ++ printf_x 2 u14 ++ printf_x 2 u13 ++ printf_x 2 u12
            ++ "-"%char :: printf_x 2 u11 ++ printf_x 2 u10
            ++ "-"%char :: printf_x 2 u9 ++ printf_x 2 u8
            ++ "-"%char :: printf_x 2 u7 ++ printf_x 2 u6
            ++ "-"%char :: printf_x 2 u5 ++ printf_x 2 u4 ++ printf_x 2 u3
            ++ printf_x 2 u2 ++ printf_x 2 u1 ++ printf_x 2 u0)
  | _ => None
  end.

(** The members [uuid16] and [uuid32] of the uuid union: the first two and
    four bytes of its storage, least significant first (the ESP32 is
    little-endian). *)
Definition le_value (l : list Z) : Z := fold_right (fun b acc => b + 256 * acc) 0 l.

Definition union_member (n : nat) (u : esp_bt_uuid_t) : option Z :=
  if Nat.leb n (length (uuid_bytes u))
  then Some (le_value (firstn n (uuid_bytes u))) else None.

(** [ESP_UUID_LEN_16], [ESP_UUID_LEN_32] and [ESP_UUID_LEN_128] of
    esp_bt_defs.h are 2, 4 and 16. *)
Definition mgos_bt_uuid_to_str (uuid : esp_bt_uuid_t) : option (list ascii) :=
  if Nat.eqb (uuid_len uuid) 2 then option_map (printf_x 4) (union_member 2 uuid)
  else if Nat.eqb (uuid_len uuid) 4 then option_map (printf_x 8) (union_member 4 uuid)
  else if Nat.eqb (uuid_len uuid) 16 then bt_uuid128_to_str (uuid_bytes uuid)
  else Some ("?"%char :: "("%char :: printf_u (Z.of_nat (uuid_len uuid)) ++ [")"%char]).

(** The two characters of a byte. *)
Definition byte_hex (b : Z) : list ascii :=
  [hex_digit (Z.to_nat (b / 16)); hex_digit (Z.to_nat (b mod 16))].

Definition is_byte (b : Z) : Prop := 0 <= b < 256.

Definition is_dash (c : ascii) : bool :=
  match c with "-"%char => true | _ => false end.

(** ** Start-up and the WiFi hook

    [mgos_bt_common_init] and [mgos_bt_wifi_changed_cb].  The configuration
    is the part of [struct sys_config] the two functions read; [err] gives
    the [esp_err_t] each bring-up call of the stack returns (0 is [ESP_OK]);
    [saved] is what [save_cfg] returns. *)

Record sys_config := {
  bt_enable : bool;
  bt_keep_enabled : bool;
  bt_adv_enable : bool;
  bt_dev_name : option (list ascii);
  device_id : option (list ascii)
}.

Inductive boot_call :=
| esp_bt_controller_init
| esp_bt_controller_enable
| esp_bluedroid_init
| esp_bluedroid_enable.

Inductive boot_action :=
| mgos_wifi_add_on_change_cb
| boot (c : boot_call)
| esp_ble_gatts_register_callback
| esp_ble_gap_register_callback
| esp_ble_gatts_app_register (app_id : Z)
| save_cfg
| esp_bt_controller_disable.

Inductive mgos_wifi_status :=
| MGOS_WIFI_DISCONNECTED
| MGOS_WIFI_CONNECTED
| MGOS_WIFI_IP_ACQUIRED.

Definition ESP_OK : Z := 0.

(** [dev_name = btcfg->dev_name; if (dev_name == NULL) dev_name = cfg->device.id]. *)
Definition chosen_dev_name (cfg : sys_config) : option (list ascii) :=
  match bt_dev_name cfg with
  | Some n => Some n
  | None => device_id cfg
  end.

(** The result, the new [s_dev_name] and the calls made, in order. *)
Definition mgos_bt_common_init (cfg : sys_config) (err : boot_call -> Z)
    (s_dev_name : option (list ascii))
  : bool * option (list ascii) * list boot_action :=
  if negb (bt_enable cfg) then (true, s_dev_name, [])
  else
    let hook :=
      if negb (bt_keep_enabled cfg) then [mgos_wifi_add_on_change_cb] else [] in
    match chosen_dev_name cfg with
    | None => (false, s_dev_name, hook)
    | Some dev_name =>
        if negb (err esp_bt_controller_init =? 0)
        then (false, s_dev_name, hook ++ [boot esp_bt_controller_init])
        else if negb (err esp_bt_controller_enable =? 0)
        then (false, s_dev_name,
              hook ++ [boot esp_bt_controller_init; boot esp_bt_controller_enable])
        else if negb (err esp_bluedroid_init =? ESP_OK)
        then (false, s_dev_name,
              hook ++ [boot esp_bt_controller_init; boot esp_bt_controller_enable;
                       boot esp_bluedroid_init])
        else if negb (err esp_bluedroid_enable =? ESP_OK)
        then (false, s_dev_name,
              hook ++ [boot esp_bt_controller_init; boot esp_bt_controller_enable;
                       boot esp_bluedroid_init; boot esp_bluedroid_enable])
        else (true, Some dev_name,
              hook ++ [boot esp_bt_controller_init; boot esp_bt_controller_enable;
                       boot esp_bluedroid_init; boot esp_bluedroid_enable;
                       esp_ble_gatts_register_callback;
                       esp_ble_gap_register_callback;
                       esp_ble_gatts_app_register 0])
    end.

Definition clear_bt_enable (cfg : sys_config) : sys_config :=
  {| bt_enable := false; bt_keep_enabled := bt_keep_enabled cfg;
     bt_adv_enable := bt_adv_enable cfg; bt_dev_name := bt_dev_name cfg;
     device_id := device_id cfg |}.

(** The configuration afterwards and the calls made. *)
Definition mgos_bt_wifi_changed_cb (ev : mgos_wifi_status) (cfg : sys_config)
    (saved : bool) : sys_config * list boot_action :=
  match ev with
  | MGOS_WIFI_IP_ACQUIRED =>
      (clear_bt_enable cfg,
       save_cfg :: (if saved then [esp_bt_controller_disable] else []))
  | _ => (cfg, [])
  end.

(** The place of a bring-up call in the sequence. *)
Definition boot_index (c : boot_call) : nat :=
  match c with
  | esp_bt_controller_init => 0
  | esp_bt_controller_enable => 1
  | esp_bluedroid_init => 2
  | esp_bluedroid_enable => 3
  end.

(** Sample inputs for the formatting and start-up functions. *)
Definition sample_bda : list Z := [36; 10; 196; 0; 255; 1].

Definition sample_uuid128 : esp_bt_uuid_t :=
  {| uuid_len := 16;
     uuid_bytes := [251; 52; 155; 95; 128; 0; 0; 128; 0; 16; 0; 0; 13; 24; 0; 0] |}.

Definition sample_uuid16 : esp_bt_uuid_t :=
  {| uuid_len := 2;
     uuid_bytes := [13; 24; 0; 0; 0; 0; 0; 0; 0; 0; 0; 0; 0; 0; 0; 0] |}.

Definition sample_cfg : sys_config :=
  {| bt_enable := true; bt_keep_enabled := false; bt_adv_enable := true;
     bt_dev_name := None; device_id := Some ["e"; "s"; "p"]%char |}.

(** The smallest world: nothing but the advertising flag of the
    configuration. *)
Definition flag_world (b : bool) : bool := b.

(** ** Entries of the three lists *)

(** Modelled from the spec: [struct esp32_bt_connection] and
    [struct esp32_bt_session] are declared in esp32_bt.h, which is not among
    the sources.  A Connection holds the stack interface id, the connection
    id, the negotiated MTU and the 6-byte peer address (the four fields the
    dispatcher assigns); of a session the dispatcher sets [bc], the pointer
    to its connection. *)
Record esp32_bt_connection := {
  gatt_if : Z;
  conn_id : Z;
  mtu : Z;
  peer_addr : list Z
}.

(** [bs_bc] is [bs.bc], the address of the owning connection entry; [se]
    the address of the service entry. *)
Record esp32_bt_session_entry := {
  sse_addr : addr;
  bs_bc : addr;
  se : addr
}.

Record esp32_bt_connection_entry := {
  ce_addr : addr;
  bc : esp32_bt_connection;
  sessions : list esp32_bt_session_entry
}.

Section Dispatcher.

(** The world outside this file and the advertising flag
    [get_cfg()->bt.adv_enable] read from it. *)
Variable W : Type.
Variable adv_enable : W -> bool.

(** [ESP_GATT_DEF_BLE_MTU_SIZE] of esp_gatt_defs.h. *)
Variable ESP_GATT_DEF_BLE_MTU_SIZE : Z.

(** Modelled from the spec: [mgos_bt_gatts_handler_t] is declared in
    esp32_bt.h, which is not among the sources.  A handler gets the session
    or nothing, the event kind and payload, and returns a [bool]; here the
    session is its address together with the connection it points to, and
    [None] is the [NULL] session. *)
Definition mgos_bt_gatts_handler_t : Type :=
  W -> option (addr * esp32_bt_connection) -> gatts_event -> bool * W.

(** [attr_handles] is [None] while the pointer is [NULL]. *)
Record esp32_bt_service_entry := {
  se_addr : addr;
  svc_descr : esp_attr_desc_t;
  num_attrs : nat;
  registered : bool;
  cb : mgos_bt_gatts_handler_t;
  attr_handles : option (list Z)
}.

Record machine := {
  s_svcs : list esp32_bt_service_entry;
  s_conns : list esp32_bt_connection_entry;
  s_gatts_registered : bool;
  s_gatts_if : Z;
  heap_top : addr;
  world : W
}.

Definition set_svcs (l : list esp32_bt_service_entry) (m : machine) : machine :=
  {| s_svcs := l; s_conns := s_conns m;
     s_gatts_registered := s_gatts_registered m; s_gatts_if := s_gatts_if m;
     heap_top := heap_top m; world := world m |}.

Definition set_conns (l : list esp32_bt_connection_entry) (m : machine) : machine :=
  {| s_svcs := s_svcs m; s_conns := l;
     s_gatts_registered := s_gatts_registered m; s_gatts_if := s_gatts_if m;
     heap_top := heap_top m; world := world m |}.

Definition set_gatts_registered (gif : Z) (m : machine) : machine :=
  {| s_svcs := s_svcs m; s_conns := s_conns m;
     s_gatts_registered := true; s_gatts_if := gif;
     heap_top := heap_top m; world := world m |}.

Definition set_world (w : W) (m : machine) : machine :=
  {| s_svcs := s_svcs m; s_conns := s_conns m;
     s_gatts_registered := s_gatts_registered m; s_gatts_if := s_gatts_if m;
     heap_top := heap_top m; world := w |}.

Definition bump_heap (m : machine) : machine :=
  {| s_svcs := s_svcs m; s_conns := s_conns m;
     s_gatts_registered := s_gatts_registered m; s_gatts_if := s_gatts_if m;
     heap_top := S (heap_top m); world := world m |}.

(** ** The monad of the dispatcher: state, action log, fault *)

Definition M (A : Type) : Type := machine -> option (A * machine * list action).

Definition ret {A} (a : A) : M A := fun m => Some (a, m, []).

Definition bind {A B} (c : M A) (k : A -> M B) : M B :=
  fun m =>
    match c m with
    | None => None
    | Some (a, m1, l1) =>
        match k a m1 with
        | None => None
        | Some (b, m2, l2) => Some (b, m2, l1 ++ l2)
        end
    end.

Notation "x <- c ;; k" := (bind c (fun x => k))
  (at level 61, c at next level, right associativity).
Notation "c ;;; k" := (bind c (fun _ => k))
  (at level 61, right associativity).

Definition fault {A} : M A := fun _ => None.
Definition emit (a : action) : M unit := fun m => Some (tt, m, [a]).
Definition get : M machine := fun m => Some (m, m, []).
Definition modify (f : machine -> machine) : M unit := fun m => Some (tt, f m, []).
Definition when (b : bool) (c : M unit) : M unit := if b then c else ret tt.

(** [calloc]: a fresh address, never [NULL]. *)
Definition alloc : M addr :=
  fun m => Some (heap_top m, bump_heap m, [calloc (heap_top m)]).

(** [se->cb(bs, ev, ep)]. *)
Definition call_cb (s : esp32_bt_service_entry)
    (bs : option (addr * esp32_bt_connection)) (ev : gatts_event) : M bool :=
  fun m =>
    let (r, w) := cb s (world m) bs ev in
    Some (r, set_world w m, [cb_call (se_addr s) (option_map fst bs) ev]).

(** ** Lookups *)

Fixpoint bytes_eqb (a b : list Z) : bool :=
  match a, b with
  | [], [] => true
  | x :: a', y :: b' => (x =? y) && bytes_eqb a' b'
  | _, _ => false
  end.

(** The test of [find_service_by_uuid]: lengths equal and [memcmp] of the
    first [uuid->len] bytes. *)
Definition uuid_match (s : esp32_bt_service_entry) (u : esp_bt_uuid_t) : bool :=
  Nat.eqb (att_length (svc_descr s)) (uuid_len u)
  && bytes_eqb (firstn (uuid_len u) (att_value (svc_descr s)))
               (firstn (uuid_len u) (uuid_bytes u)).

Definition find_service_by_uuid (svcs : list esp32_bt_service_entry)
    (u : esp_bt_uuid_t) : option esp32_bt_service_entry :=
  find (fun s => uuid_match s u) svcs.

(** The inner loop of [find_service_by_attr_handle]: [n] reads of the
    handle table; [None] when a read falls outside the table. *)
Fixpoint attr_scan (n : nat) (hs : list Z) (h : Z) : option bool :=
  match n with
  | O => Some false
  | S n' =>
      match hs with
      | [] => None
      | x :: hs' => if x =? h then Some true else attr_scan n' hs' h
      end
  end.

Definition handle_table (s : esp32_bt_service_entry) : list Z :=
  match attr_handles s with
  | Some hs => hs
  | None => []
  end.

Fixpoint find_service_by_attr_handle (svcs : list esp32_bt_service_entry)
    (h : Z) : option (option esp32_bt_service_entry) :=
  match svcs with
  | [] => Some None
  | s :: rest =>
      match attr_scan (num_attrs s) (handle_table s) h with
      | None => None
      | Some true => Some (Some s)
      | Some false => find_service_by_attr_handle rest h
      end
  end.

Definition conn_match (gif cid : Z) (ce : esp32_bt_connection_entry) : bool :=
  (gatt_if (bc ce) =? gif) && (conn_id (bc ce) =? cid).

Definition find_connection (conns : list esp32_bt_connection_entry)
    (gif cid : Z) : option esp32_bt_connection_entry :=
  find (conn_match gif cid) conns.

(** [sse->se]: the service entry a session points to. *)
Definition deref_service (svcs : list esp32_bt_service_entry) (a : addr)
  : option esp32_bt_service_entry :=
  find (fun s => Nat.eqb (se_addr s) a) svcs.

(** ** List surgery on the node a scan has found *)

Fixpoint update_first {A} (p : A -> bool) (f : A -> A) (l : list A) : list A :=
  match l with
  | [] => []
  | x :: l' => if p x then f x :: l' else x :: update_first p f l'
  end.

Fixpoint remove_first {A} (p : A -> bool) (l : list A) : list A :=
  match l with
  | [] => []
  | x :: l' => if p x then l' else x :: remove_first p l'
  end.

Definition set_registered (s : esp32_bt_service_entry) : esp32_bt_service_entry :=
  {| se_addr := se_addr s; svc_descr := svc_descr s; num_attrs := num_attrs s;
     registered := true; cb := cb s; attr_handles := attr_handles s |}.

Definition set_attr_handles (hs : list Z) (s : esp32_bt_service_entry)
  : esp32_bt_service_entry :=
  {| se_addr := se_addr s; svc_descr := svc_descr s; num_attrs := num_attrs s;
     registered := registered s; cb := cb s; attr_handles := Some hs |}.

Definition set_mtu (v : Z) (ce : esp32_bt_connection_entry)
  : esp32_bt_connection_entry :=
  {| ce_addr := ce_addr ce;
     bc := {| gatt_if := gatt_if (bc ce); conn_id := conn_id (bc ce);
              mtu := v; peer_addr := peer_addr (bc ce) |};
     sessions := sessions ce |}.

(** ** esp32_bt_register_services *)

Fixpoint register_pending (gif : Z) (svcs : list esp32_bt_service_entry)
  : list esp32_bt_service_entry * list action :=
  match svcs with
  | [] => ([], [])
  | s :: rest =>
      let (rest', acts) := register_pending gif rest in
      if registered s then (s :: rest', acts)
      else (set_registered s :: rest',
            esp_ble_gatts_create_attr_tab (svc_descr s) gif (num_attrs s) :: acts)
  end.

Definition esp32_bt_register_services : M unit :=
  fun m =>
    if negb (s_gatts_registered m) then Some (tt, m, [])
    else
      let (svcs, acts) := register_pending (s_gatts_if m) (s_svcs m) in
      Some (tt, set_svcs svcs m, acts).

(** ** The loops of esp32_bt_gatts_ev *)

(** READ and WRITE: the session loop, [ret] being the local of that name. *)
Fixpoint route_sessions (ev : gatts_event) (ce : esp32_bt_connection_entry)
    (found : option esp32_bt_service_entry)
    (l : list esp32_bt_session_entry) (r : bool) : M bool :=
  match l with
  | [] => ret r
  | sse :: l' =>
      match found with
      | Some s =>
          if Nat.eqb (se sse) (se_addr s) then
            r' <- call_cb s (Some (sse_addr sse, bc ce)) ev ;;
            route_sessions ev ce found l' r'
          else route_sessions ev ce found l' r
      | None => route_sessions ev ce found l' r
      end
  end.

(** The common part of READ and WRITE once a response is needed. *)
Definition route_access (ev : gatts_event) (gif cid handle : Z) : M bool :=
  m <- get ;;
  match find_connection (s_conns m) gif cid with
  | Some ce =>
      match find_service_by_attr_handle (s_svcs m) handle with
      | None => fault
      | Some found => route_sessions ev ce found (sessions ce) false
      end
  | None => ret false
  end.

(** CONNECT: one session per entry of [s_svcs], each inserted at the head
    of the connection's list and notified at once. *)
Fixpoint connect_sessions (ev : gatts_event) (ce_a : addr)
    (c : esp32_bt_connection) (svcs : list esp32_bt_service_entry)
    (acc : list esp32_bt_session_entry) : M (list esp32_bt_session_entry) :=
  match svcs with
  | [] => ret acc
  | s :: rest =>
      a <- alloc ;;
      call_cb s (Some (a, c)) ev ;;;
      connect_sessions ev ce_a c rest
        ({| sse_addr := a; bs_bc := ce_a; se := se_addr s |} :: acc)
  end.

(** DISCONNECT: notify and free every session of the entry. *)
Fixpoint disconnect_sessions (ev : gatts_event) (ce : esp32_bt_connection_entry)
    (l : list esp32_bt_session_entry) : M unit :=
  match l with
  | [] => ret tt
  | sse :: l' =>
      m <- get ;;
      match deref_service (s_svcs m) (se sse) with
      | None => fault
      | Some s =>
          call_cb s (Some (sse_addr sse, bc ce)) ev ;;;
          emit (free (sse_addr sse)) ;;;
          disconnect_sessions ev ce l'
      end
  end.

Definition restart_advertising : M unit :=
  m <- get ;;
  when (adv_enable (world m)) (emit esp_ble_gap_start_advertising).

(** ** esp32_bt_gatts_ev *)

Definition esp32_bt_gatts_ev (ev : gatts_event) (gif : Z) : M unit :=
  match ev with
  | ESP_GATTS_REG_EVT _ _ =>
      emit esp_ble_gap_set_device_name ;;;
      emit esp_ble_gap_config_adv_data ;;;
      modify (set_gatts_registered gif) ;;;
      esp32_bt_register_services
  | ESP_GATTS_READ_EVT p =>
      if negb (rd_need_rsp p) then ret tt
      else
        r <- route_access ev gif (rd_conn_id p) (rd_handle p) ;;
        if negb r then
          emit (esp_ble_gatts_send_response gif (rd_conn_id p) (rd_trans_id p)
                  ESP_GATT_READ_NOT_PERMIT)
        else ret tt
  | ESP_GATTS_WRITE_EVT p =>
      if negb (wr_need_rsp p) then ret tt
      else
        r <- route_access ev gif (wr_conn_id p) (wr_handle p) ;;
        emit (esp_ble_gatts_send_response gif (wr_conn_id p) (wr_trans_id p)
                (if r then ESP_GATT_OK else ESP_GATT_WRITE_NOT_PERMIT))
  | ESP_GATTS_MTU_EVT p =>
      modify (fun m =>
        set_conns (update_first (conn_match gif (mtu_conn_id p))
                                (set_mtu (mtu_mtu p)) (s_conns m)) m)
  | ESP_GATTS_CONNECT_EVT p =>
      if negb (cn_is_connected p) then ret tt
      else
        emit (esp_ble_gap_update_conn_params (cn_remote_bda p) 0 80 48 400) ;;;
        restart_advertising ;;;
        ce_a <- alloc ;;
        let c := {| gatt_if := gif; conn_id := cn_conn_id p;
                    mtu := ESP_GATT_DEF_BLE_MTU_SIZE;
                    peer_addr := cn_remote_bda p |} in
        m <- get ;;
        ss <- connect_sessions ev ce_a c (s_svcs m) [] ;;
        emit (conns_insert_head ce_a) ;;;
        modify (fun m =>
          set_conns ({| ce_addr := ce_a; bc := c; sessions := ss |} :: s_conns m) m)
  | ESP_GATTS_DISCONNECT_EVT p =>
      m <- get ;;
      match find_connection (s_conns m) gif (dc_conn_id p) with
      | Some ce =>
          disconnect_sessions ev ce (sessions ce) ;;;
          emit (conns_remove (ce_addr ce)) ;;;
          modify (fun m =>
            set_conns (remove_first (conn_match gif (dc_conn_id p)) (s_conns m)) m) ;;;
          emit (free (ce_addr ce))
      | None => ret tt
      end ;;;
      restart_advertising
  | ESP_GATTS_CREAT_ATTR_TAB_EVT p =>
      if negb (tab_status p =? 0) then ret tt
      else
        m <- get ;;
        match find_service_by_uuid (s_svcs m) (tab_svc_uuid p) with
        | None => ret tt
        | Some s =>
            if negb (Nat.eqb (num_attrs s) (tab_num_handle p)) then ret tt
            else
              alloc ;;;
              modify (fun m =>
                set_svcs (update_first (fun x => uuid_match x (tab_svc_uuid p))
                            (set_attr_handles (tab_handles p)) (s_svcs m)) m) ;;;
              call_cb s None ev ;;;
              match tab_handles p with
              | [] => fault
              | svch :: _ => emit (esp_ble_gatts_start_service svch)
              end
        end
  | _ => ret tt
  end.

(** ** esp32_bt_gap_ev *)

Definition esp32_bt_gap_ev (ev : gap_event) : M unit :=
  match ev with
  | ESP_GAP_BLE_ADV_DATA_SET_COMPLETE_EVT => emit esp_ble_gap_start_advertising
  | _ => ret tt
  end.

(** ** mgos_bt_gatts_register_service

    [None] for the handler is the [NULL] function pointer; [mem] tells
    whether [calloc] finds memory for the entry ([se == NULL] otherwise). *)
Definition mgos_bt_gatts_register_service (d : esp_attr_desc_t) (n : nat)
    (h : option mgos_bt_gatts_handler_t) (mem : bool) : M bool :=
  match h with
  | None => ret false
  | Some f =>
      if negb mem then ret false
      else
        a <- alloc ;;
        modify (fun m =>
          set_svcs ({| se_addr := a; svc_descr := d; num_attrs := n;
                       registered := false; cb := f; attr_handles := None |}
                    :: s_svcs m) m) ;;;
        esp32_bt_register_services ;;;
        ret true
  end.

(** ** Runs of the program *)

(** What can happen to the program: a service registers, the stack calls
    one of the two callbacks, or the world changes on its own (somebody
    edits the configuration between two events). *)
Inductive input :=
| In_register_service (d : esp_attr_desc_t) (n : nat)
    (h : option mgos_bt_gatts_handler_t) (mem : bool)
| In_gatts_ev (ev : gatts_event) (gif : Z)
| In_gap_ev (ev : gap_event)
| In_world (w : W).

Definition step (i : input) : M unit :=
  match i with
  | In_register_service d n h mem =>
      mgos_bt_gatts_register_service d n h mem ;;; ret tt
  | In_gatts_ev ev gif => esp32_bt_gatts_ev ev gif
  | In_gap_ev ev => esp32_bt_gap_ev ev
  | In_world w => modify (set_world w)
  end.

(** The [static] initialisers. *)
Definition init (w : W) : machine :=
  {| s_svcs := []; s_conns := []; s_gatts_registered := false;
     s_gatts_if := 0; heap_top := 1%nat; world := w |}.

(** The stack reports an attribute table only in answer to
    [esp_ble_gatts_create_attr_tab], which [esp32_bt_register_services]
    calls only once [s_gatts_registered] is set. *)
Definition stack_may_deliver (m : machine) (i : input) : bool :=
  match i with
  | In_gatts_ev (ESP_GATTS_CREAT_ATTR_TAB_EVT _) _ => s_gatts_registered m
  | _ => true
  end.

Inductive reachable : machine -> Prop :=
| reachable_init : forall w, reachable (init w)
| reachable_step : forall m i m' acts,
    reachable m -> stack_may_deliver m i = true ->
    step i m = Some (tt, m', acts) -> reachable m'.

(** A run on a list of inputs; [None] when an input is out of protocol or
    the program faults. *)
Fixpoint run (l : list input) (m : machine) : option machine :=
  match l with
  | [] => Some m
  | i :: rest =>
      if stack_may_deliver m i then
        match step i m with
        | Some (_, m', _) => run rest m'
        | None => None
        end
      else None
  end.

(** ** Shape of the heap *)


(** [sa] is the list of the addresses of the service entries. *)
Definition session_ok (sa : list addr) (top : addr)
    (ce : esp32_bt_connection_entry) (sse : esp32_bt_session_entry) : Prop :=
  bs_bc sse = ce_addr ce /\ In (se sse) sa /\ (sse_addr sse < top)%nat /\
  sse_addr sse <> ce_addr ce.

Definition conn_ok (sa : list addr) (top : addr)
    (ce : esp32_bt_connection_entry) : Prop :=
  (ce_addr ce < top)%nat /\
  Forall (session_ok sa top ce) (sessions ce) /\
  NoDup (map (@sse_addr) (sessions ce)) /\
  NoDup (map (@se) (sessions ce)).

(** Entries are distinct nodes allocated below [heap_top]; a session is a
    node other than the connection that holds it, points back to that
    connection and to a node of [s_svcs]; a connection holds at most one
    session per service. *)
Record wf (m : machine) : Prop := {
  wf_svcs_nodup : NoDup (map se_addr (s_svcs m));
  wf_svcs_below : Forall (fun a => (a < heap_top m)%nat) (map se_addr (s_svcs m));
  wf_conns_nodup : NoDup (map (@ce_addr) (s_conns m));
  wf_conns_ok : Forall (conn_ok (map se_addr (s_svcs m)) (heap_top m)) (s_conns m)
}.

(** The two facts about the service entries that hold along every run: a
    handle table, once in place, has [num_attrs] entries; and before the
    stack has registered the application no entry is marked [registered]
    or has a table, while afterwards every entry is marked. *)
Definition handles_ok (s : esp32_bt_service_entry) : Prop :=
  attr_handles s = None \/
  exists hs, attr_handles s = Some hs /\ length hs = num_attrs s.

Definition flags_ok (m : machine) : Prop :=
  if s_gatts_registered m
  then Forall (fun s => registered s = true) (s_svcs m)
  else Forall (fun s => registered s = false /\ attr_handles s = None) (s_svcs m).

(** ** Counting in the action log *)

Definition count_acts (p : action -> bool) (l : list action) : nat :=
  length (filter p l).

Definition is_cb_call (a : action) : bool :=
  match a with cb_call _ _ _ => true | _ => false end.

Definition is_start_advertising (a : action) : bool :=
  match a with esp_ble_gap_start_advertising => true | _ => false end.

Definition is_start_service (a : action) : bool :=
  match a with esp_ble_gatts_start_service _ => true | _ => false end.










(** ** Auxiliary definitions for the statements *)

(** Two machines that differ at most in the world and the allocator. *)
Definition same_lists (m m' : machine) : Prop :=
  s_svcs m' = s_svcs m /\ s_conns m' = s_conns m /\
  s_gatts_registered m' = s_gatts_registered m /\ s_gatts_if m' = s_gatts_if m.

(** The sessions CONNECT creates, in creation order, and what it logs. *)
Fixpoint new_sessions (ce_a a : addr) (svcs : list esp32_bt_service_entry)
  : list esp32_bt_session_entry :=
  match svcs with
  | [] => []
  | s :: rest =>
      {| sse_addr := a; bs_bc := ce_a; se := se_addr s |}
      :: new_sessions ce_a (S a) rest
  end.

Fixpoint connect_acts (ev : gatts_event) (a : addr)
    (svcs : list esp32_bt_service_entry) : list action :=
  match svcs with
  | [] => []
  | s :: rest =>
      calloc a :: cb_call (se_addr s) (Some a) ev :: connect_acts ev (S a) rest
  end.

(** The world after the handlers of [svcs] have been notified in turn. *)
Fixpoint connect_world (ev : gatts_event) (c : esp32_bt_connection) (a : addr)
    (svcs : list esp32_bt_service_entry) (w : W) : W :=
  match svcs with
  | [] => w
  | s :: rest =>
      connect_world ev c (S a) rest (snd (cb s w (Some (a, c)) ev))
  end.

(** What DISCONNECT logs for a list of sessions. *)
Definition disconnect_acts (ev : gatts_event)
    (l : list esp32_bt_session_entry) : list action :=
  flat_map (fun sse => [cb_call (se sse) (Some (sse_addr sse)) ev;
                        free (sse_addr sse)]) l.

(** A service whose handle table is in place. *)
Definition resolved (s : esp32_bt_service_entry) : Prop :=
  length (handle_table s) = num_attrs s.

Definition connect_conn (gif : Z) (p : gatts_connect_evt_param)
  : esp32_bt_connection :=
  {| gatt_if := gif; conn_id := cn_conn_id p;
     mtu := ESP_GATT_DEF_BLE_MTU_SIZE; peer_addr := cn_remote_bda p |}.

Definition inv (m : machine) : Prop :=
  wf m /\ Forall handles_ok (s_svcs m) /\ flags_ok m.

(** The session of [ce] bound to service [s], and the target of an access:
    the connection, the service that owns the handle and that session. *)
Definition bound_session (ce : esp32_bt_connection_entry)
    (s : esp32_bt_service_entry) : option esp32_bt_session_entry :=
  find (fun sse => Nat.eqb (se sse) (se_addr s)) (sessions ce).

Definition access_target (m : machine) (gif cid h : Z)
  : option (esp32_bt_connection_entry * esp32_bt_service_entry
            * esp32_bt_session_entry) :=
  match find_connection (s_conns m) gif cid with
  | Some ce =>
      match find_service_by_attr_handle (s_svcs m) h with
      | Some (Some s) =>
          match bound_session ce s with
          | Some sse => Some (ce, s, sse)
          | None => None
          end
      | _ => None
      end
  | None => None
  end.

(** ** Further definitions: whole runs with their log, and what is logged *)

(** A run that keeps the log of all its steps. *)
Fixpoint run_log (l : list input) (m : machine) : option (machine * list action) :=
  match l with
  | [] => Some (m, [])
  | i :: rest =>
      if stack_may_deliver m i then
        match step i m with
        | Some (_, m1, a1) =>
            match run_log rest m1 with
            | Some (m2, a2) => Some (m2, a1 ++ a2)
            | None => None
            end
        | None => None
        end
      else None
  end.

Definition is_create_attr_tab (a : action) : bool :=
  match a with esp_ble_gatts_create_attr_tab _ _ _ => true | _ => false end.

Definition is_send_response (a : action) : bool :=
  match a with esp_ble_gatts_send_response _ _ _ _ => true | _ => false end.

Definition is_calloc (a : action) : bool :=
  match a with calloc _ => true | _ => false end.

Definition is_any_free (a : action) : bool :=
  match a with free _ => true | _ => false end.

(** The request [esp32_bt_register_services] issues for an entry, and the
    entry after the loop body. *)
Definition table_request (gif : Z) (s : esp32_bt_service_entry) : action :=
  esp_ble_gatts_create_attr_tab (svc_descr s) gif (num_attrs s).

Definition mark_registered (s : esp32_bt_service_entry) : esp32_bt_service_entry :=
  if registered s then s else set_registered s.

(** What identifies a service for its whole life. *)
Definition service_ident (s : esp32_bt_service_entry)
  : addr * esp_attr_desc_t * nat * mgos_bt_gatts_handler_t :=
  (se_addr s, svc_descr s, num_attrs s, cb s).

(** The table requests of a log, in order: the attribute table and the
    attribute count each of them passes. *)
Definition requests (acts : list action) : list (esp_attr_desc_t * nat) :=
  flat_map (fun a => match a with
                     | esp_ble_gatts_create_attr_tab d _ n => [(d, n)]
                     | _ => []
                     end) acts.

(** The services marked [registered], each as a request shows it. *)
Definition marked (m : machine) : list (esp_attr_desc_t * nat) :=
  map (fun s => (svc_descr s, num_attrs s))
      (filter (fun s => registered s) (s_svcs m)).

(** The outside calls an input may lead to. *)
Definition allowed (i : input) (a : action) : bool :=
  match i with
  | In_register_service _ _ _ _ =>
      match a with
      | calloc _ | esp_ble_gatts_create_attr_tab _ _ _ => true
      | _ => false
      end
  | In_gap_ev _ => is_start_advertising a
  | In_world _ => false
  | In_gatts_ev ev gif =>
      match ev, a with
      | ESP_GATTS_REG_EVT _ _, esp_ble_gap_set_device_name
      | ESP_GATTS_REG_EVT _ _, esp_ble_gap_config_adv_data
      | ESP_GATTS_REG_EVT _ _, esp_ble_gatts_create_attr_tab _ _ _ => true
      | ESP_GATTS_READ_EVT _, cb_call _ (Some _) (ESP_GATTS_READ_EVT _) => true
      | ESP_GATTS_READ_EVT _,
        esp_ble_gatts_send_response _ _ _ ESP_GATT_READ_NOT_PERMIT => true
      | ESP_GATTS_WRITE_EVT _, cb_call _ (Some _) (ESP_GATTS_WRITE_EVT _) => true
      | ESP_GATTS_WRITE_EVT _, esp_ble_gatts_send_response _ _ _ ESP_GATT_OK
      | ESP_GATTS_WRITE_EVT _,
        esp_ble_gatts_send_response _ _ _ ESP_GATT_WRITE_NOT_PERMIT => true
      | ESP_GATTS_CONNECT_EVT _, esp_ble_gap_update_conn_params _ _ _ _ _
      | ESP_GATTS_CONNECT_EVT _, esp_ble_gap_start_advertising
      | ESP_GATTS_CONNECT_EVT _, calloc _
      | ESP_GATTS_CONNECT_EVT _, cb_call _ (Some _) (ESP_GATTS_CONNECT_EVT _)
      | ESP_GATTS_CONNECT_EVT _, conns_insert_head _ => true
      | ESP_GATTS_DISCONNECT_EVT _,
        cb_call _ (Some _) (ESP_GATTS_DISCONNECT_EVT _)
      | ESP_GATTS_DISCONNECT_EVT _, free _
      | ESP_GATTS_DISCONNECT_EVT _, conns_remove _
      | ESP_GATTS_DISCONNECT_EVT _, esp_ble_gap_start_advertising => true
      | ESP_GATTS_CREAT_ATTR_TAB_EVT _, calloc _
      | ESP_GATTS_CREAT_ATTR_TAB_EVT _,
        cb_call _ None (ESP_GATTS_CREAT_ATTR_TAB_EVT _)
      | ESP_GATTS_CREAT_ATTR_TAB_EVT _, esp_ble_gatts_start_service _ => true
      | _, _ => false
      end
  end.

(** A service entry and what it has become. *)
Definition service_kept (s s' : esp32_bt_service_entry) : Prop :=
  service_ident s' = service_ident s /\
  (registered s = true -> registered s' = true) /\
  (attr_handles s <> None -> attr_handles s' <> None).

Definition is_update_conn_params (a : action) : bool :=
  match a with esp_ble_gap_update_conn_params _ _ _ _ _ => true | _ => false end.

(** The first service, in list order, whose handle table holds [h]. *)
Definition handle_owner (svcs : list esp32_bt_service_entry) (h : Z)
  : option esp32_bt_service_entry :=
  find (fun s => existsb (fun x => x =? h) (handle_table s)) svcs.

(** ** The heap as the log shows it *)

Definition is_live (a : addr) (live : list addr) : bool :=
  existsb (Nat.eqb a) live.

Definition release (a : addr) (live : list addr) : list addr :=
  filter (fun x => negb (Nat.eqb x a)) live.

Fixpoint release_all (rs : list addr) (live : list addr) : list addr :=
  match rs with
  | [] => live
  | a :: rs' => release_all rs' (release a live)
  end.

(** The blocks left allocated by a log that starts with the blocks [live];
    [None] when the log frees, links, unlinks or hands to a handler a block
    that is not allocated at that point. *)
Fixpoint heap_after (acts : list action) (live : list addr)
  : option (list addr) :=
  match acts with
  | [] => Some live
  | a :: rest =>
      match a with
      | calloc p => heap_after rest (p :: live)
      | free p =>
          if is_live p live then heap_after rest (release p live) else None
      | cb_call s b _ =>
          if is_live s live
             && match b with Some q => is_live q live | None => true end
          then heap_after rest live else None
      | conns_insert_head p | conns_remove p =>
          if is_live p live then heap_after rest live else None
      | _ => heap_after rest live
      end
  end.

Definition touches_heap (a : action) : bool :=
  match a with
  | cb_call _ _ _ | calloc _ | free _ | conns_insert_head _ | conns_remove _ => true
  | _ => false
  end.

(** The addresses of the entries on the two lists. *)
Definition conn_nodes (ce : esp32_bt_connection_entry) : list addr :=
  ce_addr ce :: map (@sse_addr) (sessions ce).

Definition nodes (m : machine) : list addr :=
  flat_map conn_nodes (s_conns m) ++ map se_addr (s_svcs m).

(** The entries on the lists are distinct allocated blocks, and the
    allocator has handed out nothing at or above [heap_top]. *)
Definition heap_ok (m : machine) (live : list addr) : Prop :=
  NoDup live /\ Forall (fun a => (a < heap_top m)%nat) live /\
  NoDup (nodes m) /\ incl (nodes m) live.




(** ** Sample data

    Two services, heart rate (0x180d, three attributes) and battery
    (0x180f, two attributes), and the machines of a short session with
    them.  The statements at the end of the file are exercised on these. *)

Definition accept_all : mgos_bt_gatts_handler_t := fun w _ _ => (true, w).

Definition heart_rate_descr : esp_attr_desc_t :=
  {| att_length := 2; att_value := [13; 24] |}.

Definition battery_descr : esp_attr_desc_t :=
  {| att_length := 2; att_value := [15; 24] |}.

Definition heart_rate_uuid : esp_bt_uuid_t :=
  {| uuid_len := 2; uuid_bytes := [13; 24] |}.

Definition battery_uuid : esp_bt_uuid_t :=
  {| uuid_len := 2; uuid_bytes := [15; 24] |}.

Definition heart_rate_tab : gatts_add_attr_tab_evt_param :=
  {| tab_status := 0; tab_svc_uuid := heart_rate_uuid; tab_handles := [40; 41; 42] |}.

Definition battery_tab : gatts_add_attr_tab_evt_param :=
  {| tab_status := 0; tab_svc_uuid := battery_uuid; tab_handles := [50; 51] |}.

Definition heart_rate_tab_failed : gatts_add_attr_tab_evt_param :=
  {| tab_status := 1; tab_svc_uuid := heart_rate_uuid; tab_handles := [] |}.

Definition peer_connect : gatts_connect_evt_param :=
  {| cn_conn_id := 0; cn_remote_bda := [1; 2; 3; 4; 5; 6]; cn_is_connected := true |}.

Definition peer_not_connected : gatts_connect_evt_param :=
  {| cn_conn_id := 0; cn_remote_bda := [1; 2; 3; 4; 5; 6]; cn_is_connected := false |}.

Definition peer_disconnect : gatts_disconnect_evt_param :=
  {| dc_conn_id := 0; dc_remote_bda := [1; 2; 3; 4; 5; 6]; dc_is_connected := false |}.

Definition stranger_disconnect : gatts_disconnect_evt_param :=
  {| dc_conn_id := 9; dc_remote_bda := [9; 9; 9; 9; 9; 9]; dc_is_connected := false |}.

Definition peer_read : gatts_read_evt_param :=
  {| rd_conn_id := 0; rd_trans_id := 77; rd_bda := [1; 2; 3; 4; 5; 6];
     rd_handle := 41; rd_offset := 0; rd_is_long := false; rd_need_rsp := true |}.

Definition peer_write : gatts_write_evt_param :=
  {| wr_conn_id := 0; wr_trans_id := 78; wr_bda := [1; 2; 3; 4; 5; 6];
     wr_handle := 41; wr_offset := 0; wr_need_rsp := true; wr_is_prep := false;
     wr_value := [1] |}.

Definition peer_conn : esp32_bt_connection :=
  {| gatt_if := 3; conn_id := 0; mtu := ESP_GATT_DEF_BLE_MTU_SIZE;
     peer_addr := [1; 2; 3; 4; 5; 6] |}.

Definition heart_rate (r : bool) (hs : option (list Z)) : esp32_bt_service_entry :=
  {| se_addr := 1%nat; svc_descr := heart_rate_descr; num_attrs := 3%nat;
     registered := r; cb := accept_all; attr_handles := hs |}.

Definition battery (r : bool) (hs : option (list Z)) : esp32_bt_service_entry :=
  {| se_addr := 2%nat; svc_descr := battery_descr; num_attrs := 2%nat;
     registered := r; cb := accept_all; attr_handles := hs |}.

(** Both services registered with the stack, their tables requested. *)
Definition sample_requested (w : W) : machine :=
  {| s_svcs := [battery true None; heart_rate true None]; s_conns := [];
     s_gatts_registered := true; s_gatts_if := 3; heap_top := 3%nat; world := w |}.

(** Both tables created. *)
Definition sample_started (w : W) : machine :=
  {| s_svcs := [battery true (Some [50; 51]); heart_rate true (Some [40; 41; 42])];
     s_conns := [];
     s_gatts_registered := true; s_gatts_if := 3; heap_top := 5%nat; world := w |}.

(** A peer connected. *)
Definition sample_connected (w : W) : machine :=
  {| s_svcs := [battery true (Some [50; 51]); heart_rate true (Some [40; 41; 42])];
     s_conns :=
       [{| ce_addr := 5%nat; bc := peer_conn;
           sessions := [{| sse_addr := 7%nat; bs_bc := 5%nat; se := 1%nat |};
                        {| sse_addr := 6%nat; bs_bc := 5%nat; se := 2%nat |}] |}];
     s_gatts_registered := true; s_gatts_if := 3; heap_top := 8%nat; world := w |}.

(** The heart-rate service alone, its table refused by the stack, and a
    peer connected. *)
Definition sample_refused (w : W) : machine :=
  {| s_svcs := [heart_rate true None];
     s_conns :=
       [{| ce_addr := 2%nat; bc := peer_conn;
           sessions := [{| sse_addr := 3%nat; bs_bc := 2%nat; se := 1%nat |}] |}];
     s_gatts_registered := true; s_gatts_if := 3; heap_top := 4%nat; world := w |}.

Definition session_script : list input :=
  [In_register_service heart_rate_descr 3 (Some accept_all) true;
   In_register_service battery_descr 2 (Some accept_all) true;
   In_gatts_ev (ESP_GATTS_REG_EVT 0 0) 3;
   In_gatts_ev (ESP_GATTS_CREAT_ATTR_TAB_EVT heart_rate_tab) 3;
   In_gatts_ev (ESP_GATTS_CREAT_ATTR_TAB_EVT battery_tab) 3;
   In_gatts_ev (ESP_GATTS_CONNECT_EVT peer_connect) 3].

Definition refused_script : list input :=
  [In_register_service heart_rate_descr 3 (Some accept_all) true;
   In_gatts_ev (ESP_GATTS_REG_EVT 0 0) 3;
   In_gatts_ev (ESP_GATTS_CREAT_ATTR_TAB_EVT heart_rate_tab_failed) 3;
   In_gatts_ev (ESP_GATTS_CONNECT_EVT peer_connect) 3].

(** A service registered with no attribute (0x180a), and the table-created
    event that reports its table with status 0 and no handle. *)
Definition bare_descr : esp_attr_desc_t :=
  {| att_length := 2; att_value := [10; 24] |}.

Definition bare_uuid : esp_bt_uuid_t :=
  {| uuid_len := 2; uuid_bytes := [10; 24] |}.

Definition bare_tab : gatts_add_attr_tab_evt_param :=
  {| tab_status := 0; tab_svc_uuid := bare_uuid; tab_handles := [] |}.

Definition bare_script : list input :=
  [In_register_service bare_descr 0 (Some accept_all) true;
   In_gatts_ev (ESP_GATTS_REG_EVT 0 0) 3].

(** * Proofs *)

Unset Implicit Arguments.

(** ** The monad *)

Lemma bind_some : forall A B (c : M A) (k : A -> M B) m a m1 l1 b m2 l2,
  c m = Some (a, m1, l1) -> k a m1 = Some (b, m2, l2) ->
  bind c k m = Some (b, m2, l1 ++ l2).
Proof.
  intros A B c k m a m1 l1 b m2 l2 Hc Hk. unfold bind. now rewrite Hc, Hk.
Qed.

Lemma bind_inv : forall A B (c : M A) (k : A -> M B) m b m2 l,
  bind c k m = Some (b, m2, l) ->
  exists a m1 l1 l2,
    c m = Some (a, m1, l1) /\ k a m1 = Some (b, m2, l2) /\ l = l1 ++ l2.
Proof.
  intros A B c k m b m2 l H. unfold bind in H.
  destruct (c m) as [[[a m1] l1]|]; [|discriminate].
  destruct (k a m1) as [[[b' m2'] l2]|] eqn:Hk; [|discriminate].
  inversion H; subst. now exists a, m1, l1, l2.
Qed.

Lemma same_lists_refl : forall m, same_lists m m.
Proof. now unfold same_lists. Qed.

Lemma same_lists_trans : forall a b c,
  same_lists a b -> same_lists b c -> same_lists a c.
Proof.
  unfold same_lists. intros a b c (H1 & H2 & H3 & H4) (G1 & G2 & G3 & G4).
  repeat split; congruence.
Qed.

Lemma call_cb_run : forall s bs ev m,
  call_cb s bs ev m =
  Some (fst (cb s (world m) bs ev), set_world (snd (cb s (world m) bs ev)) m,
        [cb_call (se_addr s) (option_map fst bs) ev]).
Proof.
  intros. unfold call_cb. now destruct (cb s (world m) bs ev).
Qed.

Lemma restart_advertising_run : forall m,
  restart_advertising m =
  Some (tt, m, if adv_enable (world m) then [esp_ble_gap_start_advertising] else []).
Proof.
  intros m. unfold restart_advertising, bind, get, when.
  now destruct (adv_enable (world m)).
Qed.

(** ** Lookups and list surgery *)

Lemma deref_service_some : forall svcs a,
  In a (map se_addr svcs) ->
  exists s, deref_service svcs a = Some s /\ se_addr s = a /\ In s svcs.
Proof.
  induction svcs as [|x l IH]; simpl; intros a H; [contradiction|].
  destruct (Nat.eqb (se_addr x) a) eqn:E.
  - apply Nat.eqb_eq in E. exists x. auto.
  - destruct H as [H|H]; [apply Nat.eqb_neq in E; contradiction|].
    destruct (IH a H) as (s & H1 & H2 & H3). exists s. auto.
Qed.

Lemma update_first_map : forall A B (g : A -> B) p f (l : list A),
  (forall x, g (f x) = g x) -> map g (update_first p f l) = map g l.
Proof.
  intros A B g p f l Hg. induction l as [|x l IH]; simpl; [reflexivity|].
  destruct (p x); simpl; [now rewrite Hg|now rewrite IH].
Qed.

Lemma update_first_Forall : forall A (P : A -> Prop) p f (l : list A),
  (forall x, P x -> P (f x)) -> Forall P l -> Forall P (update_first p f l).
Proof.
  intros A P p f l Hf H. induction H as [|x l Hx Hl IH]; simpl; [constructor|].
  destruct (p x); constructor; auto.
Qed.

(** The node the scan finds is the one that is rewritten; the nodes before
    it do not match and, like the nodes after it, stay as they are. *)
Lemma update_first_split : forall A p f (l : list A) x,
  find p l = Some x ->
  exists l1 l2, l = l1 ++ x :: l2 /\ find p l1 = None /\
                update_first p f l = l1 ++ f x :: l2.
Proof.
  intros A p f l. induction l as [|y l IH]; simpl; intros x H; [discriminate|].
  destruct (p y) eqn:E.
  - inversion H; subst. exists [], l. simpl. auto.
  - destruct (IH x H) as (l1 & l2 & H1 & H2 & H3).
    exists (y :: l1), l2. simpl. rewrite E, H3, H1. auto.
Qed.

Lemma remove_first_incl : forall A p (l : list A) x,
  In x (remove_first p l) -> In x l.
Proof.
  intros A p l x. induction l as [|y l IH]; simpl; [auto|].
  destruct (p y); simpl; intuition.
Qed.

Lemma remove_first_Forall : forall A (P : A -> Prop) p (l : list A),
  Forall P l -> Forall P (remove_first p l).
Proof.
  intros A P p l H. rewrite Forall_forall in *.
  intros x Hx. apply H. eapply remove_first_incl; eauto.
Qed.

Lemma remove_first_nodup : forall A B (g : A -> B) p (l : list A),
  NoDup (map g l) -> NoDup (map g (remove_first p l)).
Proof.
  intros A B g p l. induction l as [|y l IH]; simpl; intros H; [constructor|].
  inversion H as [|? ? Hn Hd]; subst.
  destruct (p y); simpl; [assumption|].
  constructor; [|auto].
  intros Hin. apply Hn. apply in_map_iff in Hin. destruct Hin as (z & Hz & Hin).
  apply in_map_iff. exists z. split; [assumption|].
  eapply remove_first_incl; eauto.
Qed.


Lemma register_pending_addrs : forall gif svcs,
  map se_addr (fst (register_pending gif svcs)) = map se_addr svcs.
Proof.
  intros gif svcs. induction svcs as [|x l IH]; simpl; [reflexivity|].
  destruct (register_pending gif l) as [l' acts]. simpl in IH.
  destruct (registered x); simpl; now rewrite IH.
Qed.

Lemma register_pending_Forall : forall (P : esp32_bt_service_entry -> Prop) gif svcs,
  (forall x, P x -> P (set_registered x)) ->
  Forall P svcs -> Forall P (fst (register_pending gif svcs)).
Proof.
  intros P gif svcs HP H. induction H as [|x l Hx Hl IH]; simpl; [constructor|].
  destruct (register_pending gif l) as [l' acts]. simpl in IH.
  destruct (registered x); simpl; constructor; auto.
Qed.

Lemma register_pending_registered : forall gif svcs,
  Forall (fun s => registered s = true) (fst (register_pending gif svcs)).
Proof.
  intros gif svcs. induction svcs as [|x l IH]; simpl; [constructor|].
  destruct (register_pending gif l) as [l' acts]. simpl in IH.
  destruct (registered x) eqn:E; simpl; constructor; auto.
Qed.

(** ** The session loops *)

Lemma connect_sessions_run : forall ev ce_a c svcs acc m,
  exists m',
    connect_sessions ev ce_a c svcs acc m =
      Some (rev (new_sessions ce_a (heap_top m) svcs) ++ acc, m',
            connect_acts ev (heap_top m) svcs) /\
    same_lists m m' /\ heap_top m' = (heap_top m + length svcs)%nat /\
    world m' = connect_world ev c (heap_top m) svcs (world m).
Proof.
  intros ev ce_a c svcs. induction svcs as [|s rest IH]; intros acc m.
  - exists m. simpl. repeat split. lia.
  - cbn [connect_sessions new_sessions connect_acts].
    set (m1 := set_world (snd (cb s (world (bump_heap m))
                 (Some (heap_top m, c)) ev)) (bump_heap m)).
    destruct (IH ({| sse_addr := heap_top m; bs_bc := ce_a; se := se_addr s |} :: acc) m1)
      as (m' & Hrun & Hsame & Htop & Hw).
    exists m'. split; [|split; [|split]].
    + unfold bind at 1. unfold alloc at 1.
      unfold bind at 1. rewrite call_cb_run. fold m1.
      rewrite Hrun. simpl. rewrite <- app_assoc. reflexivity.
    + eapply same_lists_trans; [|exact Hsame]. now unfold same_lists.
    + rewrite Htop. simpl. lia.
    + rewrite Hw. reflexivity.
Qed.

Lemma disconnect_sessions_run : forall ev ce l m,
  Forall (fun sse => In (se sse) (map se_addr (s_svcs m))) l ->
  exists m',
    disconnect_sessions ev ce l m = Some (tt, m', disconnect_acts ev l) /\
    same_lists m m' /\ heap_top m' = heap_top m.
Proof.
  intros ev ce l. induction l as [|sse l IH]; intros m H.
  - exists m. simpl. repeat split.
  - inversion H as [|? ? Hin Hl]; subst.
    destruct (deref_service_some _ _ Hin) as (s & Hs & Ha & _).
    cbn [disconnect_sessions].
    set (m1 := set_world (snd (cb s (world m)
                 (Some (sse_addr sse, bc ce)) ev)) m).
    destruct (IH m1) as (m' & Hrun & Hsame & Htop); [exact Hl|].
    exists m'. split; [|split].
    + unfold bind at 1. unfold get at 1. rewrite Hs.
      unfold bind at 1. rewrite call_cb_run. fold m1.
      unfold bind at 1. unfold emit at 1. rewrite Hrun.
      simpl. now rewrite Ha.
    + eapply same_lists_trans; [|exact Hsame]. now unfold same_lists.
    + exact Htop.
Qed.

Lemma route_sessions_null : forall ev ce l r m,
  route_sessions ev ce None l r m = Some (r, m, []).
Proof.
  intros ev ce l. induction l as [|sse l IH]; intros r m; simpl; auto.
Qed.

Lemma route_sessions_miss : forall ev ce s l r m,
  ~ In (se_addr s) (map (@se) l) ->
  route_sessions ev ce (Some s) l r m = Some (r, m, []).
Proof.
  intros ev ce s l. induction l as [|sse l IH]; intros r m H; simpl; [reflexivity|].
  simpl in H. destruct (Nat.eqb (se sse) (se_addr s)) eqn:E.
  - apply Nat.eqb_eq in E. tauto.
  - apply IH. tauto.
Qed.

(** With at most one session per service, the loop calls the handler once,
    on the session bound to the service, and keeps what it returned. *)
Lemma route_sessions_hit : forall ev ce s l r m sse,
  NoDup (map (@se) l) -> In sse l -> se sse = se_addr s ->
  route_sessions ev ce (Some s) l r m =
  Some (fst (cb s (world m) (Some (sse_addr sse, bc ce)) ev),
        set_world (snd (cb s (world m) (Some (sse_addr sse, bc ce)) ev)) m,
        [cb_call (se_addr s) (Some (sse_addr sse)) ev]).
Proof.
  intros ev ce s l. induction l as [|x l IH]; intros r m sse Hd Hin Hse;
    [contradiction|].
  simpl in Hd. inversion Hd as [|? ? Hn Hd']; subst.
  cbn [route_sessions]. destruct Hin as [Hx|Hin].
  - subst x. rewrite Hse, Nat.eqb_refl.
    unfold bind. rewrite call_cb_run.
    rewrite route_sessions_miss; [reflexivity|]. now rewrite <- Hse.
  - destruct (Nat.eqb (se x) (se_addr s)) eqn:E.
    + apply Nat.eqb_eq in E. exfalso. apply Hn. rewrite E, <- Hse.
      now apply in_map.
    + now apply IH.
Qed.

(** ** The handle scan *)

Lemma attr_scan_total : forall n hs h,
  (n <= length hs)%nat -> exists b, attr_scan n hs h = Some b.
Proof.
  induction n as [|n IH]; intros hs h H; simpl; [eauto|].
  destruct hs as [|x hs]; [simpl in H; lia|].
  destruct (x =? h); [eauto|]. apply IH. simpl in H. lia.
Qed.

Lemma attr_scan_true : forall n hs h,
  attr_scan n hs h = Some true -> In h hs.
Proof.
  induction n as [|n IH]; intros hs h; simpl; [discriminate|].
  destruct hs as [|x hs]; [discriminate|].
  destruct (x =? h) eqn:E.
  - intros _. left. now apply Z.eqb_eq.
  - intros H. right. eauto.
Qed.

Lemma attr_scan_false : forall n hs h,
  attr_scan n hs h = Some false -> ~ In h (firstn n hs).
Proof.
  induction n as [|n IH]; intros hs h; simpl; [auto|].
  destruct hs as [|x hs]; [discriminate|].
  destruct (x =? h) eqn:E; [discriminate|].
  intros H [Hx|Hin]; [apply Z.eqb_neq in E; auto|].
  now apply (IH hs h H).
Qed.

Lemma find_service_by_attr_handle_total : forall svcs h,
  Forall resolved svcs -> exists r, find_service_by_attr_handle svcs h = Some r.
Proof.
  intros svcs h H. induction H as [|s l Hs Hl IH]; simpl; [eauto|].
  destruct (attr_scan_total (num_attrs s) (handle_table s) h) as [b Hb].
  - unfold resolved in Hs. lia.
  - rewrite Hb. destruct b; eauto.
Qed.

Lemma find_service_by_attr_handle_owner : forall svcs h s,
  find_service_by_attr_handle svcs h = Some (Some s) ->
  In s svcs /\ In h (handle_table s).
Proof.
  induction svcs as [|x l IH]; simpl; intros h s H; [discriminate|].
  destruct (attr_scan (num_attrs x) (handle_table x) h) as [[|]|] eqn:E;
    [| |discriminate].
  - inversion H; subst. split; [auto|]. eapply attr_scan_true; eauto.
  - destruct (IH h s H). auto.
Qed.

Lemma find_service_by_attr_handle_nobody : forall svcs h,
  find_service_by_attr_handle svcs h = Some None ->
  forall s, In s svcs -> ~ In h (firstn (num_attrs s) (handle_table s)).
Proof.
  induction svcs as [|x l IH]; simpl; intros h H s Hin; [contradiction|].
  destruct (attr_scan (num_attrs x) (handle_table x) h) as [[|]|] eqn:E;
    [discriminate| |discriminate].
  destruct Hin as [Hx|Hin]; [subst; now apply attr_scan_false|eauto].
Qed.

(** ** Events that leave everything as it is *)

Lemma disconnect_miss_run : forall m gif p,
  find_connection (s_conns m) gif (dc_conn_id p) = None ->
  esp32_bt_gatts_ev (ESP_GATTS_DISCONNECT_EVT p) gif m =
  Some (tt, m, if adv_enable (world m) then [esp_ble_gap_start_advertising] else []).
Proof.
  intros m gif p H. unfold esp32_bt_gatts_ev.
  eapply bind_some with (l1 := []) (a := m); [reflexivity|].
  rewrite H.
  eapply bind_some with (l1 := []) (a := tt); [reflexivity|].
  apply restart_advertising_run.
Qed.

(** C10.  A connect event whose payload says the peer is not connected
    ([is_connected] false) is ignored entirely: the machine (services,
    connections with their sessions, allocator, world) is unchanged and the
    action log is empty, so no handler is called, no connection-parameter
    update is requested and advertising is not restarted. *)
Theorem connect_not_connected_ignored : forall m gif p,
  cn_is_connected p = false ->
  esp32_bt_gatts_ev (ESP_GATTS_CONNECT_EVT p) gif m = Some (tt, m, []).
Proof.
  intros m gif p H. unfold esp32_bt_gatts_ev. now rewrite H.
Qed.

(** C5.  A disconnect event whose (interface, connection id) pair matches no
    entry of [s_conns] leaves the machine as it is, so the service list, the
    connection list and every session list are unchanged, and calls no
    handler; the only thing that can appear in the action log is the
    advertising restart, issued when the enable flag is set. *)
Theorem disconnect_unknown_noop : forall m gif p,
  find_connection (s_conns m) gif (dc_conn_id p) = None ->
  exists acts,
    esp32_bt_gatts_ev (ESP_GATTS_DISCONNECT_EVT p) gif m = Some (tt, m, acts) /\
    count_acts is_cb_call acts = 0%nat /\
    acts = (if adv_enable (world m) then [esp_ble_gap_start_advertising] else []).
Proof.
  intros m gif p H.
  exists (if adv_enable (world m) then [esp_ble_gap_start_advertising] else []).
  split; [now apply disconnect_miss_run|].
  split; [now destruct (adv_enable (world m))|reflexivity].
Qed.

(** ** CONNECT, DISCONNECT and CREAT_ATTR_TAB, run to the end *)

Lemma connect_run : forall m gif p,
  cn_is_connected p = true ->
  exists m',
    esp32_bt_gatts_ev (ESP_GATTS_CONNECT_EVT p) gif m =
      Some (tt, m',
            (esp_ble_gap_update_conn_params (cn_remote_bda p) 0 80 48 400
             :: (if adv_enable (world m) then [esp_ble_gap_start_advertising] else [])
             ++ calloc (heap_top m)
             :: connect_acts (ESP_GATTS_CONNECT_EVT p) (S (heap_top m)) (s_svcs m))
            ++ [conns_insert_head (heap_top m)]) /\
    s_svcs m' = s_svcs m /\
    s_conns m' =
      {| ce_addr := heap_top m; bc := connect_conn gif p;
         sessions := rev (new_sessions (heap_top m) (S (heap_top m)) (s_svcs m)) |}
      :: s_conns m /\
    s_gatts_registered m' = s_gatts_registered m /\
    s_gatts_if m' = s_gatts_if m /\
    heap_top m' = (S (heap_top m) + length (s_svcs m))%nat /\
    world m' = connect_world (ESP_GATTS_CONNECT_EVT p) (connect_conn gif p)
                 (S (heap_top m)) (s_svcs m) (world m).
Proof.
  intros m gif p H.
  destruct (connect_sessions_run (ESP_GATTS_CONNECT_EVT p) (heap_top m)
              (connect_conn gif p) (s_svcs m) [] (bump_heap m))
    as (m2 & Hrun & (S1 & S2 & S3 & S4) & Htop & Hwd).
  simpl in Hrun, Htop, Hwd, S1, S2, S3, S4. rewrite app_nil_r in Hrun.
  exists (set_conns
            ({| ce_addr := heap_top m; bc := connect_conn gif p;
                sessions := rev (new_sessions (heap_top m) (S (heap_top m)) (s_svcs m)) |}
             :: s_conns m2) m2).
  split; [|cbn [set_conns s_svcs s_conns s_gatts_registered s_gatts_if heap_top world];
            rewrite S2; repeat split; assumption].
  unfold esp32_bt_gatts_ev. rewrite H. cbn [negb].
  unfold bind at 1. unfold emit at 1.
  unfold bind at 1. rewrite restart_advertising_run.
  unfold bind at 1. unfold alloc at 1.
  unfold bind at 1. unfold get at 1.
  unfold bind at 1. cbn [s_svcs bump_heap]. fold (connect_conn gif p).
  rewrite Hrun.
  unfold bind, emit, modify. simpl.
  repeat rewrite <- app_assoc. reflexivity.
Qed.

Lemma disconnect_run : forall m gif p ce,
  find_connection (s_conns m) gif (dc_conn_id p) = Some ce ->
  Forall (fun sse => In (se sse) (map se_addr (s_svcs m))) (sessions ce) ->
  exists m',
    esp32_bt_gatts_ev (ESP_GATTS_DISCONNECT_EVT p) gif m =
      Some (tt, m',
            (disconnect_acts (ESP_GATTS_DISCONNECT_EVT p) (sessions ce)
             ++ [conns_remove (ce_addr ce); free (ce_addr ce)])
            ++ (if adv_enable (world m') then [esp_ble_gap_start_advertising] else [])) /\
    s_svcs m' = s_svcs m /\
    s_conns m' = remove_first (conn_match gif (dc_conn_id p)) (s_conns m) /\
    s_gatts_registered m' = s_gatts_registered m /\
    s_gatts_if m' = s_gatts_if m /\
    heap_top m' = heap_top m.
Proof.
  intros m gif p ce Hf Hv.
  destruct (disconnect_sessions_run (ESP_GATTS_DISCONNECT_EVT p) ce _ m Hv)
    as (m2 & Hrun & (S1 & S2 & S3 & S4) & Htop).
  exists (set_conns (remove_first (conn_match gif (dc_conn_id p)) (s_conns m2)) m2).
  split; [|simpl; rewrite S2; auto].
  unfold esp32_bt_gatts_ev.
  unfold bind at 1. unfold get at 1. rewrite Hf.
  unfold bind at 1. unfold bind at 1. rewrite Hrun.
  unfold bind at 1. unfold emit at 1.
  unfold bind at 1. unfold modify at 1. unfold emit at 1.
  rewrite restart_advertising_run. simpl.
  repeat rewrite <- app_assoc. reflexivity.
Qed.

Lemma creat_attr_tab_run : forall m gif p s svch rest,
  tab_status p = 0 ->
  find_service_by_uuid (s_svcs m) (tab_svc_uuid p) = Some s ->
  num_attrs s = length (tab_handles p) ->
  tab_handles p = svch :: rest ->
  exists m',
    esp32_bt_gatts_ev (ESP_GATTS_CREAT_ATTR_TAB_EVT p) gif m =
      Some (tt, m',
            [calloc (heap_top m);
             cb_call (se_addr s) None (ESP_GATTS_CREAT_ATTR_TAB_EVT p);
             esp_ble_gatts_start_service svch]) /\
    s_svcs m' = update_first (fun x => uuid_match x (tab_svc_uuid p))
                  (set_attr_handles (tab_handles p)) (s_svcs m) /\
    s_conns m' = s_conns m /\
    s_gatts_registered m' = s_gatts_registered m /\
    s_gatts_if m' = s_gatts_if m /\
    heap_top m' = S (heap_top m).
Proof.
  intros m gif p s svch rest Hst Hf Hn Hh.
  eexists. split.
  - unfold esp32_bt_gatts_ev. rewrite Hst. cbn [Z.eqb negb].
    unfold bind at 1. unfold get at 1. rewrite Hf.
    unfold tab_num_handle. rewrite Hn, Nat.eqb_refl. cbn [negb].
    unfold bind at 1. unfold alloc at 1.
    unfold bind at 1. unfold modify at 1.
    unfold bind at 1. rewrite call_cb_run. rewrite Hh. unfold emit.
    cbn [option_map app]. reflexivity.
  - simpl. rewrite Hh. auto.
Qed.

Lemma creat_attr_tab_ignored : forall m gif p,
  tab_status p <> 0 \/
  find_service_by_uuid (s_svcs m) (tab_svc_uuid p) = None \/
  (exists s, find_service_by_uuid (s_svcs m) (tab_svc_uuid p) = Some s /\
             num_attrs s <> length (tab_handles p)) ->
  esp32_bt_gatts_ev (ESP_GATTS_CREAT_ATTR_TAB_EVT p) gif m = Some (tt, m, []).
Proof.
  intros m gif p H. unfold esp32_bt_gatts_ev.
  destruct (tab_status p =? 0) eqn:E; [|reflexivity].
  apply Z.eqb_eq in E.
  cbn [negb]. unfold bind at 1. unfold get at 1.
  destruct H as [H|[H|(s & H & Hn)]]; [contradiction| |];
    rewrite H; [reflexivity|].
  unfold tab_num_handle. apply Nat.eqb_neq in Hn. now rewrite Hn.
Qed.

(** ** What holds along every run *)

Lemma conn_ok_mono : forall sa sa' top top' ce,
  incl sa sa' -> (top <= top')%nat -> conn_ok sa top ce -> conn_ok sa' top' ce.
Proof.
  intros sa sa' top top' ce Hi Ht (H1 & H2 & H3 & H4).
  repeat split; try assumption; [lia|].
  eapply Forall_impl; [|exact H2].
  intros sse (A & B & C & D). repeat split; [assumption|auto|lia|assumption].
Qed.

Lemma wf_frame : forall m m',
  wf m -> map se_addr (s_svcs m') = map se_addr (s_svcs m) ->
  s_conns m' = s_conns m -> (heap_top m <= heap_top m')%nat -> wf m'.
Proof.
  intros m m' [H1 H2 H3 H4] Hs Hc Ht. constructor; rewrite ?Hs, ?Hc; try assumption.
  - eapply Forall_impl; [|exact H2]. simpl. intros; lia.
  - eapply Forall_impl; [|exact H4]. intros ce. apply conn_ok_mono; [apply incl_refl|exact Ht].
Qed.

Lemma inv_frame : forall m m',
  inv m -> s_svcs m' = s_svcs m -> s_conns m' = s_conns m ->
  s_gatts_registered m' = s_gatts_registered m ->
  (heap_top m <= heap_top m')%nat -> inv m'.
Proof.
  intros m m' (Hw & Hh & Hf) Hs Hc Hr Ht. split; [|split].
  - eapply wf_frame; eauto. now rewrite Hs.
  - now rewrite Hs.
  - unfold flags_ok in *. now rewrite Hr, Hs.
Qed.

Lemma route_sessions_frame : forall ev ce found l r m r' m' acts,
  route_sessions ev ce found l r m = Some (r', m', acts) ->
  same_lists m m' /\ heap_top m' = heap_top m.
Proof.
  intros ev ce found l. induction l as [|sse l IH]; intros r m r' m' acts H.
  - inversion H; subst. split; [apply same_lists_refl|reflexivity].
  - cbn [route_sessions] in H. destruct found as [s|]; [|eauto].
    destruct (Nat.eqb (se sse) (se_addr s)); [|eauto].
    apply bind_inv in H. destruct H as (a & m1 & l1 & l2 & Hc & Hk & _).
    rewrite call_cb_run in Hc. inversion Hc; subst.
    destruct (IH _ _ _ _ _ Hk) as (Hs & Ht). split; [|exact Ht].
    eapply same_lists_trans; [|exact Hs]. now unfold same_lists.
Qed.

Lemma route_access_frame : forall ev gif cid h m r m' acts,
  route_access ev gif cid h m = Some (r, m', acts) ->
  same_lists m m' /\ heap_top m' = heap_top m.
Proof.
  intros ev gif cid h m r m' acts H. unfold route_access in H.
  unfold bind at 1 in H. unfold get at 1 in H.
  destruct (find_connection (s_conns m) gif cid) as [ce|].
  - destruct (find_service_by_attr_handle (s_svcs m) h) as [found|];
      [|discriminate].
    destruct (route_sessions ev ce found (sessions ce) false m)
      as [[[r0 m0] l0]|] eqn:E; [|discriminate].
    inversion H; subst. eapply route_sessions_frame; eauto.
  - inversion H; subst. split; [apply same_lists_refl|reflexivity].
Qed.

Lemma read_evt_frame : forall p gif m m' acts,
  esp32_bt_gatts_ev (ESP_GATTS_READ_EVT p) gif m = Some (tt, m', acts) ->
  same_lists m m' /\ heap_top m' = heap_top m.
Proof.
  intros p gif m m' acts H. unfold esp32_bt_gatts_ev in H.
  destruct (negb (rd_need_rsp p)).
  - inversion H; subst. split; [apply same_lists_refl|reflexivity].
  - apply bind_inv in H. destruct H as (r & m1 & l1 & l2 & Hc & Hk & _).
    apply route_access_frame in Hc.
    destruct (negb r); inversion Hk; subst; exact Hc.
Qed.

Lemma write_evt_frame : forall p gif m m' acts,
  esp32_bt_gatts_ev (ESP_GATTS_WRITE_EVT p) gif m = Some (tt, m', acts) ->
  same_lists m m' /\ heap_top m' = heap_top m.
Proof.
  intros p gif m m' acts H. unfold esp32_bt_gatts_ev in H.
  destruct (negb (wr_need_rsp p)).
  - inversion H; subst. split; [apply same_lists_refl|reflexivity].
  - apply bind_inv in H. destruct H as (r & m1 & l1 & l2 & Hc & Hk & _).
    apply route_access_frame in Hc.
    inversion Hk; subst; exact Hc.
Qed.

Lemma handles_ok_set_registered : forall x,
  handles_ok x -> handles_ok (set_registered x).
Proof. intros x H. exact H. Qed.

(** [esp32_bt_register_services] keeps the nodes and their tables; once the
    application is registered it leaves every entry marked. *)
Lemma register_services_inv : forall m m' acts,
  wf m -> Forall handles_ok (s_svcs m) ->
  (s_gatts_registered m = false ->
   Forall (fun s => registered s = false /\ attr_handles s = None) (s_svcs m)) ->
  esp32_bt_register_services m = Some (tt, m', acts) -> inv m'.
Proof.
  intros m m' acts Hw Hh Hf H. unfold esp32_bt_register_services in H.
  destruct (s_gatts_registered m) eqn:E; cbn [negb] in H.
  - pose proof (register_pending_addrs (s_gatts_if m) (s_svcs m)) as Ha.
    pose proof (register_pending_registered (s_gatts_if m) (s_svcs m)) as Hr.
    pose proof (register_pending_Forall handles_ok (s_gatts_if m) (s_svcs m)
                  handles_ok_set_registered Hh) as Hk.
    destruct (register_pending (s_gatts_if m) (s_svcs m)) as [svcs l].
    simpl in Ha, Hr, Hk. inversion H; subst. split; [|split].
    + eapply wf_frame; eauto.
    + exact Hk.
    + unfold flags_ok. simpl. now rewrite E.
  - inversion H; subst. split; [assumption|split; [assumption|]].
    unfold flags_ok. rewrite E. auto.
Qed.

Lemma new_sessions_addrs : forall ce_a a svcs,
  map (@sse_addr) (new_sessions ce_a a svcs) = seq a (length svcs).
Proof.
  intros ce_a a svcs. revert a.
  induction svcs as [|s l IH]; intros a; simpl; [reflexivity|].
  now rewrite IH.
Qed.

Lemma new_sessions_services : forall ce_a a svcs,
  map (@se) (new_sessions ce_a a svcs) = map se_addr svcs.
Proof.
  intros ce_a a svcs. revert a.
  induction svcs as [|s l IH]; intros a; simpl; [reflexivity|].
  now rewrite IH.
Qed.

Lemma new_sessions_back : forall ce_a a svcs sse,
  In sse (new_sessions ce_a a svcs) -> bs_bc sse = ce_a.
Proof.
  intros ce_a a svcs. revert a.
  induction svcs as [|s l IH]; intros a sse; simpl; [contradiction|].
  intros [H|H]; [now subst|eauto].
Qed.

(** The connection entry CONNECT builds is in order. *)
Lemma new_conn_ok : forall m gif p,
  wf m ->
  conn_ok (map se_addr (s_svcs m)) (S (heap_top m) + length (s_svcs m))%nat
    {| ce_addr := heap_top m; bc := connect_conn gif p;
       sessions := rev (new_sessions (heap_top m) (S (heap_top m)) (s_svcs m)) |}.
Proof.
  intros m gif p Hw. unfold conn_ok. cbn [ce_addr sessions].
  split; [lia|split; [|split]].
  - apply Forall_forall. intros sse Hin. apply in_rev in Hin.
    assert (In (sse_addr sse) (seq (S (heap_top m)) (length (s_svcs m)))) as Hs.
    { rewrite <- (new_sessions_addrs (heap_top m)). now apply in_map. }
    apply in_seq in Hs.
    unfold session_ok. cbn [ce_addr]. split; [|split; [|split]].
    + eapply new_sessions_back; eauto.
    + rewrite <- (new_sessions_services (heap_top m) (S (heap_top m))).
      now apply in_map.
    + lia.
    + lia.
  - rewrite map_rev, new_sessions_addrs. apply NoDup_rev, seq_NoDup.
  - rewrite map_rev, new_sessions_services. apply NoDup_rev, Hw.
Qed.

Lemma register_service_inv : forall d n h mem m b m' acts,
  inv m -> mgos_bt_gatts_register_service d n h mem m = Some (b, m', acts) -> inv m'.
Proof.
  intros d n h mem m b m' acts (Hw & Hh & Hf) H.
  destruct h as [f|]; [destruct mem|]; simpl in H;
    [|inversion H; subst; split; [|split]; assumption
     |inversion H; subst; split; [|split]; assumption].
  unfold bind at 1 in H. unfold alloc at 1 in H.
  unfold bind at 1 in H. unfold modify at 1 in H.
  unfold bind at 1 in H.
  match type of H with
  | context [esp32_bt_register_services ?x] => set (m1 := x) in H
  end.
  destruct (esp32_bt_register_services m1) as [[[u m2] l2]|] eqn:E;
    [|discriminate].
  destruct u. simpl in H. inversion H; subst m2.
  destruct Hw as [W1 W2 W3 W4].
  eapply register_services_inv; [| | |exact E].
  - constructor; simpl.
    + constructor; [|exact W1].
      intros Hin. rewrite Forall_forall in W2. apply W2 in Hin. lia.
    + constructor; [lia|]. eapply Forall_impl; [|exact W2]. simpl. intros; lia.
    + exact W3.
    + eapply Forall_impl; [|exact W4]. intros ce.
      apply conn_ok_mono; [apply incl_tl, incl_refl|lia].
  - simpl. constructor; [now left|exact Hh].
  - simpl. intros Hr. unfold flags_ok in Hf. rewrite Hr in Hf.
    constructor; [now split|exact Hf].
Qed.

Lemma reg_evt_inv : forall st app gif m m' acts,
  inv m ->
  esp32_bt_gatts_ev (ESP_GATTS_REG_EVT st app) gif m = Some (tt, m', acts) ->
  inv m'.
Proof.
  intros st app gif m m' acts (Hw & Hh & Hf) H. unfold esp32_bt_gatts_ev in H.
  unfold bind at 1 in H. unfold emit at 1 in H.
  unfold bind at 1 in H. unfold emit at 1 in H.
  unfold bind at 1 in H. unfold modify at 1 in H.
  destruct (esp32_bt_register_services (set_gatts_registered gif m))
    as [[[u m2] l2]|] eqn:E; [|discriminate].
  destruct u. inversion H; subst m2.
  eapply register_services_inv; [| | |exact E].
  - eapply wf_frame; eauto.
  - exact Hh.
  - simpl. discriminate.
Qed.

Lemma conn_ok_set_mtu : forall sa top v ce,
  conn_ok sa top ce -> conn_ok sa top (set_mtu v ce).
Proof. intros sa top v ce H. exact H. Qed.

Lemma mtu_evt_inv : forall p gif m m' acts,
  inv m ->
  esp32_bt_gatts_ev (ESP_GATTS_MTU_EVT p) gif m = Some (tt, m', acts) -> inv m'.
Proof.
  intros p gif m m' acts (Hw & Hh & Hf) H. unfold esp32_bt_gatts_ev, modify in H.
  inversion H; subst. destruct Hw as [W1 W2 W3 W4].
  split; [|split; [exact Hh|exact Hf]].
  constructor; simpl; try assumption.
  - rewrite update_first_map; [exact W3|reflexivity].
  - apply update_first_Forall; [|exact W4]. intros x. apply conn_ok_set_mtu.
Qed.

Lemma connect_evt_inv : forall p gif m m' acts,
  inv m ->
  esp32_bt_gatts_ev (ESP_GATTS_CONNECT_EVT p) gif m = Some (tt, m', acts) ->
  inv m'.
Proof.
  intros p gif m m' acts Hi H.
  destruct (cn_is_connected p) eqn:E.
  - destruct (connect_run m gif p E) as (m2 & Hrun & S1 & S2 & S3 & S4 & S5 & _).
    rewrite Hrun in H. inversion H; subst m2.
    destruct Hi as (Hw & Hh & Hf). split; [|split].
    + pose proof (new_conn_ok m gif p Hw) as Hn.
      destruct Hw as [W1 W2 W3 W4]. constructor; rewrite ?S1, ?S2, ?S5.
      * exact W1.
      * eapply Forall_impl; [|exact W2]. simpl. intros; lia.
      * simpl. constructor; [|exact W3]. intros Hin.
        apply in_map_iff in Hin. destruct Hin as (ce & Ha & Hin).
        rewrite Forall_forall in W4. destruct (W4 ce Hin) as (Hlt & _). lia.
      * constructor; [exact Hn|].
        eapply Forall_impl; [|exact W4]. intros ce.
        apply conn_ok_mono; [apply incl_refl|lia].
    + now rewrite S1.
    + unfold flags_ok. now rewrite S3, S1.
  - unfold esp32_bt_gatts_ev in H. rewrite E in H.
    inversion H; subst. exact Hi.
Qed.

Lemma wf_sessions_valid : forall m ce,
  wf m -> In ce (s_conns m) ->
  Forall (fun sse => In (se sse) (map se_addr (s_svcs m))) (sessions ce).
Proof.
  intros m ce [W1 W2 W3 W4] Hin. rewrite Forall_forall in W4.
  destruct (W4 ce Hin) as (_ & Hs & _).
  eapply Forall_impl; [|exact Hs]. intros sse (_ & H & _). exact H.
Qed.

Lemma disconnect_evt_inv : forall p gif m m' acts,
  inv m ->
  esp32_bt_gatts_ev (ESP_GATTS_DISCONNECT_EVT p) gif m = Some (tt, m', acts) ->
  inv m'.
Proof.
  intros p gif m m' acts Hi H.
  destruct (find_connection (s_conns m) gif (dc_conn_id p)) as [ce|] eqn:E.
  - assert (In ce (s_conns m)) as Hin by (apply find_some in E; tauto).
    destruct Hi as (Hw & Hh & Hf).
    destruct (disconnect_run m gif p ce E (wf_sessions_valid m ce Hw Hin))
      as (m2 & Hrun & S1 & S2 & S3 & S4 & S5).
    rewrite Hrun in H. inversion H; subst m2.
    destruct Hw as [W1 W2 W3 W4]. split; [|split].
    + constructor; rewrite ?S1, ?S2, ?S5; try assumption.
      * now apply remove_first_nodup.
      * now apply remove_first_Forall.
    + now rewrite S1.
    + unfold flags_ok. now rewrite S3, S1.
  - rewrite (disconnect_miss_run m gif p E) in H.
    inversion H; subst. exact Hi.
Qed.

Lemma creat_attr_tab_evt_inv : forall p gif m m' acts,
  inv m -> s_gatts_registered m = true ->
  esp32_bt_gatts_ev (ESP_GATTS_CREAT_ATTR_TAB_EVT p) gif m = Some (tt, m', acts) ->
  inv m'.
Proof.
  intros p gif m m' acts Hi Hreg H.
  destruct (Z.eq_dec (tab_status p) 0) as [Hst|Hst];
    [|rewrite creat_attr_tab_ignored in H by auto; inversion H; subst; exact Hi].
  destruct (find_service_by_uuid (s_svcs m) (tab_svc_uuid p)) as [s|] eqn:Ef;
    [|rewrite creat_attr_tab_ignored in H by auto; inversion H; subst; exact Hi].
  destruct (Nat.eq_dec (num_attrs s) (length (tab_handles p))) as [Hn|Hn];
    [|rewrite creat_attr_tab_ignored in H by eauto; inversion H; subst; exact Hi].
  destruct (tab_handles p) as [|svch rest] eqn:Eh.
  - exfalso. unfold esp32_bt_gatts_ev in H. rewrite Hst in H. cbn [Z.eqb negb] in H.
    unfold bind at 1 in H. unfold get at 1 in H. rewrite Ef in H.
    unfold tab_num_handle in H. rewrite Eh in H. simpl length in H.
    rewrite Hn, Nat.eqb_refl in H. cbn [negb] in H.
    unfold bind at 1 in H. unfold alloc at 1 in H.
    unfold bind at 1 in H. unfold modify at 1 in H.
    unfold bind at 1 in H. rewrite call_cb_run in H. discriminate.
  - rewrite <- Eh in Hn.
    destruct (creat_attr_tab_run m gif p s svch rest Hst Ef Hn Eh)
      as (m2 & Hrun & S1 & S2 & S3 & S4 & S5).
    rewrite Hrun in H. inversion H; subst m2.
    destruct Hi as (Hw & Hh & Hf).
    assert (map se_addr (s_svcs m') = map se_addr (s_svcs m)) as Ha.
    { rewrite S1. apply update_first_map. reflexivity. }
    split; [|split].
    + eapply wf_frame; eauto. lia.
    + rewrite S1.
      destruct (update_first_split _ (fun x => uuid_match x (tab_svc_uuid p))
                  (set_attr_handles (tab_handles p)) (s_svcs m) s Ef)
        as (l1 & l2 & Hl & _ & Hu).
      rewrite Hu. rewrite Hl in Hh. apply Forall_app in Hh.
      destruct Hh as (Hk1 & Hk2). inversion Hk2; subst.
      apply Forall_app. split; [assumption|]. constructor; [|assumption].
      right. exists (tab_handles p). simpl. auto.
    + unfold flags_ok in *. rewrite S3, Hreg in *. rewrite S1.
      apply update_first_Forall; [|exact Hf]. intros x Hx. exact Hx.
Qed.

Lemma step_inv : forall i m m' acts,
  inv m -> stack_may_deliver m i = true ->
  step i m = Some (tt, m', acts) -> inv m'.
Proof.
  intros i m m' acts Hi Hp H. destruct i as [d n h mem|ev gif|ev|w]; simpl in H.
  - apply bind_inv in H. destruct H as (b & m1 & l1 & l2 & Hc & Hk & _).
    inversion Hk; subst. eapply register_service_inv; eauto.
  - destruct ev;
      try (inversion H; subst; exact Hi).
    + eapply reg_evt_inv; eauto.
    + destruct (read_evt_frame _ _ _ _ _ H) as ((S1 & S2 & S3 & S4) & S5).
      eapply inv_frame; eauto. lia.
    + destruct (write_evt_frame _ _ _ _ _ H) as ((S1 & S2 & S3 & S4) & S5).
      eapply inv_frame; eauto. lia.
    + eapply mtu_evt_inv; eauto.
    + eapply connect_evt_inv; eauto.
    + eapply disconnect_evt_inv; eauto.
    + eapply creat_attr_tab_evt_inv; eauto.
  - destruct ev; inversion H; subst; exact Hi.
  - inversion H; subst. eapply inv_frame; eauto.
Qed.

Lemma init_inv : forall w, inv (init w).
Proof.
  intros w. split; [|split].
  - constructor; simpl; constructor.
  - constructor.
  - constructor.
Qed.

Lemma reachable_inv : forall m, reachable m -> inv m.
Proof.
  intros m H. induction H as [w|m i m' acts Hr IH Hp Hs].
  - apply init_inv.
  - eapply step_inv; eauto.
Qed.

Lemma reachable_wf : forall m, reachable m -> wf m.
Proof. intros m H. now destruct (reachable_inv m H). Qed.

Lemma run_reachable : forall l m m',
  reachable m -> run l m = Some m' -> reachable m'.
Proof.
  induction l as [|i l IH]; simpl; intros m m' Hr H.
  - inversion H; subst. exact Hr.
  - destruct (stack_may_deliver m i) eqn:Ep; [|discriminate].
    destruct (step i m) as [[[u m1] acts]|] eqn:Es; [|discriminate].
    destruct u. eapply IH; [|exact H]. eapply reachable_step; eauto.
Qed.

(** ** Counting *)

Lemma count_acts_app : forall p l1 l2,
  count_acts p (l1 ++ l2) = (count_acts p l1 + count_acts p l2)%nat.
Proof.
  intros p l1 l2. unfold count_acts. now rewrite filter_app, length_app.
Qed.

Lemma filter_none : forall A (f : A -> bool) l,
  (forall x, In x l -> f x = false) -> filter f l = [].
Proof.
  intros A f l. induction l as [|x l IH]; simpl; intros H; [reflexivity|].
  rewrite (H x) by auto. apply IH. auto.
Qed.










(** ** Connect *)


(** ** Disconnect *)



Lemma disconnect_acts_cb_calls : forall ev l,
  count_acts is_cb_call (disconnect_acts ev l) = length l.
Proof.
  intros ev l. unfold count_acts. induction l as [|x l IH]; simpl; [reflexivity|].
  now rewrite IH.
Qed.

Lemma disconnect_acts_no_adv : forall ev l,
  count_acts is_start_advertising (disconnect_acts ev l) = 0%nat.
Proof.
  intros ev l. unfold count_acts. induction l as [|x l IH]; simpl; auto.
Qed.



(** ** The attribute table of a service *)

(** C6, as the code has it.  A table-created event is dropped, the
    machine unchanged and
    nothing logged (so no service is started and no service entry is
    touched), when its status is not 0, or no entry of [s_svcs] matches its
    uuid, or the first matching entry has an attribute count other than the
    number of handles.  Otherwise, with [s] the first entry whose
    declaration matches the uuid and [svch] the first handle of the event,
    the dispatcher allocates the handle table, calls the handler of [s] with
    the event and no session, and issues exactly one start-service call, for
    [svch]; [s] then holds the handles of the event, whose first is [svch],
    and the entries before and after [s] are as they were. *)
Theorem creat_attr_tab_dispatch : forall m gif p,
  ((tab_status p <> 0 \/
    find_service_by_uuid (s_svcs m) (tab_svc_uuid p) = None \/
    (exists s, find_service_by_uuid (s_svcs m) (tab_svc_uuid p) = Some s /\
               num_attrs s <> length (tab_handles p))) ->
   esp32_bt_gatts_ev (ESP_GATTS_CREAT_ATTR_TAB_EVT p) gif m = Some (tt, m, [])) /\
  (forall s svch rest,
     tab_status p = 0 ->
     find_service_by_uuid (s_svcs m) (tab_svc_uuid p) = Some s ->
     num_attrs s = length (tab_handles p) ->
     tab_handles p = svch :: rest ->
     exists m' l1 l2,
       esp32_bt_gatts_ev (ESP_GATTS_CREAT_ATTR_TAB_EVT p) gif m =
         Some (tt, m',
               [calloc (heap_top m);
                cb_call (se_addr s) None (ESP_GATTS_CREAT_ATTR_TAB_EVT p);
                esp_ble_gatts_start_service svch]) /\
       s_svcs m = l1 ++ s :: l2 /\
       find_service_by_uuid l1 (tab_svc_uuid p) = None /\
       s_svcs m' = l1 ++ set_attr_handles (tab_handles p) s :: l2 /\
       hd_error (handle_table (set_attr_handles (tab_handles p) s)) = Some svch /\
       s_conns m' = s_conns m).
Proof.
  intros m gif p. split; [apply creat_attr_tab_ignored|].
  intros s svch rest Hst Hf Hn Hh.
  destruct (creat_attr_tab_run m gif p s svch rest Hst Hf Hn Hh)
    as (m' & Hrun & S1 & S2 & _).
  destruct (update_first_split _ (fun x => uuid_match x (tab_svc_uuid p))
              (set_attr_handles (tab_handles p)) (s_svcs m) s Hf)
    as (l1 & l2 & Hl & Hnone & Hu).
  exists m', l1, l2. repeat split; try assumption.
  - now rewrite S1.
  - simpl. now rewrite Hh.
Qed.

Lemma set_attr_handles_same : forall hs s,
  attr_handles s = Some hs -> set_attr_handles hs s = s.
Proof.
  intros hs s H. destruct s. simpl in H. subst. reflexivity.
Qed.

(** C7, as the code has it.  When a table-created event with status 0
    arrives for a service that already has its handle table (the first
    entry matching the uuid, with as many attributes as the event has
    handles), the handle list of that service is overwritten with the
    handles of the event: it keeps its length, nothing is appended, and with
    the same handles the service list is left as it is.  The event is
    applied once more all the same, there is no guard: a new table is
    allocated, the handler is called again with the table-ready event and
    another start-service call is issued. *)
Theorem creat_attr_tab_replay : forall m gif p s svch rest hs0,
  tab_status p = 0 ->
  find_service_by_uuid (s_svcs m) (tab_svc_uuid p) = Some s ->
  num_attrs s = length (tab_handles p) ->
  tab_handles p = svch :: rest ->
  attr_handles s = Some hs0 -> length hs0 = num_attrs s ->
  exists m' l1 l2,
    esp32_bt_gatts_ev (ESP_GATTS_CREAT_ATTR_TAB_EVT p) gif m =
      Some (tt, m',
            [calloc (heap_top m);
             cb_call (se_addr s) None (ESP_GATTS_CREAT_ATTR_TAB_EVT p);
             esp_ble_gatts_start_service svch]) /\
    s_svcs m = l1 ++ s :: l2 /\
    s_svcs m' = l1 ++ set_attr_handles (tab_handles p) s :: l2 /\
    length (handle_table (set_attr_handles (tab_handles p) s))
      = length (handle_table s) /\
    (tab_handles p = hs0 -> s_svcs m' = s_svcs m) /\
    s_conns m' = s_conns m.
Proof.
  intros m gif p s svch rest hs0 Hst Hf Hn Hh Ha Hl.
  destruct (creat_attr_tab_run m gif p s svch rest Hst Hf Hn Hh)
    as (m' & Hrun & S1 & S2 & _).
  destruct (update_first_split _ (fun x => uuid_match x (tab_svc_uuid p))
              (set_attr_handles (tab_handles p)) (s_svcs m) s Hf)
    as (l1 & l2 & Hs & _ & Hu).
  exists m', l1, l2.
  split; [exact Hrun|]. split; [exact Hs|]. split; [now rewrite S1|].
  split; [|split; [|exact S2]].
  - unfold handle_table. simpl. rewrite Ha. congruence.
  - intros He. rewrite S1, Hu, Hs, He.
    now rewrite (set_attr_handles_same hs0 s Ha).
Qed.

(** C8, as the code has it.  In every reachable machine the handle table of
    a service entry is either absent or has as many handles as the service
    has attributes, and an entry that is not marked [registered] has no
    table.  (An entry marked [registered] may have none: the mark is set
    when the table is requested.) *)
Theorem service_handles_invariant : forall m s,
  reachable m -> In s (s_svcs m) ->
  (attr_handles s = None \/
   exists hs, attr_handles s = Some hs /\ length hs = num_attrs s) /\
  (registered s = false -> attr_handles s = None).
Proof.
  intros m s Hr Hin.
  destruct (reachable_inv m Hr) as (_ & Hh & Hf).
  rewrite Forall_forall in Hh. split; [exact (Hh s Hin)|].
  intros Hreg. unfold flags_ok in Hf.
  destruct (s_gatts_registered m); rewrite Forall_forall in Hf.
  - rewrite (Hf s Hin) in Hreg. discriminate.
  - now destruct (Hf s Hin).
Qed.

(** ** Advertising *)

(** C9, as the code has it.  A disconnect event on a well-formed machine
    runs to the end and issues one advertising start when the enable flag,
    read from the world as the handlers have left it, is set, and none when
    it is clear.  An advertising-stop event of the GAP callback does
    nothing: no advertising start is issued, whatever the flag. *)
Theorem advertising_restart : forall m gif p,
  wf m ->
  (exists m' acts,
     esp32_bt_gatts_ev (ESP_GATTS_DISCONNECT_EVT p) gif m = Some (tt, m', acts) /\
     count_acts is_start_advertising acts =
       (if adv_enable (world m') then 1%nat else 0%nat)) /\
  esp32_bt_gap_ev ESP_GAP_BLE_ADV_STOP_COMPLETE_EVT m = Some (tt, m, []).
Proof.
  intros m gif p Hw. split; [|reflexivity].
  destruct (find_connection (s_conns m) gif (dc_conn_id p)) as [ce|] eqn:E.
  - assert (In ce (s_conns m)) as Hin by (apply find_some in E; tauto).
    destruct (disconnect_run m gif p ce E (wf_sessions_valid m ce Hw Hin))
      as (m' & Hrun & _).
    eexists m', _. split; [exact Hrun|].
    rewrite !count_acts_app, disconnect_acts_no_adv.
    now destruct (adv_enable (world m')).
  - eexists m, _. split; [exact (disconnect_miss_run m gif p E)|].
    now destruct (adv_enable (world m)).
Qed.

(** ** Read and write, once every handle table is in place *)

Lemma route_access_resolved : forall ev gif cid h m,
  wf m -> Forall resolved (s_svcs m) ->
  route_access ev gif cid h m =
  match access_target m gif cid h with
  | Some (ce, s, sse) => call_cb s (Some (sse_addr sse, bc ce)) ev m
  | None => Some (false, m, [])
  end.
Proof.
  intros ev gif cid h m Hw Hr. unfold route_access, access_target.
  unfold bind at 1. unfold get at 1.
  destruct (find_connection (s_conns m) gif cid) as [ce|] eqn:Ec; [|reflexivity].
  destruct (find_service_by_attr_handle_total (s_svcs m) h Hr) as (found & Ef).
  rewrite Ef. destruct found as [s|];
    [|now rewrite route_sessions_null].
  assert (In ce (s_conns m)) as Hin by (apply find_some in Ec; tauto).
  destruct Hw as [_ _ _ W4]. rewrite Forall_forall in W4.
  destruct (W4 ce Hin) as (_ & _ & _ & Hnd).
  unfold bound_session.
  destruct (find (fun sse => Nat.eqb (se sse) (se_addr s)) (sessions ce))
    as [sse|] eqn:Eb.
  - apply find_some in Eb. destruct Eb as (Hs & He). apply Nat.eqb_eq in He.
    rewrite (route_sessions_hit ev ce s (sessions ce) false m sse Hnd Hs He).
    now rewrite call_cb_run.
  - rewrite route_sessions_miss; [reflexivity|].
    intros Hi. apply in_map_iff in Hi. destruct Hi as (sse & He & Hs).
    pose proof (find_none _ _ Eb sse Hs) as Hn. simpl in Hn.
    rewrite He, Nat.eqb_refl in Hn. discriminate.
Qed.

(** On a well-formed machine whose services all have their handle table, a
    read that needs a response is routed to the one session bound to the
    connection and to the service owning the handle; the dispatcher answers
    "read not permitted" itself exactly when that handler returns [false] or
    there is no such session, and in the latter case calls no handler. *)
Lemma read_evt_routed : forall m gif p,
  wf m -> Forall resolved (s_svcs m) -> rd_need_rsp p = true ->
  esp32_bt_gatts_ev (ESP_GATTS_READ_EVT p) gif m =
  match access_target m gif (rd_conn_id p) (rd_handle p) with
  | Some (ce, s, sse) =>
      let r := cb s (world m) (Some (sse_addr sse, bc ce)) (ESP_GATTS_READ_EVT p) in
      Some (tt, set_world (snd r) m,
            cb_call (se_addr s) (Some (sse_addr sse)) (ESP_GATTS_READ_EVT p)
            :: (if fst r then []
                else [esp_ble_gatts_send_response gif (rd_conn_id p)
                        (rd_trans_id p) ESP_GATT_READ_NOT_PERMIT]))
  | None =>
      Some (tt, m,
            [esp_ble_gatts_send_response gif (rd_conn_id p) (rd_trans_id p)
               ESP_GATT_READ_NOT_PERMIT])
  end.
Proof.
  intros m gif p Hw Hr Hn. unfold esp32_bt_gatts_ev. rewrite Hn. cbn [negb].
  unfold bind. rewrite route_access_resolved by assumption.
  destruct (access_target m gif (rd_conn_id p) (rd_handle p)) as [[[ce s] sse]|];
    [|reflexivity].
  rewrite call_cb_run. cbv zeta.
  now destruct (fst (cb s (world m) (Some (sse_addr sse, bc ce)) (ESP_GATTS_READ_EVT p))).
Qed.

(** The same for a write: one reply in every case, "ok" exactly when the
    handler of the bound session was called and returned [true]. *)
Lemma write_evt_routed : forall m gif p,
  wf m -> Forall resolved (s_svcs m) -> wr_need_rsp p = true ->
  esp32_bt_gatts_ev (ESP_GATTS_WRITE_EVT p) gif m =
  match access_target m gif (wr_conn_id p) (wr_handle p) with
  | Some (ce, s, sse) =>
      let r := cb s (world m) (Some (sse_addr sse, bc ce)) (ESP_GATTS_WRITE_EVT p) in
      Some (tt, set_world (snd r) m,
            [cb_call (se_addr s) (Some (sse_addr sse)) (ESP_GATTS_WRITE_EVT p);
             esp_ble_gatts_send_response gif (wr_conn_id p) (wr_trans_id p)
               (if fst r then ESP_GATT_OK else ESP_GATT_WRITE_NOT_PERMIT)])
  | None =>
      Some (tt, m,
            [esp_ble_gatts_send_response gif (wr_conn_id p) (wr_trans_id p)
               ESP_GATT_WRITE_NOT_PERMIT])
  end.
Proof.
  intros m gif p Hw Hr Hn. unfold esp32_bt_gatts_ev. rewrite Hn. cbn [negb].
  unfold bind. rewrite route_access_resolved by assumption.
  destruct (access_target m gif (wr_conn_id p) (wr_handle p)) as [[[ce s] sse]|];
    [|reflexivity].
  rewrite call_cb_run. reflexivity.
Qed.

(** ** Read and write while a handle table is missing *)

(** A service without table that the scan reaches makes it read through
    the null pointer. *)
Lemma find_service_by_attr_handle_null : forall s rest h,
  attr_handles s = None -> num_attrs s <> 0%nat ->
  find_service_by_attr_handle (s :: rest) h = None.
Proof.
  intros s rest h Ha Hn. simpl. unfold handle_table. rewrite Ha.
  destruct (num_attrs s); [contradiction|reflexivity].
Qed.



(** * Further properties of the dispatcher *)

(** ** Registration of services *)

Lemma register_pending_closed : forall gif svcs,
  register_pending gif svcs =
  (map mark_registered svcs,
   map (table_request gif) (filter (fun s => negb (registered s)) svcs)).
Proof.
  intros gif svcs. induction svcs as [|s l IH]; simpl; [reflexivity|].
  rewrite IH. change (mark_registered s :: map mark_registered l)
    with ((if registered s then s else set_registered s) :: map mark_registered l).
  destruct (registered s); reflexivity.
Qed.

Lemma mark_registered_all : forall svcs,
  Forall (fun s => registered s = true) svcs ->
  map mark_registered svcs = svcs /\
  filter (fun s => negb (registered s)) svcs = [].
Proof.
  intros svcs H. induction H as [|s l Hs Hl (IH1 & IH2)]; simpl; [auto|].
  unfold mark_registered at 1. rewrite Hs, IH1, IH2. auto.
Qed.

Lemma mark_registered_none : forall svcs,
  Forall (fun s => registered s = false /\ attr_handles s = None) svcs ->
  filter (fun s => negb (registered s)) svcs = svcs.
Proof.
  intros svcs H. induction H as [|s l (Hs & _) Hl IH]; simpl; [auto|].
  now rewrite Hs, IH.
Qed.

Lemma register_services_run : forall m,
  esp32_bt_register_services m =
  Some (tt,
        (if s_gatts_registered m
         then set_svcs (map mark_registered (s_svcs m)) m else m),
        (if s_gatts_registered m
         then map (table_request (s_gatts_if m))
                (filter (fun s => negb (registered s)) (s_svcs m))
         else [])).
Proof.
  intros m. unfold esp32_bt_register_services.
  destruct (s_gatts_registered m); cbn [negb]; [|reflexivity].
  now rewrite register_pending_closed.
Qed.

(** X1.  [mgos_bt_gatts_register_service] with a [NULL] handler, or when
    [calloc] returns [NULL], returns [false], changes nothing and makes no
    call.  With a handler and memory it returns [true], allocates one entry
    and puts it at the head of [s_svcs], without handle table and with
    nothing else in the lists changed; when the stack has registered the
    application it requests the table of the new service, and of that
    service only, at once and marks it [registered]; before that it issues
    no request and leaves the service unmarked.  (Stated on machines where
    the marks agree with the stack state, as they do along every run.) *)
Theorem register_service_effect : forall m d n h mem,
  flags_ok m ->
  match h, mem with
  | Some f, true =>
      exists m',
        mgos_bt_gatts_register_service d n h mem m =
          Some (true, m',
                calloc (heap_top m)
                :: (if s_gatts_registered m
                    then [esp_ble_gatts_create_attr_tab d (s_gatts_if m) n]
                    else [])) /\
        s_svcs m' =
          {| se_addr := heap_top m; svc_descr := d; num_attrs := n;
             registered := s_gatts_registered m; cb := f;
             attr_handles := None |} :: s_svcs m /\
        s_conns m' = s_conns m /\
        s_gatts_registered m' = s_gatts_registered m
  | _, _ => mgos_bt_gatts_register_service d n h mem m = Some (false, m, [])
  end.
Proof.
  intros m d n h mem Hf.
  destruct h as [f|]; [destruct mem|]; [|reflexivity|reflexivity].
  unfold mgos_bt_gatts_register_service. cbn [negb].
  unfold bind at 1. unfold alloc at 1.
  unfold bind at 1. unfold modify at 1.
  unfold bind at 1. rewrite register_services_run.
  cbn [set_svcs bump_heap s_svcs s_conns s_gatts_registered s_gatts_if heap_top world].
  unfold flags_ok in Hf. destruct (s_gatts_registered m) eqn:E.
  - destruct (mark_registered_all (s_svcs m) Hf) as (H1 & H2).
    eexists. split; [|split; [|split]].
    + cbn [map filter registered negb mark_registered]. rewrite H1, H2.
      unfold ret. cbn [map app table_request svc_descr num_attrs]. reflexivity.
    + reflexivity.
    + reflexivity.
    + exact E.
  - eexists. split; [|split; [|split]].
    + unfold ret. cbn [app]. reflexivity.
    + reflexivity.
    + reflexivity.
    + exact E.
Qed.

Lemma reg_evt_run : forall m st aid gif,
  exists m',
    esp32_bt_gatts_ev (ESP_GATTS_REG_EVT st aid) gif m =
      Some (tt, m',
            esp_ble_gap_set_device_name :: esp_ble_gap_config_adv_data
            :: map (table_request gif)
                 (filter (fun s => negb (registered s)) (s_svcs m))) /\
    s_svcs m' = map mark_registered (s_svcs m) /\
    Forall (fun s => registered s = true) (s_svcs m') /\
    map service_ident (s_svcs m') = map service_ident (s_svcs m) /\
    s_gatts_registered m' = true /\ s_gatts_if m' = gif /\
    s_conns m' = s_conns m.
Proof.
  intros m st aid gif. eexists. split.
  - unfold esp32_bt_gatts_ev.
    unfold bind at 1. unfold emit at 1.
    unfold bind at 1. unfold emit at 1.
    unfold bind at 1. unfold modify at 1.
    rewrite register_services_run.
    cbn [set_gatts_registered s_gatts_registered s_gatts_if s_svcs app].
    reflexivity.
  - cbn [set_svcs set_gatts_registered s_svcs s_conns s_gatts_registered s_gatts_if].
    repeat split.
    + apply Forall_forall. intros s Hin. apply in_map_iff in Hin.
      destruct Hin as (x & Hx & _). subst s. unfold mark_registered.
      destruct (registered x) eqn:E; [exact E|reflexivity].
    + rewrite map_map. apply map_ext. intros x. unfold mark_registered.
      now destruct (registered x).
Qed.

(** X2.  The stack-registration event sets the device name, submits the
    advertising data, records the interface of the event, and then requests
    the table of every service not yet marked [registered], in list order
    and on that interface, marking them all.  The connection list is left
    alone and no handler is called. *)
Theorem reg_evt_requests_tables : forall m st aid gif,
  exists m',
    esp32_bt_gatts_ev (ESP_GATTS_REG_EVT st aid) gif m =
      Some (tt, m',
            esp_ble_gap_set_device_name :: esp_ble_gap_config_adv_data
            :: map (table_request gif)
                 (filter (fun s => negb (registered s)) (s_svcs m))) /\
    s_svcs m' = map mark_registered (s_svcs m) /\
    Forall (fun s => registered s = true) (s_svcs m') /\
    map service_ident (s_svcs m') = map service_ident (s_svcs m) /\
    s_gatts_registered m' = true /\ s_gatts_if m' = gif /\
    s_conns m' = s_conns m.
Proof. exact reg_evt_run. Qed.

(** X3.  A second stack-registration event, on whatever interface, requests
    no table again: it only repeats the device name and the advertising
    data, and leaves the service list as the first one left it. *)
Theorem reg_evt_replay_requests_nothing : forall m st aid gif st2 aid2 gif2,
  exists m1 a1 m2,
    esp32_bt_gatts_ev (ESP_GATTS_REG_EVT st aid) gif m = Some (tt, m1, a1) /\
    esp32_bt_gatts_ev (ESP_GATTS_REG_EVT st2 aid2) gif2 m1 =
      Some (tt, m2, [esp_ble_gap_set_device_name; esp_ble_gap_config_adv_data]) /\
    s_svcs m2 = s_svcs m1 /\ s_conns m2 = s_conns m1 /\ s_gatts_if m2 = gif2.
Proof.
  intros m st aid gif st2 aid2 gif2.
  destruct (reg_evt_run m st aid gif)
    as (m1 & H1 & _ & Hr & _).
  destruct (reg_evt_run m1 st2 aid2 gif2)
    as (m2 & H2 & Hs & _ & _ & _ & Hg & Hc).
  destruct (mark_registered_all (s_svcs m1) Hr) as (E1 & E2).
  rewrite E2 in H2. rewrite E1 in Hs.
  eexists m1, _, m2. repeat split; eauto.
Qed.

(** ** What one input can do, on any machine *)

Lemma register_service_run : forall m d n f,
  mgos_bt_gatts_register_service d n (Some f) true m =
  Some (true,
        (if s_gatts_registered m
         then set_svcs
                (map mark_registered
                   ({| se_addr := heap_top m; svc_descr := d; num_attrs := n;
                       registered := false; cb := f; attr_handles := None |}
                    :: s_svcs m)) (bump_heap m)
         else set_svcs
                ({| se_addr := heap_top m; svc_descr := d; num_attrs := n;
                    registered := false; cb := f; attr_handles := None |}
                 :: s_svcs m) (bump_heap m)),
        calloc (heap_top m)
        :: (if s_gatts_registered m
            then map (table_request (s_gatts_if m))
                   (filter (fun s => negb (registered s))
                      ({| se_addr := heap_top m; svc_descr := d; num_attrs := n;
                          registered := false; cb := f; attr_handles := None |}
                       :: s_svcs m))
            else [])).
Proof.
  intros m d n f. unfold mgos_bt_gatts_register_service. cbn [negb].
  unfold bind at 1. unfold alloc at 1.
  unfold bind at 1. unfold modify at 1.
  unfold bind at 1. rewrite register_services_run.
  cbn [set_svcs bump_heap s_svcs s_conns s_gatts_registered s_gatts_if heap_top world].
  unfold ret. destruct (s_gatts_registered m); rewrite ?app_nil_r; reflexivity.
Qed.

Lemma mtu_evt_run : forall m gif p,
  esp32_bt_gatts_ev (ESP_GATTS_MTU_EVT p) gif m =
  Some (tt,
        set_conns (update_first (conn_match gif (mtu_conn_id p))
                     (set_mtu (mtu_mtu p)) (s_conns m)) m, []).
Proof. reflexivity. Qed.

Lemma route_sessions_acts : forall ev ce found l r m r' m' acts,
  route_sessions ev ce found l r m = Some (r', m', acts) ->
  Forall (fun a => exists s b, a = cb_call s (Some b) ev) acts.
Proof.
  intros ev ce found l. induction l as [|sse l IH]; intros r m r' m' acts H.
  - inversion H; subst. constructor.
  - cbn [route_sessions] in H. destruct found as [s|]; [|eauto].
    destruct (Nat.eqb (se sse) (se_addr s)); [|eauto].
    apply bind_inv in H. destruct H as (a & m1 & l1 & l2 & Hc & Hk & Hl).
    rewrite call_cb_run in Hc. inversion Hc; subst.
    constructor; [simpl; eauto|]. eauto.
Qed.

Lemma route_access_acts : forall ev gif cid h m r m' acts,
  route_access ev gif cid h m = Some (r, m', acts) ->
  Forall (fun a => exists s b, a = cb_call s (Some b) ev) acts.
Proof.
  intros ev gif cid h m r m' acts H. unfold route_access in H.
  unfold bind at 1 in H. unfold get at 1 in H.
  destruct (find_connection (s_conns m) gif cid) as [ce|].
  - destruct (find_service_by_attr_handle (s_svcs m) h) as [found|];
      [|discriminate].
    destruct (route_sessions ev ce found (sessions ce) false m)
      as [[[r0 m0] l0]|] eqn:E; [|discriminate].
    inversion H; subst. eapply route_sessions_acts; eauto.
  - inversion H; subst. constructor.
Qed.

(** What a read or a write logs: handler calls on sessions, then at most
    one response. *)
Lemma read_evt_acts : forall p gif m m' acts,
  esp32_bt_gatts_ev (ESP_GATTS_READ_EVT p) gif m = Some (tt, m', acts) ->
  exists calls rsp,
    acts = calls ++ rsp /\
    Forall (fun a => exists s b, a = cb_call s (Some b) (ESP_GATTS_READ_EVT p)) calls /\
    (rsp = [] \/
     rd_need_rsp p = true /\
     rsp = [esp_ble_gatts_send_response gif (rd_conn_id p) (rd_trans_id p)
              ESP_GATT_READ_NOT_PERMIT]).
Proof.
  intros p gif m m' acts H. unfold esp32_bt_gatts_ev in H.
  destruct (rd_need_rsp p) eqn:En; cbn [negb] in H.
  - apply bind_inv in H. destruct H as (r & m1 & l1 & l2 & Hc & Hk & Hl).
    apply route_access_acts in Hc. exists l1, l2. split; [exact Hl|].
    split; [exact Hc|].
    destruct (negb r); inversion Hk; subst; auto.
  - inversion H; subst. exists [], []. repeat split; auto.
Qed.

Lemma write_evt_acts : forall p gif m m' acts,
  esp32_bt_gatts_ev (ESP_GATTS_WRITE_EVT p) gif m = Some (tt, m', acts) ->
  exists calls rsp,
    acts = calls ++ rsp /\
    Forall (fun a => exists s b, a = cb_call s (Some b) (ESP_GATTS_WRITE_EVT p)) calls /\
    (rsp = [] /\ wr_need_rsp p = false \/
     wr_need_rsp p = true /\
     exists st, (st = ESP_GATT_OK \/ st = ESP_GATT_WRITE_NOT_PERMIT) /\
       rsp = [esp_ble_gatts_send_response gif (wr_conn_id p) (wr_trans_id p) st]).
Proof.
  intros p gif m m' acts H. unfold esp32_bt_gatts_ev in H.
  destruct (wr_need_rsp p) eqn:En; cbn [negb] in H.
  - apply bind_inv in H. destruct H as (r & m1 & l1 & l2 & Hc & Hk & Hl).
    apply route_access_acts in Hc. exists l1, l2. split; [exact Hl|].
    split; [exact Hc|]. right. split; [reflexivity|].
    inversion Hk; subst. destruct r; eauto.
  - inversion H; subst. exists [], []. repeat split; auto.
Qed.

Lemma disconnect_sessions_effect : forall ev ce l m m' acts,
  disconnect_sessions ev ce l m = Some (tt, m', acts) ->
  same_lists m m' /\ heap_top m' = heap_top m /\
  Forall (fun a => (exists s b, a = cb_call s (Some b) ev) \/ exists b, a = free b) acts.
Proof.
  intros ev ce l. induction l as [|sse l IH]; intros m m' acts H.
  - inversion H; subst. split; [apply same_lists_refl|]. split; [reflexivity|constructor].
  - cbn [disconnect_sessions] in H.
    unfold bind at 1 in H. unfold get at 1 in H.
    destruct (deref_service (s_svcs m) (se sse)) as [s|]; [|discriminate].
    match type of H with
    | match ?c with _ => _ end = _ => destruct c as [[[u m1] l1]|] eqn:E; [|discriminate]
    end.
    apply bind_inv in E. destruct E as (a & m2 & k1 & k2 & Hc & Hk & Hl).
    rewrite call_cb_run in Hc. inversion Hc; subst a m2 k1.
    apply bind_inv in Hk. destruct Hk as (a' & m3 & k3 & k4 & He & Hr & Hl2).
    inversion He; subst a' m3 k3.
    destruct u. destruct (IH _ _ _ Hr) as (Hs & Ht & Hf).
    inversion H; subst m1 acts. subst l1 k2.
    split; [|split].
    + eapply same_lists_trans; [|exact Hs]. now unfold same_lists.
    + exact Ht.
    + simpl. constructor; [left; eauto|]. constructor; [right; eauto|]. exact Hf.
Qed.

Lemma disconnect_evt_effect : forall p gif m m' acts,
  esp32_bt_gatts_ev (ESP_GATTS_DISCONNECT_EVT p) gif m = Some (tt, m', acts) ->
  s_svcs m' = s_svcs m /\ s_gatts_registered m' = s_gatts_registered m /\
  (s_conns m' = s_conns m \/
   s_conns m' = remove_first (conn_match gif (dc_conn_id p)) (s_conns m)) /\
  Forall (fun a => allowed (In_gatts_ev (ESP_GATTS_DISCONNECT_EVT p) gif) a = true) acts.
Proof.
  intros p gif m m' acts H.
  destruct (find_connection (s_conns m) gif (dc_conn_id p)) as [ce|] eqn:E.
  - unfold esp32_bt_gatts_ev in H.
    apply bind_inv in H. destruct H as (m0 & m1 & l0 & l1 & Hg & H & Hl0).
    inversion Hg; subst m0 m1 l0. clear Hg. rewrite E in H.
    apply bind_inv in H. destruct H as (u & m1 & l2 & l3 & Hc & H & Hl1).
    apply bind_inv in Hc. destruct Hc as (u1 & m2 & k1 & k2 & Hd & Hk & Hl).
    destruct u1. apply disconnect_sessions_effect in Hd.
    destruct Hd as ((S1 & S2 & S3 & S4) & _ & Hf).
    unfold bind, emit, modify in Hk. inversion Hk; subst u m1 k2. clear Hk.
    rewrite restart_advertising_run in H. inversion H; subst m' l3. clear H.
    subst acts l1 l2.
    cbn [set_conns s_svcs s_conns s_gatts_registered].
    split; [exact S1|]. split; [exact S3|]. split; [right; now rewrite S2|].
    simpl app. repeat rewrite Forall_app. repeat split.
    + eapply Forall_impl; [|exact Hf].
      intros a [(s0 & b & Ha)|(b & Ha)]; subst a; reflexivity.
    + repeat constructor.
    + match goal with
      | |- context [adv_enable ?w] => destruct (adv_enable w)
      end; repeat constructor.
  - rewrite (disconnect_miss_run m gif p E) in H. inversion H; subst.
    split; [reflexivity|]. split; [reflexivity|]. split; [now left|].
    destruct (adv_enable (world m')); repeat constructor.
Qed.

Lemma creat_attr_tab_evt_effect : forall p gif m m' acts,
  esp32_bt_gatts_ev (ESP_GATTS_CREAT_ATTR_TAB_EVT p) gif m = Some (tt, m', acts) ->
  (m' = m /\ acts = []) \/
  exists s svch rest,
    find_service_by_uuid (s_svcs m) (tab_svc_uuid p) = Some s /\
    tab_handles p = svch :: rest /\
    acts = [calloc (heap_top m);
            cb_call (se_addr s) None (ESP_GATTS_CREAT_ATTR_TAB_EVT p);
            esp_ble_gatts_start_service svch] /\
    s_svcs m' = update_first (fun x => uuid_match x (tab_svc_uuid p))
                  (set_attr_handles (tab_handles p)) (s_svcs m) /\
    s_conns m' = s_conns m /\
    s_gatts_registered m' = s_gatts_registered m.
Proof.
  intros p gif m m' acts H.
  destruct (Z.eq_dec (tab_status p) 0) as [Hst|Hst];
    [|rewrite creat_attr_tab_ignored in H by auto; inversion H; subst; auto].
  destruct (find_service_by_uuid (s_svcs m) (tab_svc_uuid p)) as [s|] eqn:Ef;
    [|rewrite creat_attr_tab_ignored in H by auto; inversion H; subst; auto].
  destruct (Nat.eq_dec (num_attrs s) (length (tab_handles p))) as [Hn|Hn];
    [|rewrite creat_attr_tab_ignored in H by eauto; inversion H; subst; auto].
  destruct (tab_handles p) as [|svch rest] eqn:Eh.
  - exfalso. unfold esp32_bt_gatts_ev in H. rewrite Hst in H. cbn [Z.eqb negb] in H.
    unfold bind at 1 in H. unfold get at 1 in H. rewrite Ef in H.
    unfold tab_num_handle in H. rewrite Eh in H. simpl length in H.
    rewrite Hn, Nat.eqb_refl in H. cbn [negb] in H.
    unfold bind at 1 in H. unfold alloc at 1 in H.
    unfold bind at 1 in H. unfold modify at 1 in H.
    unfold bind at 1 in H. rewrite call_cb_run in H. discriminate.
  - rewrite <- Eh in Hn.
    destruct (creat_attr_tab_run m gif p s svch rest Hst Ef Hn Eh)
      as (m2 & Hrun & S1 & S2 & S3 & _).
    rewrite Hrun in H. inversion H; subst m2 acts.
    right. exists s, svch, rest. rewrite <- Eh. repeat split; auto.
Qed.

Lemma Forall_requests : forall (P : action -> Prop) gif svcs,
  (forall s, P (table_request gif s)) -> Forall P (map (table_request gif) svcs).
Proof.
  intros P gif svcs H. induction svcs as [|s l IH]; simpl; constructor; auto.
Qed.

Lemma connect_acts_allowed : forall p gif a svcs,
  Forall (fun x => allowed (In_gatts_ev (ESP_GATTS_CONNECT_EVT p) gif) x = true)
    (connect_acts (ESP_GATTS_CONNECT_EVT p) a svcs).
Proof.
  intros p gif a svcs. revert a.
  induction svcs as [|s l IH]; intros a; simpl; repeat constructor. apply IH.
Qed.

Lemma Forall_allowed_nil : forall i, Forall (fun a => allowed i a = true) [].
Proof. constructor. Qed.

Lemma step_allowed : forall i m m' acts,
  step i m = Some (tt, m', acts) ->
  Forall (fun a => allowed i a = true) acts.
Proof.
  intros i m m' acts H. destruct i as [d n h mem|ev gif|ev|w]; simpl in H.
  - apply bind_inv in H. destruct H as (b & m1 & l1 & l2 & Hc & Hk & Hl).
    inversion Hk; subst. rewrite app_nil_r.
    destruct h as [f|]; [destruct mem|];
      [|inversion Hc; constructor|inversion Hc; constructor].
    rewrite register_service_run in Hc. inversion Hc; subst.
    constructor; [reflexivity|].
    destruct (s_gatts_registered m); [|constructor].
    cbn [filter registered negb map].
    constructor; [reflexivity|]. now apply Forall_requests.
  - destruct ev; try (inversion H; subst; apply Forall_allowed_nil).
    + destruct (reg_evt_run m status app_id gif) as (m1 & Hr & _).
      rewrite Hr in H. inversion H; subst.
      constructor; [reflexivity|]. constructor; [reflexivity|].
      now apply Forall_requests.
    + destruct (read_evt_acts _ _ _ _ _ H) as (calls & rsp & Ha & Hc & Hr).
      subst acts. apply Forall_app. split.
      * eapply Forall_impl; [|exact Hc]. intros a (s0 & b & E). now subst a.
      * destruct Hr as [Hr|(_ & Hr)]; subst rsp; repeat constructor.
    + destruct (write_evt_acts _ _ _ _ _ H) as (calls & rsp & Ha & Hc & Hr).
      subst acts. apply Forall_app. split.
      * eapply Forall_impl; [|exact Hc]. intros a (s0 & b & E). now subst a.
      * destruct Hr as [(Hr & _)|(_ & st & [Hs|Hs] & Hr)]; subst; repeat constructor.
    + destruct (cn_is_connected p) eqn:E.
      * destruct (connect_run m gif p E) as (m1 & Hr & _).
        rewrite Hr in H. inversion H; subst.
        rewrite Forall_cons_iff, !Forall_app, Forall_cons_iff.
        split; [reflexivity|]. split; [split; [|split; [reflexivity|]]|].
        -- destruct (adv_enable (world m)); repeat constructor.
        -- apply connect_acts_allowed.
        -- repeat constructor.
      * unfold esp32_bt_gatts_ev in H. rewrite E in H. inversion H.
        constructor.
    + now destruct (disconnect_evt_effect _ _ _ _ _ H) as (_ & _ & _ & Hf).
    + destruct (creat_attr_tab_evt_effect _ _ _ _ _ H)
        as [(_ & Ha)|(s0 & svch & rest & _ & _ & Ha & _)];
        subst acts; repeat constructor.
  - destruct ev; inversion H; subst; repeat constructor.
  - inversion H; subst. constructor.
Qed.

(** X4.  Which outside calls an input can lead to, on any machine.
    Responses are sent for read and write events only ("read not
    permitted" for a read; "ok" or "write not permitted" for a write);
    handlers are called only for read, write, connect and disconnect (with a
    session) and table-created (without); tables are requested only when a
    service registers or the stack reports its registration; a service is
    started only on a table-created event; entries are freed only on
    disconnect; every other event of the GATT server callback, and a change
    of the world, call nothing. *)
Theorem step_calls_allowed : forall i m m' acts,
  step i m = Some (tt, m', acts) ->
  Forall (fun a => allowed i a = true) acts.
Proof. exact step_allowed. Qed.

Lemma count_acts_none : forall (q : action -> bool) (P : action -> Prop) acts,
  Forall P acts -> (forall a, P a -> q a = false) -> count_acts q acts = 0%nat.
Proof.
  intros q P acts H Hq. unfold count_acts. rewrite filter_none; [reflexivity|].
  intros a Ha. apply Hq. rewrite Forall_forall in H. auto.
Qed.

(** X5.  No input makes the dispatcher send more than one response, on any
    machine.  A write that needs a response gets exactly one whenever the
    dispatcher returns; inputs other than a read or a write that needs a
    response get none. *)
Theorem step_one_response : forall i m m' acts,
  step i m = Some (tt, m', acts) ->
  (count_acts is_send_response acts <= 1)%nat /\
  (forall p gif, i = In_gatts_ev (ESP_GATTS_WRITE_EVT p) gif ->
     wr_need_rsp p = true -> count_acts is_send_response acts = 1%nat) /\
  ((forall p gif, i = In_gatts_ev (ESP_GATTS_READ_EVT p) gif -> rd_need_rsp p = false) ->
   (forall p gif, i = In_gatts_ev (ESP_GATTS_WRITE_EVT p) gif -> wr_need_rsp p = false) ->
   count_acts is_send_response acts = 0%nat).
Proof.
  intros i m m' acts H.
  assert (forall ev calls,
            Forall (fun a => exists s b, a = cb_call s (Some b) ev) calls ->
            count_acts is_send_response calls = 0%nat) as Hcalls.
  { intros ev calls Hc. eapply count_acts_none; [exact Hc|].
    intros a (s0 & b & E). now subst a. }
  destruct i as [d n h mem|ev gif|ev|w];
    try (assert (count_acts is_send_response acts = 0%nat) as Hz
           by (eapply count_acts_none; [exact (step_allowed _ _ _ _ H)|];
               intros a; simpl; destruct a; try discriminate; reflexivity);
         rewrite Hz; split; [lia|split; [intros; congruence|intros; reflexivity]]).
  destruct ev;
    try (assert (count_acts is_send_response acts = 0%nat) as Hz
           by (eapply count_acts_none; [exact (step_allowed _ _ _ _ H)|];
               intros a; simpl; destruct a; try discriminate; reflexivity);
         rewrite Hz; split; [lia|split; [intros; congruence|intros; reflexivity]]).
  - simpl in H. destruct (read_evt_acts _ _ _ _ _ H) as (calls & rsp & Ha & Hc & Hr).
    subst acts. rewrite count_acts_app, (Hcalls _ _ Hc).
    destruct Hr as [Hr|(Hn & Hr)]; subst rsp; unfold count_acts; simpl.
    + split; [lia|split; [intros; congruence|intros; reflexivity]].
    + split; [lia|]. split; [intros; congruence|].
      intros Hrd _. specialize (Hrd p gif eq_refl). congruence.
  - simpl in H. destruct (write_evt_acts _ _ _ _ _ H) as (calls & rsp & Ha & Hc & Hr).
    subst acts. rewrite count_acts_app, (Hcalls _ _ Hc).
    destruct Hr as [(Hr & Hn)|(Hn & st & _ & Hr)]; subst rsp;
      unfold count_acts; simpl.
    + split; [lia|]. split; [|reflexivity].
      intros p0 gif0 E. inversion E; subst. congruence.
    + split; [lia|]. split; [reflexivity|].
      intros _ Hwr. specialize (Hwr p gif eq_refl). congruence.
Qed.

(** ** Services are for life; sessions are made at connect time only *)

Lemma update_first_in : forall A p f (l : list A) x,
  In x l -> In x (update_first p f l) \/ In (f x) (update_first p f l).
Proof.
  intros A p f l x. induction l as [|y l IH]; simpl; intros H; [contradiction|].
  destruct (p y).
  - destruct H as [H|H]; [subst; right; left; reflexivity|left; right; exact H].
  - destruct H as [H|H]; [left; left; exact H|].
    destruct (IH H); [left|right]; right; assumption.
Qed.

Lemma update_first_from : forall A p f (l : list A) x,
  In x (update_first p f l) -> In x l \/ exists y, In y l /\ x = f y.
Proof.
  intros A p f l x. induction l as [|y l IH]; simpl; intros H; [contradiction|].
  destruct (p y).
  - destruct H as [H|H]; [right; exists y; auto|left; right; exact H].
  - destruct H as [H|H]; [left; left; exact H|].
    destruct (IH H) as [H1|(z & Hz & E)]; [left; right; exact H1|].
    right. exists z. auto.
Qed.

Lemma service_kept_refl : forall s, service_kept s s.
Proof. intros s. repeat split; auto. Qed.

Lemma service_kept_mark : forall s, service_kept s (mark_registered s).
Proof.
  intros s. unfold mark_registered. destruct (registered s) eqn:E.
  - apply service_kept_refl.
  - unfold service_kept. simpl. split; [reflexivity|]. split; [|auto].
    rewrite E. discriminate.
Qed.

Lemma step_services : forall i m m' acts,
  step i m = Some (tt, m', acts) ->
  (exists new, map service_ident (s_svcs m')
               = new ++ map service_ident (s_svcs m)) /\
  (forall s, In s (s_svcs m) -> exists s', In s' (s_svcs m') /\ service_kept s s').
Proof.
  intros i m m' acts H.
  assert (s_svcs m' = s_svcs m ->
          (exists new, map service_ident (s_svcs m')
                       = new ++ map service_ident (s_svcs m)) /\
          (forall s, In s (s_svcs m) ->
             exists s', In s' (s_svcs m') /\ service_kept s s')) as Hsame.
  { intros E. rewrite E. split; [now exists []|].
    intros s Hs. exists s. split; [exact Hs|apply service_kept_refl]. }
  assert (forall l, s_svcs m' = map mark_registered l ->
          forall s, In s l -> exists s', In s' (s_svcs m') /\ service_kept s s')
    as Hmark.
  { intros l E s Hs. exists (mark_registered s). rewrite E.
    split; [now apply in_map|apply service_kept_mark]. }
  assert (forall l, map service_ident (map mark_registered l) = map service_ident l)
    as Hid.
  { intros l. rewrite map_map. apply map_ext. intros x. unfold mark_registered.
    now destruct (registered x). }
  destruct i as [d n h mem|ev gif|ev|w]; simpl in H.
  - apply bind_inv in H. destruct H as (b & m1 & l1 & l2 & Hc & Hk & Hl).
    inversion Hk; subst m1. clear Hk.
    destruct h as [f|]; [destruct mem|];
      [|inversion Hc; subst; now apply Hsame
       |inversion Hc; subst; now apply Hsame].
    rewrite register_service_run in Hc. inversion Hc; subst m'. clear Hc.
    destruct (s_gatts_registered m); cbn [set_svcs s_svcs].
    + split.
      * cbn [map]. rewrite Hid. eexists [_]. reflexivity.
      * intros s Hs. exists (mark_registered s).
        split; [cbn [map]; right; now apply in_map|apply service_kept_mark].
    + split.
      * cbn [map]. eexists [_]. reflexivity.
      * intros s Hs. exists s. split; [now right|apply service_kept_refl].
  - destruct ev; try (inversion H; subst; now apply Hsame).
    + destruct (reg_evt_run m status app_id gif)
        as (m1 & Hr & Hs & _ & Hi & _).
      rewrite Hr in H. inversion H; subst m1. split.
      * exists []. exact Hi.
      * now apply Hmark.
    + destruct (read_evt_frame _ _ _ _ _ H) as ((S1 & _) & _). now apply Hsame.
    + destruct (write_evt_frame _ _ _ _ _ H) as ((S1 & _) & _). now apply Hsame.
    + destruct (cn_is_connected p) eqn:E.
      * destruct (connect_run m gif p E) as (m1 & Hr & S1 & _).
        rewrite Hr in H. inversion H; subst m1. now apply Hsame.
      * unfold esp32_bt_gatts_ev in H. rewrite E in H. inversion H; subst.
        now apply Hsame.
    + destruct (disconnect_evt_effect _ _ _ _ _ H) as (S1 & _). now apply Hsame.
    + destruct (creat_attr_tab_evt_effect _ _ _ _ _ H)
        as [(E & _)|(s0 & svch & rest & _ & _ & _ & S1 & _)];
        [subst; now apply Hsame|].
      rewrite S1. split.
      * exists []. apply update_first_map. reflexivity.
      * intros s Hs.
        destruct (update_first_in _ (fun x => uuid_match x (tab_svc_uuid p))
                    (set_attr_handles (tab_handles p)) _ s Hs) as [Hi|Hi].
        -- exists s. split; [exact Hi|apply service_kept_refl].
        -- exists (set_attr_handles (tab_handles p) s). split; [exact Hi|].
           repeat split; auto. simpl. discriminate.
  - destruct ev; inversion H; subst; now apply Hsame.
  - inversion H; subst. now apply Hsame.
Qed.

(** X6.  No run removes a service or changes what identifies it: the
    entries of the service list at the start of a run are, with their
    address, declaration, attribute count and handler, the tail of the list
    at its end.  A service marked [registered] stays marked, and a service
    that has a handle table keeps having one. *)
Theorem run_keeps_services : forall l m m',
  run l m = Some m' ->
  (exists new, map service_ident (s_svcs m')
               = new ++ map service_ident (s_svcs m)) /\
  (forall s, In s (s_svcs m) -> exists s', In s' (s_svcs m') /\ service_kept s s').
Proof.
  induction l as [|i l IH]; simpl; intros m m' H.
  - inversion H; subst. split; [now exists []|].
    intros s Hs. exists s. split; [exact Hs|apply service_kept_refl].
  - destruct (stack_may_deliver m i); [|discriminate].
    destruct (step i m) as [[[u m1] acts]|] eqn:Es; [|discriminate].
    destruct u. destruct (step_services _ _ _ _ Es) as ((n1 & E1) & K1).
    destruct (IH _ _ H) as ((n2 & E2) & K2). split.
    + exists (n2 ++ n1). rewrite E2, E1. now rewrite app_assoc.
    + intros s Hs. destruct (K1 s Hs) as (s1 & Hs1 & (A1 & B1 & C1)).
      destruct (K2 s1 Hs1) as (s2 & Hs2 & (A2 & B2 & C2)).
      exists s2. split; [exact Hs2|]. repeat split; auto. congruence.
Qed.

(** X7.  Sessions are made by connect events only.  After any other input
    every connection entry is an entry that was there before, with the same
    address, the same identity and the same sessions: registering a service
    or creating its table adds no session to an open connection. *)
Theorem sessions_only_at_connect : forall i m m' acts,
  step i m = Some (tt, m', acts) ->
  (forall p gif, i <> In_gatts_ev (ESP_GATTS_CONNECT_EVT p) gif) ->
  forall ce', In ce' (s_conns m') ->
  exists ce, In ce (s_conns m) /\ ce_addr ce' = ce_addr ce /\
             sessions ce' = sessions ce /\
             gatt_if (bc ce') = gatt_if (bc ce) /\
             conn_id (bc ce') = conn_id (bc ce).
Proof.
  intros i m m' acts H Hn.
  assert (s_conns m' = s_conns m ->
          forall ce', In ce' (s_conns m') ->
          exists ce, In ce (s_conns m) /\ ce_addr ce' = ce_addr ce /\
                     sessions ce' = sessions ce /\
                     gatt_if (bc ce') = gatt_if (bc ce) /\
                     conn_id (bc ce') = conn_id (bc ce)) as Hsame.
  { intros E ce' Hin. rewrite E in Hin. exists ce'. auto. }
  destruct i as [d n h mem|ev gif|ev|w]; simpl in H.
  - apply bind_inv in H. destruct H as (b & m1 & l1 & l2 & Hc & Hk & Hl).
    inversion Hk; subst m1. clear Hk.
    destruct h as [f|]; [destruct mem|];
      [|inversion Hc; subst; now apply Hsame
       |inversion Hc; subst; now apply Hsame].
    rewrite register_service_run in Hc. inversion Hc; subst m'. clear Hc.
    apply Hsame. now destruct (s_gatts_registered m).
  - destruct ev; try (inversion H; subst; now apply Hsame).
    + destruct (reg_evt_run m status app_id gif)
        as (m1 & Hr & _ & _ & _ & _ & _ & Hc).
      rewrite Hr in H. inversion H; subst m1. now apply Hsame.
    + destruct (read_evt_frame _ _ _ _ _ H) as ((_ & S2 & _) & _). now apply Hsame.
    + destruct (write_evt_frame _ _ _ _ _ H) as ((_ & S2 & _) & _). now apply Hsame.
    + rewrite mtu_evt_run in H. inversion H; subst m'. cbn [set_conns s_conns].
      intros ce' Hin. apply update_first_from in Hin.
      destruct Hin as [Hin|(ce & Hin & E)]; [exists ce'; auto|].
      exists ce. subst ce'. auto.
    + exfalso. now apply (Hn p gif).
    + destruct (disconnect_evt_effect _ _ _ _ _ H) as (_ & _ & [S2|S2] & _);
        [now apply Hsame|].
      intros ce' Hin. rewrite S2 in Hin. apply remove_first_incl in Hin.
      exists ce'. auto.
    + destruct (creat_attr_tab_evt_effect _ _ _ _ _ H)
        as [(E & _)|(s0 & svch & rest & _ & _ & _ & _ & S2 & _)];
        [subst|]; now apply Hsame.
  - destruct ev; inversion H; subst; now apply Hsame.
  - inversion H; subst. now apply Hsame.
Qed.

(** ** One table request per service *)

Lemma requests_none : forall (P : action -> Prop) acts,
  Forall P acts -> (forall a, P a -> is_create_attr_tab a = false) ->
  requests acts = [].
Proof.
  intros P acts H Hp. induction H as [|a l Ha Hl IH]; [reflexivity|].
  unfold requests. cbn [flat_map]. fold (requests l). rewrite IH.
  specialize (Hp a Ha). destruct a; try reflexivity. discriminate Hp.
Qed.

Lemma requests_app : forall a b, requests (a ++ b) = requests a ++ requests b.
Proof. intros a b. unfold requests. apply flat_map_app. Qed.

Lemma requests_table_requests : forall gif svcs,
  requests (map (table_request gif) svcs)
  = map (fun s => (svc_descr s, num_attrs s)) svcs.
Proof.
  intros gif svcs. induction svcs as [|x l IH]; [reflexivity|].
  unfold requests in *. cbn [map flat_map table_request app]. now rewrite IH.
Qed.

Lemma marked_ext : forall m m',
  map (fun s => (registered s, (svc_descr s, num_attrs s))) (s_svcs m')
  = map (fun s => (registered s, (svc_descr s, num_attrs s))) (s_svcs m) ->
  marked m' = marked m.
Proof.
  intros m m'. unfold marked. generalize (s_svcs m) (s_svcs m').
  intros l l'. revert l. induction l' as [|y l' IH]; intros [|x l] H;
    try discriminate H; [reflexivity|].
  cbn [map] in H. injection H as Hr Hd Hn Hl.
  cbn [filter]. rewrite Hr. destruct (registered x); cbn [map].
  - rewrite Hd, Hn. f_equal. now apply IH.
  - now apply IH.
Qed.

Lemma marked_mark_all : forall svcs,
  map (fun s => (svc_descr s, num_attrs s))
      (filter (fun s => registered s) (map mark_registered svcs))
  = map (fun s => (svc_descr s, num_attrs s)) svcs.
Proof.
  intros svcs. induction svcs as [|x l IH]; [reflexivity|].
  cbn [map]. destruct (registered x) eqn:E.
  - assert (mark_registered x = x) as ->
      by (unfold mark_registered; now rewrite E).
    cbn [filter]. rewrite E. cbn [map]. now rewrite IH.
  - assert (mark_registered x = set_registered x) as ->
      by (unfold mark_registered; now rewrite E).
    cbn [filter registered set_registered]. cbn [map svc_descr num_attrs].
    now rewrite IH.
Qed.

Lemma filter_split_perm : forall A B (g : A -> B) (f : A -> bool) l,
  Permutation (map g (filter (fun x => negb (f x)) l) ++ map g (filter f l))
              (map g l).
Proof.
  intros A B g f l. induction l as [|x l IH]; [constructor|].
  cbn [filter map]. destruct (f x); cbn [negb map app].
  - apply Permutation_sym. apply Permutation_cons_app.
    apply Permutation_sym. exact IH.
  - now constructor.
Qed.

(** What one input requests is what it marks. *)
Lemma step_requests : forall i m m' acts,
  step i m = Some (tt, m', acts) ->
  Permutation (requests acts ++ marked m) (marked m').
Proof.
  intros i m m' acts H.
  assert ((forall a, allowed i a = true -> is_create_attr_tab a = false) ->
          map (fun s => (registered s, (svc_descr s, num_attrs s))) (s_svcs m')
          = map (fun s => (registered s, (svc_descr s, num_attrs s))) (s_svcs m) ->
          Permutation (requests acts ++ marked m) (marked m')) as Hframe.
  { intros Ha Hs.
    rewrite (requests_none _ acts (step_allowed _ _ _ _ H) Ha).
    rewrite (marked_ext m m' Hs). apply Permutation_refl. }
  assert (forall gif,
            Permutation
              (requests (map (table_request gif)
                           (filter (fun s => negb (registered s)) (s_svcs m)))
               ++ marked m)
              (map (fun s => (svc_descr s, num_attrs s)) (s_svcs m))) as Hall.
  { intros gif. rewrite requests_table_requests. apply filter_split_perm. }
  destruct i as [d n h mem|ev gif|ev|w]; simpl in H.
  - apply bind_inv in H. destruct H as (b & m1 & l1 & l2 & Hc & Hk & Hl).
    inversion Hk; subst m1 l2. clear Hk. subst acts. rewrite app_nil_r.
    destruct h as [f|]; [destruct mem|];
      [|inversion Hc; subst; apply Permutation_refl
       |inversion Hc; subst; apply Permutation_refl].
    rewrite register_service_run in Hc. inversion Hc; subst m' l1. clear Hc.
    destruct (s_gatts_registered m).
    + unfold marked at 2. cbn [set_svcs bump_heap s_svcs].
      match goal with
      | |- Permutation (requests (calloc ?a :: table_request ?g ?x :: ?l) ++ ?r)
             (map ?k (filter ?q (mark_registered ?x :: map mark_registered ?t))) =>
          change (Permutation
                    ((svc_descr x, num_attrs x) :: requests l ++ r)
                    (map k (filter q (map mark_registered (x :: t)))))
      end.
      rewrite marked_mark_all. cbn [map].
      constructor. apply Hall.
    + apply Permutation_refl.
  - destruct ev;
      try (inversion H; subst; apply Permutation_refl).
    + destruct (reg_evt_run m status app_id gif) as (m1 & Hr & Hs & _).
      rewrite Hr in H. inversion H; subst m1 acts.
      unfold marked at 2. rewrite Hs, marked_mark_all.
      match goal with
      | |- Permutation (requests (_ :: _ :: ?l) ++ ?r) ?t =>
          change (Permutation (requests l ++ r) t)
      end.
      apply Hall.
    + apply Hframe.
      * intros a; simpl; destruct a; try discriminate; reflexivity.
      * destruct (read_evt_frame _ _ _ _ _ H) as ((S1 & _) & _). now rewrite S1.
    + apply Hframe.
      * intros a; simpl; destruct a; try discriminate; reflexivity.
      * destruct (write_evt_frame _ _ _ _ _ H) as ((S1 & _) & _). now rewrite S1.
    + apply Hframe.
      * intros a; simpl; destruct a; try discriminate; reflexivity.
      * destruct (cn_is_connected p) eqn:E.
        -- destruct (connect_run m gif p E) as (m1 & Hr & S1 & _).
           rewrite Hr in H. inversion H; subst m1. now rewrite S1.
        -- unfold esp32_bt_gatts_ev in H. rewrite E in H. now inversion H.
    + apply Hframe.
      * intros a; simpl; destruct a; try discriminate; reflexivity.
      * destruct (disconnect_evt_effect _ _ _ _ _ H) as (S1 & _). now rewrite S1.
    + apply Hframe.
      * intros a; simpl; destruct a; try discriminate; reflexivity.
      * destruct (creat_attr_tab_evt_effect _ _ _ _ _ H)
          as [(E & _)|(s0 & svch & rest & _ & _ & _ & S1 & _)]; [now subst|].
        rewrite S1. apply update_first_map. reflexivity.
  - destruct ev; inversion H; subst; apply Permutation_refl.
  - inversion H; subst. apply Permutation_refl.
Qed.

Lemma run_log_requests : forall l m m' acts,
  run_log l m = Some (m', acts) ->
  Permutation (requests acts ++ marked m) (marked m').
Proof.
  induction l as [|i l IH]; simpl; intros m m' acts H.
  - inversion H; subst. apply Permutation_refl.
  - destruct (stack_may_deliver m i); [|discriminate].
    destruct (step i m) as [[[u m1] a1]|] eqn:Es; [|discriminate].
    destruct (run_log l m1) as [[m2 a2]|] eqn:Er; [|discriminate].
    inversion H; subst. destruct u.
    rewrite requests_app, <- app_assoc.
    eapply Permutation_trans; [apply Permutation_app_swap_app|].
    eapply Permutation_trans; [|exact (IH _ _ _ Er)].
    apply Permutation_app_head. exact (step_requests _ _ _ _ Es).
Qed.

(** X8.  Along every run from the initial state the table requests issued
    so far are, up to order, the services marked [registered], each with
    the attribute table and the attribute count of its entry: one request
    per marked service and none for any other.  And whatever input comes
    next, the requests it issues are exactly those for the services it
    marks.  So a service has its table requested once, when it is marked,
    and not again. *)
Theorem one_table_request_per_service : forall l w m acts i m' acts',
  run_log l (init w) = Some (m, acts) ->
  step i m = Some (tt, m', acts') ->
  Permutation (requests acts) (marked m) /\
  Permutation (requests acts' ++ marked m) (marked m').
Proof.
  intros l w m acts i m' acts' Hr Hs. split.
  - pose proof (run_log_requests _ _ _ _ Hr) as H.
    unfold marked at 1 in H. cbn [init s_svcs filter map] in H.
    now rewrite app_nil_r in H.
  - exact (step_requests _ _ _ _ Hs).
Qed.

(** ** Lookups *)

Lemma attr_scan_exact : forall hs h,
  attr_scan (length hs) hs h = Some (existsb (fun x => x =? h) hs).
Proof.
  intros hs h. induction hs as [|x l IH]; simpl; [reflexivity|].
  destruct (x =? h); [reflexivity|exact IH].
Qed.

Lemma find_service_by_attr_handle_owner_first : forall svcs h,
  Forall resolved svcs ->
  find_service_by_attr_handle svcs h = Some (handle_owner svcs h).
Proof.
  intros svcs h H. unfold handle_owner.
  induction H as [|s l Hs Hl IH]; simpl; [reflexivity|].
  unfold resolved in Hs. rewrite <- Hs, attr_scan_exact.
  destruct (existsb (fun x => x =? h) (handle_table s)); [reflexivity|exact IH].
Qed.

(** X9.  When every service has its handle table, the scan of
    [find_service_by_attr_handle] is defined and returns the first service
    in list order (the most recently registered one) whose table holds the
    handle, or nothing when no table holds it; the service returned is in
    the list and does own the handle. *)
Theorem find_service_by_attr_handle_first : forall svcs h,
  Forall resolved svcs ->
  find_service_by_attr_handle svcs h = Some (handle_owner svcs h) /\
  (forall s, handle_owner svcs h = Some s -> In s svcs /\ In h (handle_table s)) /\
  (handle_owner svcs h = None ->
   forall s, In s svcs -> ~ In h (handle_table s)).
Proof.
  intros svcs h H. split; [now apply find_service_by_attr_handle_owner_first|].
  unfold handle_owner. split.
  - intros s Hf. apply find_some in Hf. destruct Hf as (Hin & He).
    split; [exact Hin|]. apply existsb_exists in He.
    destruct He as (x & Hx & E). apply Z.eqb_eq in E. now subst x.
  - intros Hf s Hin Hh. pose proof (find_none _ _ Hf s Hin) as Hn. simpl in Hn.
    assert (existsb (fun x => x =? h) (handle_table s) = true) as Ht.
    { apply existsb_exists. exists h. split; [exact Hh|apply Z.eqb_refl]. }
    congruence.
Qed.

Lemma conn_match_other : forall gif cid gif' cid' ce,
  gif' <> gif \/ cid' <> cid ->
  conn_match gif cid ce = true -> conn_match gif' cid' ce = false.
Proof.
  intros gif cid gif' cid' ce Hne H. unfold conn_match in *.
  apply andb_true_iff in H. destruct H as (H1 & H2).
  apply Z.eqb_eq in H1. apply Z.eqb_eq in H2.
  apply andb_false_iff. destruct Hne as [Hne|Hne]; [left|right];
    apply Z.eqb_neq; congruence.
Qed.

(** X10.  After a connect event with [is_connected] set, [find_connection]
    with the interface and connection id of the event finds the new entry,
    with the default MTU and the peer address of the event, even when an
    older entry has the same pair; lookups of any other pair give what they
    gave before. *)
Theorem connect_then_find : forall m gif p,
  cn_is_connected p = true ->
  exists m' acts ce,
    esp32_bt_gatts_ev (ESP_GATTS_CONNECT_EVT p) gif m = Some (tt, m', acts) /\
    find_connection (s_conns m') gif (cn_conn_id p) = Some ce /\
    bc ce = {| gatt_if := gif; conn_id := cn_conn_id p;
               mtu := ESP_GATT_DEF_BLE_MTU_SIZE;
               peer_addr := cn_remote_bda p |} /\
    (forall gif' cid', gif' <> gif \/ cid' <> cn_conn_id p ->
       find_connection (s_conns m') gif' cid'
       = find_connection (s_conns m) gif' cid').
Proof.
  intros m gif p H.
  destruct (connect_run m gif p H) as (m' & Hrun & _ & S2 & _).
  eexists m', _, _. split; [exact Hrun|]. rewrite S2.
  unfold find_connection. cbn [find]. unfold conn_match at 1.
  cbn [bc connect_conn gatt_if conn_id]. rewrite !Z.eqb_refl. cbn [andb].
  split; [reflexivity|]. split; [reflexivity|].
  intros gif' cid' Hne.
  rewrite (conn_match_other gif (cn_conn_id p) gif' cid'); auto.
  unfold conn_match. cbn [bc connect_conn gatt_if conn_id].
  now rewrite !Z.eqb_refl.
Qed.

Lemma connect_acts_callocs : forall ev a svcs,
  count_acts is_calloc (connect_acts ev a svcs) = length svcs.
Proof.
  intros ev a svcs. revert a. unfold count_acts.
  induction svcs as [|s l IH]; intros a; simpl; [reflexivity|]. now rewrite IH.
Qed.

Lemma disconnect_acts_any_free : forall ev l,
  count_acts is_any_free (disconnect_acts ev l) = length l.
Proof.
  intros ev l. unfold count_acts. induction l as [|x l IH]; simpl; [reflexivity|].
  now rewrite IH.
Qed.

(** X11.  Connect and disconnect undo each other.  On a well-formed machine
    a connect event followed by the disconnect event of the same interface
    and connection id leaves the connection list and the service list as
    they were before the connect; every entry allocated by the connect is
    freed by the disconnect, and every service is notified once of the
    disconnect. *)
Theorem connect_disconnect_round_trip : forall m gif p q,
  wf m -> cn_is_connected p = true -> dc_conn_id q = cn_conn_id p ->
  exists m1 a1 m2 a2,
    esp32_bt_gatts_ev (ESP_GATTS_CONNECT_EVT p) gif m = Some (tt, m1, a1) /\
    esp32_bt_gatts_ev (ESP_GATTS_DISCONNECT_EVT q) gif m1 = Some (tt, m2, a2) /\
    s_conns m2 = s_conns m /\ s_svcs m2 = s_svcs m /\
    count_acts is_calloc a1 = S (length (s_svcs m)) /\
    count_acts is_any_free a2 = S (length (s_svcs m)) /\
    count_acts is_cb_call a2 = length (s_svcs m).
Proof.
  intros m gif p q Hw Hc Hq.
  destruct (connect_run m gif p Hc) as (m1 & Hrun & S1 & S2 & _).
  pose proof (new_conn_ok m gif p Hw) as (_ & Hok & _).
  cbn [sessions] in Hok.
  set (ce := {| ce_addr := heap_top m; bc := connect_conn gif p;
                sessions := rev (new_sessions (heap_top m) (S (heap_top m))
                                   (s_svcs m)) |}) in *.
  assert (conn_match gif (dc_conn_id q) ce = true) as Hm.
  { unfold conn_match, ce. cbn [bc connect_conn gatt_if conn_id].
    now rewrite Hq, !Z.eqb_refl. }
  assert (find_connection (s_conns m1) gif (dc_conn_id q) = Some ce) as Hf.
  { rewrite S2. unfold find_connection. cbn [find]. now rewrite Hm. }
  assert (Forall (fun sse => In (se sse) (map se_addr (s_svcs m1))) (sessions ce))
    as Hv.
  { rewrite S1. eapply Forall_impl; [|exact Hok]. intros sse (_ & Hi & _). exact Hi. }
  destruct (disconnect_run m1 gif q ce Hf Hv) as (m2 & Hrun2 & T1 & T2 & _).
  assert (length (sessions ce) = length (s_svcs m)) as Hlen.
  { unfold ce. cbn [sessions].
    rewrite length_rev, <- (length_map (@sse_addr)), new_sessions_addrs.
    apply length_seq. }
  eexists m1, _, m2, _. split; [exact Hrun|]. split; [exact Hrun2|].
  split; [|split; [congruence|]].
  - rewrite T2, S2. cbn [remove_first]. now rewrite Hm.
  - split; [|split].
    + change (esp_ble_gap_update_conn_params (cn_remote_bda p) 0 80 48 400
              :: (if adv_enable (world m) then [esp_ble_gap_start_advertising] else [])
              ++ calloc (heap_top m)
              :: connect_acts (ESP_GATTS_CONNECT_EVT p) (S (heap_top m)) (s_svcs m))
        with ([esp_ble_gap_update_conn_params (cn_remote_bda p) 0 80 48 400]
              ++ (if adv_enable (world m) then [esp_ble_gap_start_advertising] else [])
              ++ [calloc (heap_top m)]
              ++ connect_acts (ESP_GATTS_CONNECT_EVT p) (S (heap_top m)) (s_svcs m)).
      rewrite !count_acts_app, connect_acts_callocs.
      destruct (adv_enable (world m)); unfold count_acts; simpl; lia.
    + rewrite !count_acts_app, disconnect_acts_any_free, Hlen.
      destruct (adv_enable (world m2)); unfold count_acts; simpl; lia.
    + rewrite !count_acts_app, disconnect_acts_cb_calls, Hlen.
      destruct (adv_enable (world m2)); unfold count_acts; simpl; lia.
Qed.

Lemma find_update_first_other : forall A (p q : A -> bool) f (l : list A),
  (forall x, p x = true -> q x = false /\ q (f x) = false) ->
  find q (update_first p f l) = find q l.
Proof.
  intros A p q f l H. induction l as [|x l IH]; simpl; [reflexivity|].
  destruct (p x) eqn:E.
  - destruct (H x E) as (H1 & H2). simpl. now rewrite H1, H2.
  - simpl. now rewrite IH.
Qed.

Lemma find_update_first_same : forall A (p : A -> bool) f (l : list A),
  (forall x, p (f x) = p x) ->
  find p (update_first p f l) = option_map f (find p l).
Proof.
  intros A p f l H. induction l as [|x l IH]; simpl; [reflexivity|].
  destruct (p x) eqn:E; simpl.
  - now rewrite H, E.
  - now rewrite E.
Qed.

(** X12.  An MTU event stores the new MTU in the first connection entry
    with the interface and connection id of the event and in no other: a
    lookup of that pair then finds the same entry (address, identity, peer
    address, sessions) with the new MTU, and lookups of other pairs are
    unchanged.  For an unknown connection the event does nothing.  In no
    case is anything logged or a service touched. *)
Theorem mtu_evt_effect : forall m gif p,
  exists m',
    esp32_bt_gatts_ev (ESP_GATTS_MTU_EVT p) gif m = Some (tt, m', []) /\
    s_svcs m' = s_svcs m /\ world m' = world m /\
    find_connection (s_conns m') gif (mtu_conn_id p)
      = option_map (set_mtu (mtu_mtu p))
          (find_connection (s_conns m) gif (mtu_conn_id p)) /\
    (find_connection (s_conns m) gif (mtu_conn_id p) = None ->
     s_conns m' = s_conns m) /\
    (forall gif' cid', gif' <> gif \/ cid' <> mtu_conn_id p ->
       find_connection (s_conns m') gif' cid'
       = find_connection (s_conns m) gif' cid') /\
    map (fun ce => (ce_addr ce, sessions ce, peer_addr (bc ce))) (s_conns m')
      = map (fun ce => (ce_addr ce, sessions ce, peer_addr (bc ce))) (s_conns m).
Proof.
  intros m gif p. eexists. split; [apply mtu_evt_run|].
  cbn [set_conns s_svcs s_conns world]. repeat split.
  - unfold find_connection. apply find_update_first_same. reflexivity.
  - intros Hn. unfold find_connection in Hn.
    induction (s_conns m) as [|x l IH]; simpl in *; [reflexivity|].
    destruct (conn_match gif (mtu_conn_id p) x); [discriminate|].
    now rewrite IH.
  - intros gif' cid' Hne. unfold find_connection.
    apply find_update_first_other. intros x Hx.
    split; [now apply (conn_match_other gif (mtu_conn_id p))|].
    now apply (conn_match_other gif (mtu_conn_id p) gif' cid' x).
  - apply update_first_map. reflexivity.
Qed.

(** ** Routing of reads and writes *)

Lemma access_target_owner : forall m gif cid h,
  Forall resolved (s_svcs m) ->
  access_target m gif cid h =
  match find_connection (s_conns m) gif cid, handle_owner (s_svcs m) h with
  | Some ce, Some s =>
      match bound_session ce s with
      | Some sse => Some (ce, s, sse)
      | None => None
      end
  | _, _ => None
  end.
Proof.
  intros m gif cid h Hr. unfold access_target.
  rewrite (find_service_by_attr_handle_owner_first _ h Hr).
  destruct (find_connection (s_conns m) gif cid); [|reflexivity].
  now destruct (handle_owner (s_svcs m) h).
Qed.

(** X13.  Reads, on a well-formed machine whose services all have their
    handle table.  A read that needs a response is delivered to one handler
    at most: that of the first service owning the handle, on the session of
    the connection bound to that service.  When this handler returns [true]
    the dispatcher sends nothing; when it returns [false] the dispatcher
    sends "read not permitted".  When the connection is unknown, or no
    service owns the handle, or the connection has no session for the owner
    (the service registered after the connection opened), no handler is
    called and the dispatcher sends "read not permitted". *)
Theorem read_evt_dispatch : forall m gif p,
  wf m -> Forall resolved (s_svcs m) -> rd_need_rsp p = true ->
  let deny := esp_ble_gatts_send_response gif (rd_conn_id p) (rd_trans_id p)
                ESP_GATT_READ_NOT_PERMIT in
  match find_connection (s_conns m) gif (rd_conn_id p),
        handle_owner (s_svcs m) (rd_handle p) with
  | Some ce, Some s =>
      match bound_session ce s with
      | Some sse =>
          let r := cb s (world m) (Some (sse_addr sse, bc ce))
                     (ESP_GATTS_READ_EVT p) in
          esp32_bt_gatts_ev (ESP_GATTS_READ_EVT p) gif m =
          Some (tt, set_world (snd r) m,
                cb_call (se_addr s) (Some (sse_addr sse)) (ESP_GATTS_READ_EVT p)
                :: (if fst r then [] else [deny]))
      | None =>
          esp32_bt_gatts_ev (ESP_GATTS_READ_EVT p) gif m = Some (tt, m, [deny])
      end
  | _, _ => esp32_bt_gatts_ev (ESP_GATTS_READ_EVT p) gif m = Some (tt, m, [deny])
  end.
Proof.
  intros m gif p Hw Hr Hn deny.
  rewrite (read_evt_routed m gif p Hw Hr Hn), (access_target_owner _ _ _ _ Hr).
  destruct (find_connection (s_conns m) gif (rd_conn_id p)) as [ce|]; [|reflexivity].
  destruct (handle_owner (s_svcs m) (rd_handle p)) as [s|]; [|reflexivity].
  now destruct (bound_session ce s).
Qed.

(** X14.  Writes, on a well-formed machine whose services all have their
    handle table.  A write that needs a response gets exactly one reply: "ok"
    when the handler of the first service owning the handle, called on the
    session of the connection bound to that service, returns [true]; "write
    not permitted" when it returns [false], and, without any handler call,
    when the connection is unknown, no service owns the handle, or the
    connection has no session for the owner. *)
Theorem write_evt_dispatch : forall m gif p,
  wf m -> Forall resolved (s_svcs m) -> wr_need_rsp p = true ->
  let reply st := esp_ble_gatts_send_response gif (wr_conn_id p) (wr_trans_id p) st in
  match find_connection (s_conns m) gif (wr_conn_id p),
        handle_owner (s_svcs m) (wr_handle p) with
  | Some ce, Some s =>
      match bound_session ce s with
      | Some sse =>
          let r := cb s (world m) (Some (sse_addr sse, bc ce))
                     (ESP_GATTS_WRITE_EVT p) in
          esp32_bt_gatts_ev (ESP_GATTS_WRITE_EVT p) gif m =
          Some (tt, set_world (snd r) m,
                [cb_call (se_addr s) (Some (sse_addr sse)) (ESP_GATTS_WRITE_EVT p);
                 reply (if fst r then ESP_GATT_OK else ESP_GATT_WRITE_NOT_PERMIT)])
      | None =>
          esp32_bt_gatts_ev (ESP_GATTS_WRITE_EVT p) gif m =
          Some (tt, m, [reply ESP_GATT_WRITE_NOT_PERMIT])
      end
  | _, _ =>
      esp32_bt_gatts_ev (ESP_GATTS_WRITE_EVT p) gif m =
      Some (tt, m, [reply ESP_GATT_WRITE_NOT_PERMIT])
  end.
Proof.
  intros m gif p Hw Hr Hn reply.
  rewrite (write_evt_routed m gif p Hw Hr Hn), (access_target_owner _ _ _ _ Hr).
  destruct (find_connection (s_conns m) gif (wr_conn_id p)) as [ce|]; [|reflexivity].
  destruct (handle_owner (s_svcs m) (wr_handle p)) as [s|]; [|reflexivity].
  now destruct (bound_session ce s).
Qed.

(** ** Advertising and connection parameters *)

(** X15.  The first advertising start is not gated by the enable flag: the
    stack-registration event submits the advertising data without starting
    to advertise, and the data-set-complete event of the GAP callback that
    answers it starts advertising, whatever the flag says and without
    touching the machine. *)
Theorem first_advertising_ungated : forall m st aid gif,
  exists m1 a1,
    esp32_bt_gatts_ev (ESP_GATTS_REG_EVT st aid) gif m = Some (tt, m1, a1) /\
    count_acts is_start_advertising a1 = 0%nat /\
    In esp_ble_gap_config_adv_data a1 /\
    esp32_bt_gap_ev ESP_GAP_BLE_ADV_DATA_SET_COMPLETE_EVT m1 =
      Some (tt, m1, [esp_ble_gap_start_advertising]).
Proof.
  intros m st aid gif.
  destruct (reg_evt_run m st aid gif) as (m1 & Hr & _).
  eexists m1, _. split; [exact Hr|]. split; [|split; [simpl; auto|reflexivity]].
  change (esp_ble_gap_set_device_name :: esp_ble_gap_config_adv_data :: ?l)
    with ([esp_ble_gap_set_device_name; esp_ble_gap_config_adv_data] ++ l).
  rewrite count_acts_app.
  assert (forall l, count_acts is_start_advertising (map (table_request gif) l)
                    = 0%nat) as Hz.
  { intros l. apply (count_acts_none is_start_advertising
                       (fun a => exists s, a = table_request gif s)).
    - apply Forall_requests. eauto.
    - intros a (s0 & E). now subst a. }
  rewrite Hz. reflexivity.
Qed.

Lemma connect_acts_none : forall (q : action -> bool) ev a svcs,
  (forall x, q (calloc x) = false) ->
  (forall x y, q (cb_call x y ev) = false) ->
  count_acts q (connect_acts ev a svcs) = 0%nat.
Proof.
  intros q ev a svcs H1 H2. revert a. unfold count_acts.
  induction svcs as [|s l IH]; intros a; simpl; [reflexivity|].
  now rewrite H1, H2, IH.
Qed.

(** X16.  On a connect event with [is_connected] set the dispatcher first
    requests the connection parameters, once and with the fixed values
    (latency 0, maximum interval 0x50, minimum interval 0x30, timeout 400)
    for the peer address of the event, and then restarts advertising exactly
    when the enable flag is set in the world as it is before any handler has
    run. *)
Theorem connect_params_and_advertising : forall m gif p,
  cn_is_connected p = true ->
  exists m' rest,
    esp32_bt_gatts_ev (ESP_GATTS_CONNECT_EVT p) gif m =
      Some (tt, m',
            esp_ble_gap_update_conn_params (cn_remote_bda p) 0 80 48 400 :: rest) /\
    count_acts is_update_conn_params rest = 0%nat /\
    count_acts is_start_advertising rest
      = (if adv_enable (world m) then 1%nat else 0%nat) /\
    (adv_enable (world m) = true ->
     exists rest', rest = esp_ble_gap_start_advertising :: rest').
Proof.
  intros m gif p H.
  destruct (connect_run m gif p H) as (m' & Hrun & _).
  eexists m', _. split; [exact Hrun|].
  rewrite !count_acts_app.
  change (calloc (heap_top m)
          :: connect_acts (ESP_GATTS_CONNECT_EVT p) (S (heap_top m)) (s_svcs m))
    with ([calloc (heap_top m)]
          ++ connect_acts (ESP_GATTS_CONNECT_EVT p) (S (heap_top m)) (s_svcs m)).
  rewrite !count_acts_app.
  rewrite !connect_acts_none by reflexivity.
  split; [|split].
  - now destruct (adv_enable (world m)).
  - now destruct (adv_enable (world m)).
  - intros E. rewrite E. eexists. reflexivity.
Qed.

(** ** Sessions along every run *)

(** X17.  In every reachable machine each connection holds at most one
    session per service: its sessions are bound to pairwise distinct
    entries of the service list and point back to the connection, so a
    connection never has more sessions than there are services, and
    different connections have different addresses. *)
Theorem reachable_sessions_consistent : forall m ce,
  reachable m -> In ce (s_conns m) ->
  NoDup (map (@se) (sessions ce)) /\
  (forall sse, In sse (sessions ce) ->
     bs_bc sse = ce_addr ce /\
     exists s, In s (s_svcs m) /\ se_addr s = se sse) /\
  (length (sessions ce) <= length (s_svcs m))%nat /\
  NoDup (map (@ce_addr) (s_conns m)).
Proof.
  intros m ce Hr Hin. destruct (reachable_wf m Hr) as [W1 W2 W3 W4].
  rewrite Forall_forall in W4. destruct (W4 ce Hin) as (_ & Hok & _ & Hnd).
  rewrite Forall_forall in Hok.
  assert (forall sse, In sse (sessions ce) -> In (se sse) (map se_addr (s_svcs m)))
    as Hsub by (intros sse Hs; now destruct (Hok sse Hs) as (_ & Hi & _)).
  split; [exact Hnd|]. split; [|split; [|exact W3]].
  - intros sse Hs. destruct (Hok sse Hs) as (Hb & Hi & _). split; [exact Hb|].
    apply in_map_iff in Hi. destruct Hi as (s & E & Hi). eauto.
  - rewrite <- (length_map (@se)), <- (length_map se_addr (s_svcs m)).
    apply NoDup_incl_length; [exact Hnd|].
    intros a Ha. apply in_map_iff in Ha. destruct Ha as (sse & E & Hs).
    subst a. now apply Hsub.
Qed.

Lemma bytes_eqb_eq : forall a b, bytes_eqb a b = true <-> a = b.
Proof.
  induction a as [|x a IH]; intros [|y b]; cbn [bytes_eqb];
    try (split; [reflexivity || discriminate|reflexivity || discriminate]).
  rewrite andb_true_iff, Z.eqb_eq, IH. split.
  - intros [-> ->]. reflexivity.
  - intros E. injection E as -> ->. split; reflexivity.
Qed.

Lemma find_first_split : forall A (p : A -> bool) (l : list A) x,
  find p l = Some x ->
  exists before after,
    l = before ++ x :: after /\ p x = true /\
    forall y, In y before -> p y = false.
Proof.
  intros A p l x. induction l as [|a l IH]; cbn [find]; [discriminate|].
  destruct (p a) eqn:Ea.
  - intros E. injection E as ->. exists [], l.
    split; [reflexivity|]. split; [exact Ea|]. intros y [].
  - intros E. destruct (IH E) as (before & after & -> & Hp & Hb).
    exists (a :: before), after. split; [reflexivity|]. split; [exact Hp|].
    intros y [<-|Hy]; [exact Ea|exact (Hb y Hy)].
Qed.

(** X26.  [find_service_by_uuid] returns the first service in list order
    whose first attribute has the length of the uuid and the same first
    [uuid_len] bytes; it returns nothing exactly when no service matches.
    Only those bytes of the uuid are compared: the rest of the union's
    storage has no influence on the service found. *)
Theorem find_service_by_uuid_first : forall svcs u,
  (forall s, find_service_by_uuid svcs u = Some s ->
     exists before after,
       svcs = before ++ s :: after /\
       att_length (svc_descr s) = uuid_len u /\
       firstn (uuid_len u) (att_value (svc_descr s))
       = firstn (uuid_len u) (uuid_bytes u) /\
       forall s', In s' before -> uuid_match s' u = false) /\
  (find_service_by_uuid svcs u = None <->
   forall s, In s svcs -> uuid_match s u = false) /\
  (forall u', uuid_len u' = uuid_len u ->
     firstn (uuid_len u) (uuid_bytes u') = firstn (uuid_len u) (uuid_bytes u) ->
     find_service_by_uuid svcs u' = find_service_by_uuid svcs u).
Proof.
  intros svcs u. split; [|split].
  - intros s Hf. unfold find_service_by_uuid in Hf.
    destruct (find_first_split _ _ svcs s Hf) as (before & after & E & Hm & Hb).
    exists before, after. split; [exact E|].
    unfold uuid_match in Hm. apply andb_true_iff in Hm. destruct Hm as [Hl Hv].
    apply Nat.eqb_eq in Hl. apply bytes_eqb_eq in Hv.
    split; [exact Hl|]. split; [exact Hv|exact Hb].
  - unfold find_service_by_uuid. split.
    + intros Hf s Hin. exact (find_none _ _ Hf s Hin).
    + intros Hall. induction svcs as [|a l IH]; [reflexivity|].
      cbn [find]. rewrite (Hall a (or_introl eq_refl)).
      apply IH. intros s Hin. apply Hall. right. exact Hin.
  - intros u' Hl Hv. unfold find_service_by_uuid.
    induction svcs as [|a l IH]; [reflexivity|].
    cbn [find]. unfold uuid_match at 1 3. rewrite Hl, Hv.
    destruct (_ && _); [reflexivity|exact IH].
Qed.

(** ** The heap along a run *)

Lemma is_live_In : forall a live, is_live a live = true <-> In a live.
Proof.
  intros a live. unfold is_live. rewrite existsb_exists. split.
  - intros (x & Hx & E). apply Nat.eqb_eq in E. now subst x.
  - intros H. exists a. split; [exact H|apply Nat.eqb_refl].
Qed.

Lemma release_In : forall a live x,
  In x (release a live) <-> In x live /\ x <> a.
Proof.
  intros a live x. unfold release.
  rewrite filter_In, negb_true_iff, Nat.eqb_neq. tauto.
Qed.

Lemma release_all_In : forall rs live x,
  In x (release_all rs live) <-> In x live /\ ~ In x rs.
Proof.
  induction rs as [|a rs IH]; intros live x; cbn [release_all In].
  - tauto.
  - rewrite IH, release_In. split.
    + intros ((H1 & H2) & H3). split; [exact H1|]. intros [E|E]; [now subst|tauto].
    + intros (H1 & H2). split; [split; [exact H1|]|]; intuition congruence.
Qed.

Lemma release_all_NoDup : forall rs live,
  NoDup live -> NoDup (release_all rs live).
Proof.
  induction rs as [|a rs IH]; intros live H; cbn [release_all]; [exact H|].
  apply IH. now apply NoDup_filter.
Qed.

Lemma heap_after_app : forall a1 a2 live,
  heap_after (a1 ++ a2) live =
  match heap_after a1 live with
  | Some l => heap_after a2 l
  | None => None
  end.
Proof.
  induction a1 as [|a a1 IH]; intros a2 live; [reflexivity|].
  cbn [app heap_after].
  destruct a; try apply IH;
    match goal with
    | |- context [if ?c then _ else _] => destruct c
    end; try apply IH; reflexivity.
Qed.

Lemma heap_after_inert : forall acts live,
  Forall (fun a => touches_heap a = false) acts ->
  heap_after acts live = Some live.
Proof.
  intros acts live H. induction H as [|a l Ha Hl IH]; [reflexivity|].
  destruct a; try discriminate Ha; exact IH.
Qed.

Lemma requests_inert : forall gif (l : list esp32_bt_service_entry),
  Forall (fun a => touches_heap a = false) (map (table_request gif) l).
Proof.
  intros gif l. apply Forall_forall. intros a Ha.
  apply in_map_iff in Ha. destruct Ha as (s & <- & _). reflexivity.
Qed.

Lemma heap_after_calls : forall ev acts live,
  Forall (fun a => exists s b, a = cb_call s (Some b) ev /\
                               In s live /\ In b live) acts ->
  heap_after acts live = Some live.
Proof.
  intros ev acts live H. induction H as [|a l Ha Hl IH]; [reflexivity|].
  destruct Ha as (s & b & -> & Hs & Hb). cbn [heap_after].
  apply is_live_In in Hs. apply is_live_In in Hb. rewrite Hs, Hb. exact IH.
Qed.

Lemma heap_after_connect : forall ev svcs a rest live,
  (forall s, In s svcs -> In (se_addr s) live) ->
  heap_after (connect_acts ev a svcs ++ rest) live
  = heap_after rest (rev (seq a (length svcs)) ++ live).
Proof.
  intros ev svcs. induction svcs as [|s svcs IH]; intros a rest live H;
    [reflexivity|].
  cbn [connect_acts app heap_after length seq rev].
  assert (is_live (se_addr s) (a :: live) = true) as H1.
  { apply is_live_In. right. apply H. now left. }
  assert (is_live a (a :: live) = true) as H2.
  { apply is_live_In. now left. }
  rewrite H1, H2. cbn [andb].
  rewrite IH.
  - now rewrite <- app_assoc.
  - intros s' Hs'. right. apply H. now right.
Qed.

Lemma heap_after_disconnect : forall ev ss rest live,
  NoDup (map (@sse_addr) ss) ->
  (forall sse, In sse ss ->
     In (sse_addr sse) live /\ In (se sse) live /\
     ~ In (se sse) (map (@sse_addr) ss)) ->
  heap_after (disconnect_acts ev ss ++ rest) live
  = heap_after rest (release_all (map (@sse_addr) ss) live).
Proof.
  intros ev ss. induction ss as [|sse ss IH]; intros rest live Hn H;
    [reflexivity|].
  unfold disconnect_acts. cbn [flat_map map release_all].
  rewrite <- app_assoc. cbn [app heap_after].
  fold (disconnect_acts ev ss).
  destruct (H sse (or_introl eq_refl)) as (H1 & H2 & H3).
  apply is_live_In in H1. apply is_live_In in H2. rewrite H1, H2. cbn [andb].
  inversion Hn as [|? ? Hx Hn']; subst.
  apply IH; [exact Hn'|].
  intros sse' Hin. destruct (H sse' (or_intror Hin)) as (G1 & G2 & G3).
  cbn [map In] in G3.
  split; [|split].
  - apply release_In. split; [exact G1|].
    intros E. apply Hx. rewrite <- E. now apply in_map.
  - apply release_In. split; [exact G2|]. intros E. apply G3. now left.
  - intros E. apply G3. now right.
Qed.

Lemma NoDup_app_inv : forall A (l1 l2 : list A),
  NoDup (l1 ++ l2) ->
  NoDup l1 /\ NoDup l2 /\ forall a, In a l1 -> ~ In a l2.
Proof.
  intros A l1 l2 H. split; [now apply NoDup_app_remove_r in H|].
  split; [now apply NoDup_app_remove_l in H|].
  induction l1 as [|x l1 IH]; intros a Ha; [contradiction|].
  cbn [app] in H. inversion H as [|? ? Hx Hn]; subst.
  destruct Ha as [->|Ha].
  - intros Hin. apply Hx. apply in_or_app. now right.
  - now apply IH.
Qed.

Lemma NoDup_app_middle : forall A (l1 l2 l3 : list A),
  NoDup (l1 ++ l2 ++ l3) ->
  NoDup (l1 ++ l3) /\ NoDup l2 /\ forall a, In a (l1 ++ l3) -> ~ In a l2.
Proof.
  intros A l1 l2 l3 H.
  apply NoDup_app_inv in H. destruct H as (H1 & H23 & D1).
  apply NoDup_app_inv in H23. destruct H23 as (H2 & H3 & D2).
  split; [|split; [exact H2|]].
  - apply NoDup_app; [exact H1|exact H3|].
    intros a Ha Hb. apply (D1 a Ha). apply in_or_app. now right.
  - intros a Ha Hb. apply in_app_or in Ha. destruct Ha as [Ha|Ha].
    + apply (D1 a Ha). apply in_or_app. now left.
    + exact (D2 a Hb Ha).
Qed.

Lemma remove_first_split : forall A (p : A -> bool) (l : list A) x,
  find p l = Some x ->
  exists l1 l2, l = l1 ++ x :: l2 /\ remove_first p l = l1 ++ l2.
Proof.
  intros A p l x. induction l as [|a l IH]; cbn [find remove_first];
    [discriminate|].
  destruct (p a).
  - intros E. injection E as ->. now exists [], l.
  - intros E. destruct (IH E) as (l1 & l2 & -> & Hr).
    exists (a :: l1), l2. split; [reflexivity|]. cbn [app]. now rewrite Hr.
Qed.

Lemma conn_nodes_update_first : forall p v (l : list esp32_bt_connection_entry),
  flat_map conn_nodes (update_first p (set_mtu v) l) = flat_map conn_nodes l.
Proof.
  intros p v l. induction l as [|ce l IH]; [reflexivity|].
  cbn [update_first]. destruct (p ce); cbn [flat_map]; [reflexivity|].
  now rewrite IH.
Qed.

Lemma heap_ok_frame : forall m m' live,
  heap_ok m live -> nodes m' = nodes m ->
  (heap_top m <= heap_top m')%nat -> heap_ok m' live.
Proof.
  intros m m' live (H1 & H2 & H3 & H4) Hn Ht. unfold heap_ok. rewrite Hn.
  split; [exact H1|]. split; [|split; [exact H3|exact H4]].
  eapply Forall_impl; [|exact H2]. simpl. intros; lia.
Qed.

Lemma heap_ok_fresh : forall m live,
  heap_ok m live -> ~ In (heap_top m) live.
Proof.
  intros m live (_ & H2 & _) Hin.
  rewrite Forall_forall in H2. specialize (H2 _ Hin). lia.
Qed.

Lemma heap_ok_calloc : forall m m' live,
  heap_ok m live -> nodes m' = nodes m ->
  heap_top m' = S (heap_top m) -> heap_ok m' (heap_top m :: live).
Proof.
  intros m m' live H Hn Ht.
  pose proof (heap_ok_fresh m live H) as Hf.
  destruct H as (H1 & H2 & H3 & H4). unfold heap_ok. rewrite Hn, Ht.
  split; [now constructor|]. split; [|split; [exact H3|]].
  - constructor; [lia|]. eapply Forall_impl; [|exact H2]. simpl. intros; lia.
  - now apply incl_tl.
Qed.

Lemma nodes_frame : forall m m',
  s_conns m' = s_conns m -> map se_addr (s_svcs m') = map se_addr (s_svcs m) ->
  nodes m' = nodes m.
Proof. intros m m' Hc Hs. unfold nodes. now rewrite Hc, Hs. Qed.

Lemma mark_registered_addrs : forall svcs,
  map se_addr (map mark_registered svcs) = map se_addr svcs.
Proof.
  intros svcs. rewrite map_map. apply map_ext. intros s.
  unfold mark_registered. now destruct (registered s).
Qed.

Lemma heap_ok_register : forall m m' live,
  heap_ok m live -> s_conns m' = s_conns m ->
  map se_addr (s_svcs m') = heap_top m :: map se_addr (s_svcs m) ->
  heap_top m' = S (heap_top m) -> heap_ok m' (heap_top m :: live).
Proof.
  intros m m' live H Hc Hs Ht.
  pose proof (heap_ok_fresh m live H) as Hf.
  destruct H as (H1 & H2 & H3 & H4). unfold heap_ok, nodes in *.
  rewrite Hc, Hs, Ht.
  apply NoDup_app_inv in H3. destruct H3 as (N1 & N2 & D).
  split; [now constructor|]. split; [|split].
  - constructor; [lia|]. eapply Forall_impl; [|exact H2]. simpl. intros; lia.
  - apply NoDup_app; [exact N1| |].
    + constructor; [|exact N2]. intros Hin. apply Hf. apply H4.
      apply in_or_app. now right.
    + intros a Ha [E|Hb]; [|exact (D a Ha Hb)].
      subst a. apply Hf. apply H4. apply in_or_app. now left.
  - intros a Ha. apply in_app_or in Ha. destruct Ha as [Ha|[E|Ha]].
    + right. apply H4. apply in_or_app. now left.
    + now left.
    + right. apply H4. apply in_or_app. now right.
Qed.

Lemma heap_ok_connect : forall m m' live c,
  heap_ok m live -> s_svcs m' = s_svcs m ->
  s_conns m' =
    {| ce_addr := heap_top m; bc := c;
       sessions := rev (new_sessions (heap_top m) (S (heap_top m)) (s_svcs m)) |}
    :: s_conns m ->
  heap_top m' = (S (heap_top m) + length (s_svcs m))%nat ->
  heap_ok m' (rev (seq (S (heap_top m)) (length (s_svcs m))) ++ heap_top m :: live).
Proof.
  intros m m' live c H Hs Hc Ht.
  destruct H as (H1 & H2 & H3 & H4). unfold heap_ok.
  assert (nodes m' = (heap_top m :: rev (seq (S (heap_top m)) (length (s_svcs m))))
                     ++ nodes m) as Hn.
  { unfold nodes. rewrite Hc, Hs. cbn [flat_map]. unfold conn_nodes at 1.
    cbn [sessions ce_addr].
    rewrite map_rev, new_sessions_addrs. now rewrite <- app_assoc. }
  rewrite Hn, Ht. rewrite Forall_forall in H2.
  assert (forall x, In x (rev (seq (S (heap_top m)) (length (s_svcs m)))) ->
            (S (heap_top m) <= x < S (heap_top m) + length (s_svcs m))%nat) as Hseq.
  { intros x Hx. apply in_rev in Hx. now apply in_seq in Hx. }
  assert (forall x, In x (nodes m) -> (x < heap_top m)%nat) as Hlt.
  { intros x Hx. apply H2. now apply H4. }
  split; [|split; [|split]].
  - apply NoDup_app.
    + apply NoDup_rev. apply seq_NoDup.
    + constructor; [|exact H1]. intros Hin. specialize (H2 _ Hin). lia.
    + intros a Ha [E|Hb].
      * subst a. specialize (Hseq _ Ha). lia.
      * specialize (Hseq _ Ha). specialize (H2 _ Hb). lia.
  - apply Forall_forall. intros x Hx. apply in_app_or in Hx.
    destruct Hx as [Hx|[E|Hx]].
    + specialize (Hseq _ Hx). lia.
    + subst x. lia.
    + specialize (H2 _ Hx). lia.
  - apply NoDup_app.
    + constructor; [|apply NoDup_rev; apply seq_NoDup].
      intros Hin. specialize (Hseq _ Hin). lia.
    + exact H3.
    + intros a [E|Ha] Hb.
      * subst a. specialize (Hlt _ Hb). lia.
      * specialize (Hseq _ Ha). specialize (Hlt _ Hb). lia.
  - intros a Ha. apply in_app_or in Ha. destruct Ha as [[E|Ha]|Ha].
    + apply in_or_app. right. now left.
    + apply in_or_app. now left.
    + apply in_or_app. right. right. now apply H4.
Qed.

(** Handler calls of a read or a write concern a service on the list and a
    session of a connection on the list. *)
Lemma route_sessions_live : forall ev ce found l r m r' m' acts,
  route_sessions ev ce found l r m = Some (r', m', acts) ->
  Forall (fun a => exists s sse, found = Some s /\ In sse l /\
                     a = cb_call (se_addr s) (Some (sse_addr sse)) ev) acts.
Proof.
  intros ev ce found l. induction l as [|sse l IH]; intros r m r' m' acts H.
  - inversion H; subst. constructor.
  - cbn [route_sessions] in H.
    assert (forall r0 m0, route_sessions ev ce found l r0 m0 = Some (r', m', acts) ->
              Forall (fun a => exists s sse0, found = Some s /\ In sse0 (sse :: l) /\
                        a = cb_call (se_addr s) (Some (sse_addr sse0)) ev) acts) as Hrest.
    { intros r0 m0 H0. eapply Forall_impl; [|exact (IH _ _ _ _ _ H0)].
      intros a (s & sse0 & E1 & E2 & E3). exists s, sse0.
      split; [exact E1|]. split; [now right|exact E3]. }
    destruct found as [s|]; [|eauto].
    destruct (Nat.eqb (se sse) (se_addr s)); [|eauto].
    apply bind_inv in H. destruct H as (a & m1 & l1 & l2 & Hc & Hk & Hl).
    rewrite call_cb_run in Hc. inversion Hc; subst.
    constructor.
    + exists s, sse. split; [reflexivity|]. split; [now left|reflexivity].
    + pose proof (IH _ _ _ _ _ Hk) as Hk'.
      eapply Forall_impl; [|exact Hk'].
      intros a (s0 & sse0 & E1 & E2 & E3). exists s0, sse0.
      split; [exact E1|]. split; [now right|exact E3].
Qed.

Lemma route_access_live : forall ev gif cid h m r m' acts,
  route_access ev gif cid h m = Some (r, m', acts) ->
  Forall (fun a => exists s b, a = cb_call s (Some b) ev /\
                               In s (nodes m) /\ In b (nodes m)) acts.
Proof.
  intros ev gif cid h m r m' acts H. unfold route_access in H.
  unfold bind at 1 in H. unfold get at 1 in H.
  destruct (find_connection (s_conns m) gif cid) as [ce|] eqn:Ec.
  - destruct (find_service_by_attr_handle (s_svcs m) h) as [found|] eqn:Ef;
      [|discriminate].
    destruct (route_sessions ev ce found (sessions ce) false m)
      as [[[r0 m0] l0]|] eqn:E; [|discriminate].
    inversion H; subst. cbn [app]. rewrite app_nil_l || idtac.
    apply route_sessions_live in E.
    eapply Forall_impl; [|exact E].
    intros a (s & sse & E1 & E2 & E3). subst found.
    apply find_service_by_attr_handle_owner in Ef. destruct Ef as (Hs & _).
    apply find_some in Ec. destruct Ec as (Hce & _).
    exists (se_addr s), (sse_addr sse). split; [exact E3|]. unfold nodes. split.
    + apply in_or_app. right. now apply in_map.
    + apply in_or_app. left. apply in_flat_map. exists ce.
      split; [exact Hce|]. right. now apply in_map.
  - inversion H; subst. constructor.
Qed.

Lemma heap_after_access : forall ev m live calls rsp,
  heap_ok m live ->
  Forall (fun a => exists s b, a = cb_call s (Some b) ev /\
                               In s (nodes m) /\ In b (nodes m)) calls ->
  Forall (fun a => touches_heap a = false) rsp ->
  heap_after (calls ++ rsp) live = Some live.
Proof.
  intros ev m live calls rsp (_ & _ & _ & Hi) Hc Hr.
  rewrite heap_after_app, (heap_after_calls ev).
  - now apply heap_after_inert.
  - eapply Forall_impl; [|exact Hc].
    intros a (s & b & E & Hs & Hb). exists s, b. auto.
Qed.

Lemma reg_evt_heap_top : forall m st aid gif m' acts,
  esp32_bt_gatts_ev (ESP_GATTS_REG_EVT st aid) gif m = Some (tt, m', acts) ->
  heap_top m' = heap_top m.
Proof.
  intros m st aid gif m' acts H. unfold esp32_bt_gatts_ev in H.
  unfold bind at 1 in H. unfold emit at 1 in H.
  unfold bind at 1 in H. unfold emit at 1 in H.
  unfold bind at 1 in H. unfold modify at 1 in H.
  rewrite register_services_run in H.
  cbn [set_gatts_registered s_gatts_registered s_gatts_if s_svcs app] in H.
  inversion H; subst. reflexivity.
Qed.

Lemma disconnect_heap : forall p gif m m' acts live,
  wf m -> heap_ok m live ->
  esp32_bt_gatts_ev (ESP_GATTS_DISCONNECT_EVT p) gif m = Some (tt, m', acts) ->
  exists live', heap_after acts live = Some live' /\ heap_ok m' live'.
Proof.
  intros p gif m m' acts live Hw Hok H.
  destruct (find_connection (s_conns m) gif (dc_conn_id p)) as [ce|] eqn:E.
  - assert (In ce (s_conns m)) as Hin by (apply find_some in E; tauto).
    pose proof (wf_sessions_valid m ce Hw Hin) as Hv.
    destruct (disconnect_run m gif p ce E Hv)
      as (m2 & Hr & S1 & S2 & _ & _ & S5).
    rewrite Hr in H. inversion H; subst m2 acts. clear H.
    unfold find_connection in E.
    destruct (remove_first_split _ _ _ _ E) as (l1 & l2 & Hl & Hrm).
    destruct Hok as (H1 & H2 & H3 & H4).
    assert (nodes m = flat_map conn_nodes l1
                      ++ conn_nodes ce
                      ++ (flat_map conn_nodes l2 ++ map se_addr (s_svcs m))) as Hn.
    { unfold nodes. rewrite Hl, flat_map_app. cbn [flat_map].
      now rewrite <- !app_assoc. }
    assert (nodes m' = flat_map conn_nodes l1
                       ++ (flat_map conn_nodes l2 ++ map se_addr (s_svcs m))) as Hn'.
    { unfold nodes. rewrite S1, S2, Hrm, flat_map_app. now rewrite <- app_assoc. }
    rewrite Hn in H3. apply NoDup_app_middle in H3.
    destruct H3 as (N1 & N2 & D).
    unfold conn_nodes in N2. inversion N2 as [|? ? Nc Ns]; subst.
    assert (forall x, In x (conn_nodes ce) -> In x live) as Hcl.
    { intros x Hx. apply H4. rewrite Hn. apply in_or_app. right.
      apply in_or_app. now left. }
    assert (forall x, In x (map se_addr (s_svcs m)) ->
              In x live /\ ~ In x (conn_nodes ce)) as Hsv.
    { intros x Hx. split.
      - apply H4. unfold nodes. apply in_or_app. now right.
      - apply D. apply in_or_app. right. apply in_or_app. now right. }
    exists (release (ce_addr ce)
              (release_all (map (@sse_addr) (sessions ce)) live)).
    split.
    + rewrite <- app_assoc.
      rewrite heap_after_disconnect.
      * cbn [app heap_after].
        assert (is_live (ce_addr ce)
                  (release_all (map (@sse_addr) (sessions ce)) live) = true) as Hc.
        { apply is_live_In. apply release_all_In. split; [|exact Nc].
          apply Hcl. now left. }
        rewrite Hc. apply heap_after_inert.
        destruct (adv_enable (world m')); repeat constructor.
      * exact Ns.
      * intros sse Hs. rewrite Forall_forall in Hv. specialize (Hv sse Hs).
        destruct (Hsv _ Hv) as (G1 & G2).
        split; [|split; [exact G1|]].
        -- apply Hcl. right. now apply in_map.
        -- intros G. apply G2. now right.
    + unfold heap_ok. rewrite Hn', S5.
      split; [apply NoDup_filter; now apply release_all_NoDup|].
      split; [|split; [exact N1|]].
      * apply Forall_forall. intros x Hx. apply release_In in Hx.
        destruct Hx as (Hx & _). apply release_all_In in Hx.
        rewrite Forall_forall in H2. apply H2. tauto.
      * intros x Hx. apply release_In. split.
        -- apply release_all_In. split.
           ++ apply H4. rewrite Hn. apply in_app_or in Hx.
              apply in_or_app. destruct Hx as [Hx|Hx]; [now left|].
              right. apply in_or_app. now right.
           ++ intros G. apply (D x Hx). now right.
        -- intros G. apply (D x Hx). left. now rewrite G.
  - rewrite disconnect_miss_run in H by exact E. inversion H; subst.
    exists live. split; [|exact Hok].
    apply heap_after_inert. destruct (adv_enable (world m')); repeat constructor.
Qed.

Lemma creat_attr_tab_heap : forall p gif m m' acts live,
  heap_ok m live ->
  esp32_bt_gatts_ev (ESP_GATTS_CREAT_ATTR_TAB_EVT p) gif m = Some (tt, m', acts) ->
  exists live', heap_after acts live = Some live' /\ heap_ok m' live'.
Proof.
  intros p gif m m' acts live Hok H.
  destruct (creat_attr_tab_evt_effect _ _ _ _ _ H)
    as [(-> & ->)|(s & svch & rest & Ef & Et & Ha & S1 & S2 & _)].
  - exists live. split; [reflexivity|exact Hok].
  - destruct (Z.eq_dec (tab_status p) 0) as [E0|E0].
    2:{ rewrite creat_attr_tab_ignored in H by (left; exact E0).
        inversion H; subst. discriminate. }
    destruct (Nat.eq_dec (num_attrs s) (length (tab_handles p))) as [En|En].
    2:{ rewrite creat_attr_tab_ignored in H by (right; right; eauto).
        inversion H; subst. discriminate. }
    destruct (creat_attr_tab_run m gif p s svch rest E0 Ef En Et)
      as (m2 & Hr & _ & _ & _ & _ & S6).
    rewrite Hr in H. inversion H; subst m2. clear H.
    exists (heap_top m :: live). split.
    + subst acts. cbn [heap_after].
      assert (is_live (se_addr s) (heap_top m :: live) = true) as Hl.
      { apply is_live_In. right. destruct Hok as (_ & _ & _ & H4). apply H4.
        unfold nodes. apply in_or_app. right. apply in_map.
        unfold find_service_by_uuid in Ef. apply find_some in Ef. tauto. }
      now rewrite Hl.
    + apply (heap_ok_calloc m m' live Hok); [|exact S6].
      apply nodes_frame; [exact S2|]. rewrite S1.
      apply update_first_map. reflexivity.
Qed.

Lemma step_heap : forall i m m' acts live,
  wf m -> heap_ok m live ->
  step i m = Some (tt, m', acts) ->
  exists live', heap_after acts live = Some live' /\ heap_ok m' live'.
Proof.
  intros i m m' acts live Hw Hok H.
  destruct i as [d n h mem|ev gif|ev|w]; simpl in H.
  - apply bind_inv in H. destruct H as (b & m1 & l1 & l2 & Hc & Hk & Hl).
    inversion Hk; subst m1 l2. clear Hk. subst acts. rewrite app_nil_r.
    destruct h as [f|]; [destruct mem|].
    2,3: inversion Hc; subst; exists live; split; [reflexivity|exact Hok].
    rewrite register_service_run in Hc. inversion Hc; subst m' l1. clear Hc.
    exists (heap_top m :: live). split.
    + cbn [heap_after]. apply heap_after_inert.
      destruct (s_gatts_registered m); [|constructor].
      first [apply requests_inert
            |constructor; [reflexivity|apply requests_inert]].
    + apply (heap_ok_register m _ live Hok);
        destruct (s_gatts_registered m);
        cbn [set_svcs bump_heap s_svcs s_conns heap_top]; try reflexivity.
      cbn [map]. rewrite mark_registered_addrs. reflexivity.
  - destruct ev;
      try (inversion H; subst; exists live; split; [reflexivity|exact Hok]).
    + pose proof (reg_evt_heap_top _ _ _ _ _ _ H) as Ht.
      destruct (reg_evt_run m status app_id gif)
        as (m1 & Hr & Hs & _ & _ & _ & _ & Hc).
      rewrite Hr in H. inversion H; subst m1 acts.
      exists live. split.
      * cbn [heap_after]. apply heap_after_inert. apply requests_inert.
      * apply (heap_ok_frame m m' live Hok); [|lia].
        apply nodes_frame; [exact Hc|]. rewrite Hs. apply mark_registered_addrs.
    + exists live. split.
      * unfold esp32_bt_gatts_ev in H.
        destruct (negb (rd_need_rsp p)); [inversion H; subst; reflexivity|].
        apply bind_inv in H. destruct H as (r & m1 & l1 & l2 & Hc & Hk & Hl).
        subst acts. apply route_access_live in Hc.
        apply (heap_after_access _ m live l1 l2 Hok Hc).
        destruct (negb r); inversion Hk; subst; repeat constructor.
      * destruct (read_evt_frame _ _ _ _ _ H) as ((S1 & S2 & _) & S3).
        apply (heap_ok_frame m m' live Hok); [|lia].
        apply nodes_frame; [exact S2|now rewrite S1].
    + exists live. split.
      * unfold esp32_bt_gatts_ev in H.
        destruct (negb (wr_need_rsp p)); [inversion H; subst; reflexivity|].
        apply bind_inv in H. destruct H as (r & m1 & l1 & l2 & Hc & Hk & Hl).
        subst acts. apply route_access_live in Hc.
        apply (heap_after_access _ m live l1 l2 Hok Hc).
        inversion Hk; subst; repeat constructor.
      * destruct (write_evt_frame _ _ _ _ _ H) as ((S1 & S2 & _) & S3).
        apply (heap_ok_frame m m' live Hok); [|lia].
        apply nodes_frame; [exact S2|now rewrite S1].
    + rewrite mtu_evt_run in H. inversion H; subst. exists live.
      split; [reflexivity|].
      apply (heap_ok_frame m _ live Hok); [|cbn [set_conns heap_top]; lia].
      unfold nodes. cbn [set_conns s_conns s_svcs].
      now rewrite conn_nodes_update_first.
    + destruct (cn_is_connected p) eqn:E.
      * destruct (connect_run m gif p E) as (m1 & Hr & S1 & S2 & _ & _ & S5 & _).
        rewrite Hr in H. inversion H; subst m1 acts. clear H.
        exists (rev (seq (S (heap_top m)) (length (s_svcs m))) ++ heap_top m :: live).
        split; [|exact (heap_ok_connect m m' live _ Hok S1 S2 S5)].
        cbn [app heap_after]. rewrite !heap_after_app.
        rewrite heap_after_inert
          by (destruct (adv_enable (world m)); repeat constructor).
        cbn [heap_after]. rewrite <- (app_nil_r (connect_acts _ _ _)).
        rewrite heap_after_connect.
        -- cbn [heap_after].
           assert (is_live (heap_top m)
                     (rev (seq (S (heap_top m)) (length (s_svcs m)))
                      ++ heap_top m :: live) = true) as Hl.
           { apply is_live_In. apply in_or_app. right. now left. }
           now rewrite Hl.
        -- intros s Hs. right. destruct Hok as (_ & _ & _ & H4). apply H4.
           unfold nodes. apply in_or_app. right. now apply in_map.
      * unfold esp32_bt_gatts_ev in H. rewrite E in H. inversion H; subst.
        exists live. split; [reflexivity|exact Hok].
    + exact (disconnect_heap _ _ _ _ _ _ Hw Hok H).
    + exact (creat_attr_tab_heap _ _ _ _ _ _ Hok H).
  - exists live. destruct ev; inversion H; subst; split;
      try reflexivity; exact Hok.
  - inversion H; subst. exists live. split; [reflexivity|].
    apply (heap_ok_frame m _ live Hok); [reflexivity|cbn [set_world heap_top]; lia].
Qed.

Lemma run_log_heap : forall l m live m' acts,
  inv m -> heap_ok m live ->
  run_log l m = Some (m', acts) ->
  exists live', heap_after acts live = Some live' /\ heap_ok m' live'.
Proof.
  induction l as [|i l IH]; intros m live m' acts Hi Hok H; cbn [run_log] in H.
  - inversion H; subst. exists live. split; [reflexivity|exact Hok].
  - destruct (stack_may_deliver m i) eqn:Ed; [|discriminate].
    destruct (step i m) as [[[[] m1] a1]|] eqn:Es; [|discriminate].
    destruct (run_log l m1) as [[m2 a2]|] eqn:Er; [|discriminate].
    inversion H; subst m2 acts. clear H.
    destruct (step_heap i m m1 a1 live (proj1 Hi) Hok Es) as (live1 & Ha & Hok1).
    pose proof (step_inv i m m1 a1 Hi Ed Es) as Hi1.
    destruct (IH m1 live1 m' a2 Hi1 Hok1 Er) as (live2 & Hb & Hok2).
    exists live2. split; [|exact Hok2].
    now rewrite heap_after_app, Ha.
Qed.

(** X27.  Memory safety of the two lists along every run from the initial
    state.  Read as a trace of the heap, the log never frees a block that
    is not allocated at that point (so nothing is freed twice), and never
    links, unlinks or hands to a handler a service, connection or session
    entry that is not allocated.  At the end the entries on the service and
    connection lists are pairwise distinct blocks, all still allocated. *)
Theorem run_heap_safe : forall l w m acts,
  run_log l (init w) = Some (m, acts) ->
  exists live,
    heap_after acts [] = Some live /\
    NoDup live /\ NoDup (nodes m) /\ incl (nodes m) live.
Proof.
  intros l w m acts H.
  assert (heap_ok (init w) []) as Hok.
  { unfold heap_ok, nodes. cbn [init s_conns s_svcs flat_map map app].
    repeat split; try constructor. intros a []. }
  destruct (run_log_heap l (init w) [] m acts (init_inv w) Hok H)
    as (live & Ha & H1 & _ & H3 & H4).
  exists live. auto.
Qed.

(** ** Where the dispatcher faults *)











End Dispatcher.

(** * The statements on the sample session *)

Ltac sample_nodup :=
  repeat (constructor; [simpl; intuition discriminate|]); constructor.

Ltac sample_session_ok :=
  unfold session_ok; simpl;
  split; [reflexivity|split; [auto|split; [lia|discriminate]]].

Ltac sample_conn_ok :=
  unfold conn_ok; simpl;
  split; [lia|split;
    [repeat (constructor; [sample_session_ok|]); constructor
    |split; sample_nodup]].

Ltac sample_wf :=
  constructor; simpl;
  [ sample_nodup
  | repeat (constructor; [lia|]); constructor
  | sample_nodup
  | repeat (constructor; [sample_conn_ok|]); constructor ].

(** The sample machines are what the program reaches on the scripts. *)
Lemma sample_session_runs :
  run flag_world 23 (firstn 3 (session_script bool)) (init true)
    = Some (sample_requested true) /\
  run flag_world 23 (firstn 5 (session_script bool)) (init true)
    = Some (sample_started true) /\
  run flag_world 23 (session_script bool) (init true)
    = Some (sample_connected 23 true) /\
  run flag_world 23 (refused_script bool) (init true)
    = Some (sample_refused 23 true).
Proof. repeat split. Qed.

Lemma sample_requested_reachable : reachable flag_world 23 (sample_requested true).
Proof.
  apply (run_reachable bool flag_world 23 (firstn 3 (session_script bool)) (init true)).
  - apply reachable_init.
  - reflexivity.
Qed.



Lemma disconnect_unknown_noop_witness :
  find_connection (s_conns (sample_connected 23 true)) 3 9 = None /\
  exists acts,
    esp32_bt_gatts_ev flag_world 23 (ESP_GATTS_DISCONNECT_EVT stranger_disconnect) 3
      (sample_connected 23 true) = Some (tt, sample_connected 23 true, acts) /\
    count_acts is_cb_call acts = 0%nat.
Proof.
  split; [reflexivity|].
  destruct (disconnect_unknown_noop bool flag_world 23 (sample_connected 23 true) 3
              stranger_disconnect eq_refl) as (acts & Hrun & Hn & _).
  exists acts. auto.
Defined.

Lemma connect_not_connected_ignored_witness :
  cn_is_connected peer_not_connected = false /\
  esp32_bt_gatts_ev flag_world 23 (ESP_GATTS_CONNECT_EVT peer_not_connected) 3
    (sample_started true) = Some (tt, sample_started true, []).
Proof.
  split; [reflexivity|].
  apply (connect_not_connected_ignored bool flag_world 23). reflexivity.
Defined.

Lemma creat_attr_tab_dispatch_witness :
  esp32_bt_gatts_ev flag_world 23 (ESP_GATTS_CREAT_ATTR_TAB_EVT heart_rate_tab_failed) 3
    (sample_requested true) = Some (tt, sample_requested true, []) /\
  exists (m' : machine bool),
    esp32_bt_gatts_ev flag_world 23 (ESP_GATTS_CREAT_ATTR_TAB_EVT heart_rate_tab) 3
      (sample_requested true)
    = Some (tt, m',
            [calloc 3%nat;
             cb_call 1%nat None (ESP_GATTS_CREAT_ATTR_TAB_EVT heart_rate_tab);
             esp_ble_gatts_start_service 40]) /\
    s_svcs m' = [battery bool true None; heart_rate bool true (Some [40; 41; 42])].
Proof.
  split.
  - apply (creat_attr_tab_dispatch bool flag_world 23). left. discriminate.
  - destruct (creat_attr_tab_dispatch bool flag_world 23 (sample_requested true) 3
                heart_rate_tab) as (_ & H).
    destruct (H (heart_rate bool true None) 40 [41; 42]
                eq_refl eq_refl eq_refl eq_refl)
      as (m' & l1 & l2 & Hrun & Hl & Hn & Hs & _).
    exists m'. split; [exact Hrun|].
    destruct l1 as [|x l1]; [discriminate|].
    destruct l1 as [|y l1]; [|destruct l1; discriminate].
    inversion Hl; subst. exact Hs.
Defined.

(** C6, as stated, fails: after a service with no attribute has registered
    and the stack has registered the application, the table-created event
    with status 0, the uuid of that service and no handle meets none of the
    three conditions for being dropped (the handle count, 0, is the
    attribute count), yet the service is not started: the handler is
    called and then [attr_handles[0]] is read from a table of no entry. *)
Lemma empty_table_event_not_started :
  ~ (forall (m : machine bool) gif p s,
       reachable flag_world 23 m ->
       tab_status p = 0 ->
       find_service_by_uuid (s_svcs m) (tab_svc_uuid p) = Some s ->
       num_attrs s = length (tab_handles p) ->
       exists (m' : machine bool) acts,
         esp32_bt_gatts_ev flag_world 23 (ESP_GATTS_CREAT_ATTR_TAB_EVT p) gif m
           = Some (tt, m', acts) /\
         count_acts is_cb_call acts = 1%nat /\
         count_acts is_start_service acts = 1%nat).
Proof.
  intros H.
  assert (exists m : machine bool,
            run flag_world 23 (bare_script bool) (init true) = Some m)
    as (m & Hm) by (eexists; reflexivity).
  assert (reachable flag_world 23 m) as Hr.
  { apply (run_reachable bool flag_world 23 (bare_script bool) (init true));
      [apply reachable_init|exact Hm]. }
  injection Hm as <-.
  destruct (H _ 3 bare_tab _ Hr eq_refl eq_refl eq_refl) as (m' & acts & E & _).
  discriminate E.
Qed.

Lemma creat_attr_tab_replay_witness :
  tab_status heart_rate_tab = 0 /\
  find_service_by_uuid (s_svcs (sample_started true)) (tab_svc_uuid heart_rate_tab)
    = Some (heart_rate bool true (Some [40; 41; 42])) /\
  exists (m' : machine bool),
    esp32_bt_gatts_ev flag_world 23 (ESP_GATTS_CREAT_ATTR_TAB_EVT heart_rate_tab) 3
      (sample_started true)
    = Some (tt, m',
            [calloc 5%nat;
             cb_call 1%nat None (ESP_GATTS_CREAT_ATTR_TAB_EVT heart_rate_tab);
             esp_ble_gatts_start_service 40]) /\
    s_svcs m' = s_svcs (sample_started true).
Proof.
  split; [reflexivity|split; [reflexivity|]].
  destruct (creat_attr_tab_replay bool flag_world 23 (sample_started true) 3
              heart_rate_tab (heart_rate bool true (Some [40; 41; 42])) 40 [41; 42]
              [40; 41; 42] eq_refl eq_refl eq_refl eq_refl eq_refl eq_refl)
    as (m' & l1 & l2 & Hrun & _ & _ & _ & Hs & _).
  exists m'. split; [exact Hrun|]. exact (Hs eq_refl).
Defined.

(** C7, as stated, fails: on the machine whose heart-rate service already
    holds the handles 40, 41, 42, the same table-created event is not
    guarded against; the handler is called and the service started again. *)
Lemma replayed_table_event_not_guarded :
  ~ (forall (m' : machine bool) acts,
       esp32_bt_gatts_ev flag_world 23 (ESP_GATTS_CREAT_ATTR_TAB_EVT heart_rate_tab) 3
         (sample_started true) = Some (tt, m', acts) ->
       count_acts is_cb_call acts = 0%nat /\
       count_acts is_start_service acts = 0%nat).
Proof.
  intros H. destruct (H _ _ eq_refl) as (Hc & _). discriminate Hc.
Qed.

Lemma service_handles_invariant_witness :
  reachable flag_world 23 (sample_requested true) /\
  In (heart_rate bool true None) (s_svcs (sample_requested true)) /\
  attr_handles (heart_rate bool true None) = None.
Proof.
  assert (reachable flag_world 23 (sample_requested true)) as Hr.
  { apply (run_reachable bool flag_world 23 (firstn 3 (session_script bool)) (init true)).
    - apply reachable_init.
    - reflexivity. }
  assert (In (heart_rate bool true None) (s_svcs (sample_requested true))) as Hin.
  { simpl. auto. }
  split; [exact Hr|split; [exact Hin|]].
  destruct (service_handles_invariant bool flag_world 23 (sample_requested true)
              (heart_rate bool true None) Hr Hin) as ([Hn|(hs & Hs & _)] & _).
  - exact Hn.
  - discriminate Hs.
Defined.

(** C8, as stated, fails: after the services have registered and the stack
    has registered the application, the heart-rate service is marked
    [registered] and has three attributes, but no handle yet. *)
Lemma registered_without_handles :
  ~ (forall (m : machine bool) s,
       reachable flag_world 23 m -> In s (s_svcs m) ->
       (registered s = true -> length (handle_table s) = num_attrs s) /\
       (registered s = false -> handle_table s = [])).
Proof.
  intros H.
  destruct (H (sample_requested true) (heart_rate bool true None)
              sample_requested_reachable (or_intror (or_introl eq_refl)))
    as (Hl & _).
  specialize (Hl eq_refl). discriminate Hl.
Qed.

Lemma advertising_restart_witness :
  wf (sample_connected 23 true) /\
  exists (m' : machine bool) acts,
    esp32_bt_gatts_ev flag_world 23 (ESP_GATTS_DISCONNECT_EVT peer_disconnect) 3
      (sample_connected 23 true) = Some (tt, m', acts) /\
    count_acts is_start_advertising acts = (if flag_world (world m') then 1 else 0)%nat.
Proof.
  assert (wf (sample_connected 23 true)) as Hw by sample_wf.
  split; [exact Hw|].
  destruct (advertising_restart bool flag_world 23 (sample_connected 23 true) 3
              peer_disconnect Hw) as (H & _).
  exact H.
Defined.

(** C9, as stated, fails for the advertising-stop event: with the flag set,
    the GAP callback issues no advertising start. *)
Lemma adv_stop_does_not_restart :
  ~ (forall (m m' : machine bool) acts,
       esp32_bt_gap_ev ESP_GAP_BLE_ADV_STOP_COMPLETE_EVT m = Some (tt, m', acts) ->
       (count_acts is_start_advertising acts = 1%nat <-> flag_world (world m') = true)).
Proof.
  intros H.
  destruct (H (sample_started true) (sample_started true) [] eq_refl) as (_ & Hs).
  specialize (Hs eq_refl). discriminate Hs.
Qed.

(** C2 at the failing input.  The program reaches [sample_refused] when the
    stack refuses the table of the only service and a peer connects.  A read
    that needs a response then makes [find_service_by_attr_handle] index the
    null handle table of that service ([num_attrs] is 3): the dispatcher
    faults, and sends no response. *)
Theorem read_evt_null_table_fault :
  run flag_world 23 (refused_script bool) (init true) = Some (sample_refused 23 true) /\
  find_connection (s_conns (sample_refused 23 true)) 3 (rd_conn_id peer_read)
    = hd_error (s_conns (sample_refused 23 true)) /\
  find_service_by_attr_handle (s_svcs (sample_refused 23 true)) (rd_handle peer_read) = None /\
  esp32_bt_gatts_ev flag_world 23 (ESP_GATTS_READ_EVT peer_read) 3
    (sample_refused 23 true) = None.
Proof. repeat split. Qed.

(** C3 at the failing input: the same machine and a write that needs a
    response; the same null handle table is indexed, no reply is sent. *)
Theorem write_evt_null_table_fault :
  run flag_world 23 (refused_script bool) (init true) = Some (sample_refused 23 true) /\
  find_connection (s_conns (sample_refused 23 true)) 3 (wr_conn_id peer_write)
    = hd_error (s_conns (sample_refused 23 true)) /\
  find_service_by_attr_handle (s_svcs (sample_refused 23 true)) (wr_handle peer_write) = None /\
  esp32_bt_gatts_ev flag_world 23 (ESP_GATTS_WRITE_EVT peer_write) 3
    (sample_refused 23 true) = None.
Proof. repeat split. Qed.

(** Read and write on the sample session, where every table is in place:
    the read is left to the handler, the write is answered "ok". *)
Lemma sample_access_routed :
  (exists (m' : machine bool),
     esp32_bt_gatts_ev flag_world 23 (ESP_GATTS_READ_EVT peer_read) 3
       (sample_connected 23 true)
     = Some (tt, m', [cb_call 1%nat (Some 7%nat) (ESP_GATTS_READ_EVT peer_read)])) /\
  (exists (m' : machine bool),
     esp32_bt_gatts_ev flag_world 23 (ESP_GATTS_WRITE_EVT peer_write) 3
       (sample_connected 23 true)
     = Some (tt, m', [cb_call 1%nat (Some 7%nat) (ESP_GATTS_WRITE_EVT peer_write);
                      esp_ble_gatts_send_response 3 0 78 ESP_GATT_OK])).
Proof. split; eexists; reflexivity. Qed.

(** * Formatting *)

Lemma digits_length : forall b n v, length (digits b n v) = n.
Proof.
  intros b n v. unfold digits. now rewrite length_map, length_rev, length_seq.
Qed.

Lemma digits_S : forall b n v,
  digits b (S n) v = Z.to_nat ((v / b ^ Z.of_nat n) mod b) :: digits b n v.
Proof.
  intros b n v. unfold digits. rewrite seq_S, rev_app_distr. reflexivity.
Qed.

(** The digits above the size of the number are zeros. *)
Lemma digits_high_zero : forall b k n v,
  1 < b -> 0 <= v < b ^ Z.of_nat k -> (k <= n)%nat ->
  digits b n v = repeat O (n - k) ++ digits b k v.
Proof.
  intros b k n v Hb Hv. induction n as [|n IH]; intros Hk.
  - assert (k = 0%nat) by lia. subst k. reflexivity.
  - destruct (Nat.eq_dec k (S n)) as [E|E].
    + subst k. now rewrite Nat.sub_diag.
    + assert (k <= n)%nat as Hle by lia.
      rewrite digits_S, (IH Hle).
      replace (S n - k)%nat with (S (n - k)) by lia. cbn [repeat app].
      f_equal. rewrite Z.div_small; [reflexivity|].
      split; [lia|]. apply Z.lt_le_trans with (b ^ Z.of_nat k); [lia|].
      apply Z.pow_le_mono_r; lia.
Qed.

Lemma strip_zeros_length : forall l, (length (strip_zeros l) <= length l)%nat.
Proof.
  induction l as [|x l IH]; simpl; [lia|].
  destruct x; [|simpl; lia]. destruct l; simpl in *; lia.
Qed.

Lemma strip_zeros_repeat : forall k l,
  l <> [] -> strip_zeros (repeat O k ++ l) = strip_zeros l.
Proof.
  induction k as [|k IH]; intros l Hl; [reflexivity|].
  cbn [repeat app strip_zeros].
  destruct (repeat O k ++ l) eqn:E; [|rewrite <- E; now apply IH].
  destruct k; simpl in E; [contradiction|discriminate].
Qed.

(** Padding gives back the zeros that stripping took. *)
Lemma pad_strip_zeros : forall l,
  l <> [] -> pad_zeros (length l) (strip_zeros l) = l.
Proof.
  induction l as [|x l IH]; intros Hl; [contradiction|].
  destruct x as [|x].
  - destruct l as [|y l]; [reflexivity|].
    change (strip_zeros (O :: y :: l)) with (strip_zeros (y :: l)).
    pose proof (strip_zeros_length (y :: l)) as Hle.
    specialize (IH ltac:(discriminate)).
    unfold pad_zeros in *.
    remember (strip_zeros (y :: l)) as t eqn:Et. clear Et.
    replace (length (O :: y :: l) - length t)%nat
      with (S (length (y :: l) - length t)) by (cbn [length] in *; lia).
    cbn [repeat app]. f_equal. exact IH.
  - unfold pad_zeros. cbn [strip_zeros]. now rewrite Nat.sub_diag.
Qed.

Lemma printf_x_exact : forall w v,
  (1 <= w <= 8)%nat -> 0 <= v < 16 ^ Z.of_nat w ->
  printf_x w v = map hex_digit (digits 16 w v).
Proof.
  intros w v Hw Hv. unfold printf_x.
  assert (16 ^ Z.of_nat w <= 2 ^ 32) as Hp.
  { change (2 ^ 32) with (16 ^ Z.of_nat 8). apply Z.pow_le_mono_r; lia. }
  rewrite Z.mod_small by lia.
  rewrite (digits_high_zero 16 w 8 v) by lia.
  assert (digits 16 w v <> []) as Hne.
  { intros E. pose proof (digits_length 16 w v) as Hl. rewrite E in Hl.
    simpl in Hl. lia. }
  rewrite strip_zeros_repeat by exact Hne.
  pose proof (pad_strip_zeros _ Hne) as Hpad.
  rewrite digits_length in Hpad. now rewrite Hpad.
Qed.

Lemma printf_x_length : forall w v,
  (1 <= w <= 8)%nat -> 0 <= v < 16 ^ Z.of_nat w -> length (printf_x w v) = w.
Proof.
  intros w v Hw Hv. rewrite printf_x_exact by assumption.
  now rewrite length_map, digits_length.
Qed.

Lemma printf_x_byte : forall b, is_byte b -> printf_x 2 b = byte_hex b.
Proof.
  intros b Hb. unfold is_byte in Hb.
  rewrite printf_x_exact by (try lia; change (16 ^ Z.of_nat 2) with 256; lia).
  unfold digits, byte_hex. cbn [seq rev app map].
  change (16 ^ Z.of_nat 1) with 16. change (16 ^ Z.of_nat 0) with 1.
  rewrite Z.div_1_r. rewrite (Z.mod_small (b / 16)); [reflexivity|].
  split; [apply Z.div_pos; lia|apply Z.div_lt_upper_bound; lia].
Qed.

Lemma printf_u_length : forall v, (length (printf_u v) <= 10)%nat.
Proof.
  intros v. unfold printf_u. rewrite length_map.
  pose proof (strip_zeros_length (digits 10 10 (v mod 2 ^ 32))) as H.
  now rewrite digits_length in H.
Qed.

Lemma hex_digit_inj : forall d d',
  (d < 16)%nat -> (d' < 16)%nat -> hex_digit d = hex_digit d' -> d = d'.
Proof.
  intros d d' Hd Hd' H.
  do 16 (destruct d as [|d];
         [do 16 (destruct d' as [|d']; [first [reflexivity|discriminate H]|]); lia|]).
  lia.
Qed.

Lemma hex_digit_not_dash : forall d, is_dash (hex_digit d) = false.
Proof.
  intros d. do 16 (destruct d as [|d]; [reflexivity|]).
  unfold hex_digit. cbn [nth]. now destruct d.
Qed.

Lemma byte_hex_inj : forall a b,
  is_byte a -> is_byte b -> byte_hex a = byte_hex b -> a = b.
Proof.
  intros a b Ha Hb H. unfold is_byte in *. unfold byte_hex in H.
  inversion H as [[H1 H2]].
  assert (forall x, 0 <= x < 256 -> (Z.to_nat (x / 16) < 16)%nat /\
                                    (Z.to_nat (x mod 16) < 16)%nat) as Hr.
  { intros x Hx. split.
    - apply Nat2Z.inj_lt. rewrite Z2Nat.id by (apply Z.div_pos; lia).
      apply Z.div_lt_upper_bound; lia.
    - apply Nat2Z.inj_lt.
      rewrite Z2Nat.id by (apply Z.mod_pos_bound; lia).
      apply Z.mod_pos_bound. lia. }
  destruct (Hr a Ha) as (A1 & A2). destruct (Hr b Hb) as (B1 & B2).
  apply hex_digit_inj in H1; [|assumption|assumption].
  apply hex_digit_inj in H2; [|assumption|assumption].
  apply Z2Nat.inj in H1; [|apply Z.div_pos; lia|apply Z.div_pos; lia].
  apply Z2Nat.inj in H2;
    [|apply Z.mod_pos_bound; lia|apply Z.mod_pos_bound; lia].
  rewrite (Z.div_mod a 16), (Z.div_mod b 16) by lia. congruence.
Qed.

(** X18.  [mgos_bt_addr_to_str] writes exactly 17 characters for an
    address of six bytes: the two lower-case hexadecimal digits of each
    byte, first byte first, separated by colons.  Two addresses with the
    same text are the same address.  With fewer than six bytes to read the
    function has no result. *)
Theorem mgos_bt_addr_to_str_text : forall bda,
  length bda = 6%nat -> Forall is_byte bda ->
  exists s,
    mgos_bt_addr_to_str bda = Some s /\
    length s = 17%nat /\
    s = nth 0 (map byte_hex bda) [] ++ ":"%char :: nth 1 (map byte_hex bda) []
        ++ ":"%char :: nth 2 (map byte_hex bda) []
        ++ ":"%char :: nth 3 (map byte_hex bda) []
        ++ ":"%char :: nth 4 (map byte_hex bda) []
        ++ ":"%char :: nth 5 (map byte_hex bda) [] /\
    (forall bda', length bda' = 6%nat -> Forall is_byte bda' ->
       mgos_bt_addr_to_str bda' = Some s -> bda' = bda) /\
    (forall short, (length short < 6)%nat -> mgos_bt_addr_to_str short = None).
Proof.
  intros bda Hl Hb.
  do 6 (destruct bda as [|? bda]; [discriminate Hl|]).
  destruct bda; [|discriminate Hl]. clear Hl.
  repeat match goal with
         | H : Forall is_byte (_ :: _) |- _ => inversion H; subst; clear H
         end.
  eexists. split; [reflexivity|].
  rewrite !printf_x_byte by assumption.
  split; [reflexivity|]. split; [reflexivity|]. split.
  - intros bda' Hl' Hb' E.
    do 6 (destruct bda' as [|? bda']; [discriminate Hl'|]).
    destruct bda'; [|discriminate Hl']. clear Hl'.
    repeat match goal with
           | H : Forall is_byte (_ :: _) |- _ => inversion H; subst; clear H
           end.
    unfold mgos_bt_addr_to_str in E. rewrite !printf_x_byte in E by assumption.
    unfold byte_hex in E. cbn [app] in E. inversion E.
    repeat match goal with
           | Ha : is_byte ?a, Hb : is_byte ?b |- _ =>
               assert (a = b) by (apply byte_hex_inj; [assumption|assumption|
                                    unfold byte_hex; congruence]);
               subst a; clear Ha
           end.
    reflexivity.
  - intros short Hs.
    do 6 (destruct short as [|? short]; [reflexivity|]). simpl in Hs. lia.
Qed.

Lemma filter_byte_hex_app : forall b l,
  filter (fun c => negb (is_dash c)) (byte_hex b ++ l)
  = byte_hex b ++ filter (fun c => negb (is_dash c)) l.
Proof.
  intros b l. unfold byte_hex. cbn [app filter].
  now rewrite !hex_digit_not_dash.
Qed.

Lemma filter_byte_hex : forall b,
  filter (fun c => negb (is_dash c)) (byte_hex b) = byte_hex b.
Proof.
  intros b. rewrite <- (app_nil_r (byte_hex b)) at 1.
  rewrite filter_byte_hex_app. apply app_nil_r.
Qed.

Lemma concat_byte_hex_inj : forall l l',
  length l = length l' -> Forall is_byte l -> Forall is_byte l' ->
  concat (map byte_hex l) = concat (map byte_hex l') -> l = l'.
Proof.
  induction l as [|a l IH]; intros [|b l'] Hlen Ha Hb H;
    try discriminate Hlen; [reflexivity|].
  inversion Ha as [|? ? Ha1 Ha2]; subst. inversion Hb as [|? ? Hb1 Hb2]; subst.
  cbn [map concat] in H. unfold byte_hex at 1 3 in H. cbn [app] in H.
  injection H as E1 E2 E3.
  assert (a = b) by (apply byte_hex_inj; [assumption|assumption|
                       unfold byte_hex; congruence]).
  subst b. f_equal. apply IH; auto.
Qed.

Lemma le_value_bound : forall l,
  Forall is_byte l -> 0 <= le_value l < 256 ^ Z.of_nat (length l).
Proof.
  intros l H. induction H as [|b l Hb Hl IH]; [simpl; lia|].
  cbn [le_value fold_right length]. fold (le_value l).
  rewrite Nat2Z.inj_succ, Z.pow_succ_r by lia.
  unfold is_byte in Hb. lia.
Qed.

Lemma filter_dash : forall l,
  filter (fun c => negb (is_dash c)) ("-"%char :: l)
  = filter (fun c => negb (is_dash c)) l.
Proof. reflexivity. Qed.

Lemma uuid128_text_shape : forall v,
  length v = 16%nat -> Forall is_byte v ->
  exists t,
    bt_uuid128_to_str v = Some t /\ length t = 36%nat /\
    filter (fun c => negb (is_dash c)) t = concat (map byte_hex (rev v)) /\
    map (fun i => nth_error t i) [8; 13; 18; 23]%nat
    = [Some "-"; Some "-"; Some "-"; Some "-"]%char.
Proof.
  intros v Hv Hbv.
  do 16 (destruct v as [|? v]; [discriminate Hv|]).
  destruct v; [|discriminate Hv]. clear Hv.
  repeat match goal with
         | H : Forall is_byte (_ :: _) |- _ => inversion H; subst; clear H
         end.
  eexists. split; [reflexivity|].
  rewrite !printf_x_byte by assumption.
  split; [reflexivity|]. split; [|reflexivity].
  repeat first [rewrite filter_byte_hex_app
               |rewrite filter_byte_hex
               |rewrite filter_dash].
  cbn [rev app map concat]. repeat rewrite <- app_assoc.
  rewrite app_nil_r. reflexivity.
Qed.

(** X19.  [bt_uuid128_to_str] writes exactly 36 characters for sixteen
    bytes: the hexadecimal digits of the bytes from the last one to the
    first, with a dash after bytes 4, 6, 8 and 10 of that order.  Two uuids
    with the same text are the same uuid; with fewer than sixteen bytes to
    read the function has no result. *)
Theorem bt_uuid128_to_str_text : forall u,
  length u = 16%nat -> Forall is_byte u ->
  exists s,
    bt_uuid128_to_str u = Some s /\
    length s = 36%nat /\
    filter (fun c => negb (is_dash c)) s = concat (map byte_hex (rev u)) /\
    map (fun i => nth_error s i) [8; 13; 18; 23]%nat
      = [Some "-"; Some "-"; Some "-"; Some "-"]%char /\
    (forall u', length u' = 16%nat -> Forall is_byte u' ->
       bt_uuid128_to_str u' = Some s -> u' = u) /\
    (forall short, (length short < 16)%nat -> bt_uuid128_to_str short = None).
Proof.
  intros u Hl Hb.
  pose proof uuid128_text_shape as Hone.
  destruct (Hone u Hl Hb) as (s & Hs & Hlen & Hf & Hd).
  exists s. split; [exact Hs|]. split; [exact Hlen|]. split; [exact Hf|].
  split; [exact Hd|]. split.
  - intros u' Hl' Hb' E.
    destruct (Hone u' Hl' Hb') as (s' & Hs' & _ & Hf' & _).
    rewrite E in Hs'. inversion Hs'; subst s'.
    rewrite Hf in Hf'.
    apply concat_byte_hex_inj in Hf'.
    + apply (f_equal (@rev Z)) in Hf'. now rewrite !rev_involutive in Hf'.
    + now rewrite !length_rev, Hl, Hl'.
    + apply Forall_rev. exact Hb.
    + apply Forall_rev. exact Hb'.
  - intros short Hsh.
    do 16 (destruct short as [|? short]; [reflexivity|]). simpl in Hsh. lia.
Qed.

Lemma printf_x_uuid16 : forall b0 b1,
  is_byte b0 -> is_byte b1 ->
  printf_x 4 (le_value [b0; b1]) = byte_hex b1 ++ byte_hex b0.
Proof.
  intros b0 b1 H0 H1. unfold is_byte in *.
  unfold le_value. cbn [fold_right].
  rewrite printf_x_exact by (try lia; change (16 ^ Z.of_nat 4) with 65536; lia).
  unfold digits, byte_hex. cbn [seq rev app map].
  change (16 ^ Z.of_nat 3) with 4096. change (16 ^ Z.of_nat 2) with 256.
  change (16 ^ Z.of_nat 1) with 16. change (16 ^ Z.of_nat 0) with 1.
  set (v := b0 + 256 * (b1 + 256 * 0)).
  assert ((v / 4096) mod 16 = b1 / 16) as E3
    by (subst v; Z.div_mod_to_equations; lia).
  assert ((v / 256) mod 16 = b1 mod 16) as E2
    by (subst v; Z.div_mod_to_equations; lia).
  assert ((v / 16) mod 16 = b0 / 16) as E1
    by (subst v; Z.div_mod_to_equations; lia).
  assert ((v / 1) mod 16 = b0 mod 16) as E0
    by (subst v; Z.div_mod_to_equations; lia).
  now rewrite E3, E2, E1, E0.
Qed.

Lemma printf_x_uuid32 : forall b0 b1 b2 b3,
  is_byte b0 -> is_byte b1 -> is_byte b2 -> is_byte b3 ->
  printf_x 8 (le_value [b0; b1; b2; b3])
  = byte_hex b3 ++ byte_hex b2 ++ byte_hex b1 ++ byte_hex b0.
Proof.
  intros b0 b1 b2 b3 H0 H1 H2 H3. unfold is_byte in *.
  unfold le_value. cbn [fold_right].
  rewrite printf_x_exact
    by (try lia; change (16 ^ Z.of_nat 8) with 4294967296; lia).
  unfold digits, byte_hex. cbn [seq rev app map].
  change (16 ^ Z.of_nat 7) with 268435456. change (16 ^ Z.of_nat 6) with 16777216.
  change (16 ^ Z.of_nat 5) with 1048576. change (16 ^ Z.of_nat 4) with 65536.
  change (16 ^ Z.of_nat 3) with 4096. change (16 ^ Z.of_nat 2) with 256.
  change (16 ^ Z.of_nat 1) with 16. change (16 ^ Z.of_nat 0) with 1.
  set (v := b0 + 256 * (b1 + 256 * (b2 + 256 * (b3 + 256 * 0)))).
  assert ((v / 268435456) mod 16 = b3 / 16) as E7
    by (subst v; Z.div_mod_to_equations; lia).
  assert ((v / 16777216) mod 16 = b3 mod 16) as E6
    by (subst v; Z.div_mod_to_equations; lia).
  assert ((v / 1048576) mod 16 = b2 / 16) as E5
    by (subst v; Z.div_mod_to_equations; lia).
  assert ((v / 65536) mod 16 = b2 mod 16) as E4
    by (subst v; Z.div_mod_to_equations; lia).
  assert ((v / 4096) mod 16 = b1 / 16) as E3
    by (subst v; Z.div_mod_to_equations; lia).
  assert ((v / 256) mod 16 = b1 mod 16) as E2
    by (subst v; Z.div_mod_to_equations; lia).
  assert ((v / 16) mod 16 = b0 / 16) as E1
    by (subst v; Z.div_mod_to_equations; lia).
  assert ((v / 1) mod 16 = b0 mod 16) as E0
    by (subst v; Z.div_mod_to_equations; lia).
  now rewrite E7, E6, E5, E4, E3, E2, E1, E0.
Qed.

Lemma firstn_is_byte : forall n l, Forall is_byte l -> Forall is_byte (firstn n l).
Proof.
  intros n l H. revert n. induction H as [|b l Hb Hl IH]; intros [|n];
    cbn [firstn]; constructor; auto.
Qed.

Lemma union_member_value : forall n u,
  (n <= length (uuid_bytes u))%nat ->
  union_member n u = Some (le_value (firstn n (uuid_bytes u))).
Proof.
  intros n u H. unfold union_member.
  apply Nat.leb_le in H. now rewrite H.
Qed.

(** X20.  For a uuid of one of the three known lengths, held in sixteen
    bytes of storage, [mgos_bt_uuid_to_str] shows exactly the first
    [uuid_len] bytes of the storage, the last of them first, two lower-case
    hexadecimal digits each: the 16 and 32 bit members are printed as
    numbers, which on the little-endian ESP32 is the same byte order as
    the one [bt_uuid128_to_str] writes out by hand. *)
Theorem mgos_bt_uuid_to_str_bytes : forall uuid,
  length (uuid_bytes uuid) = 16%nat -> Forall is_byte (uuid_bytes uuid) ->
  In (uuid_len uuid) [2; 4; 16]%nat ->
  exists s,
    mgos_bt_uuid_to_str uuid = Some s /\
    filter (fun c => negb (is_dash c)) s
    = concat (map byte_hex (rev (firstn (uuid_len uuid) (uuid_bytes uuid)))).
Proof.
  intros [len bytes]. cbn [uuid_len uuid_bytes]. intros Hl Hb Hin.
  unfold mgos_bt_uuid_to_str. cbn [uuid_len uuid_bytes].
  destruct Hin as [E|[E|[E|[]]]]; subst len; cbn [Nat.eqb].
  - rewrite union_member_value by (cbn [uuid_bytes]; lia).
    cbn [uuid_bytes option_map].
    destruct bytes as [|b0 [|b1 rest]]; try discriminate Hl.
    inversion Hb as [|? ? H0 Hb']; subst. inversion Hb' as [|? ? H1 _]; subst.
    cbn [firstn]. rewrite printf_x_uuid16 by assumption.
    eexists. split; [reflexivity|].
    rewrite filter_byte_hex_app, filter_byte_hex.
    cbn [rev app map concat]. now rewrite app_nil_r.
  - rewrite union_member_value by (cbn [uuid_bytes]; lia).
    cbn [uuid_bytes option_map].
    destruct bytes as [|b0 [|b1 [|b2 [|b3 rest]]]]; try discriminate Hl.
    inversion Hb as [|? ? H0 Hb0]; subst. inversion Hb0 as [|? ? H1 Hb1]; subst.
    inversion Hb1 as [|? ? H2 Hb2]; subst. inversion Hb2 as [|? ? H3 _]; subst.
    cbn [firstn]. rewrite printf_x_uuid32 by assumption.
    eexists. split; [reflexivity|].
    rewrite !filter_byte_hex_app, filter_byte_hex.
    cbn [rev app map concat]. now rewrite app_nil_r.
  - destruct (uuid128_text_shape bytes Hl Hb) as (s & Hs & _ & Hf & _).
    exists s. split; [exact Hs|].
    rewrite firstn_all2 by lia. exact Hf.
Qed.

(** X21.  Whatever the length field says, [mgos_bt_uuid_to_str] of a uuid
    held in sixteen bytes of storage returns a text, of at most 36
    characters. *)
Theorem mgos_bt_uuid_to_str_fits : forall uuid,
  length (uuid_bytes uuid) = 16%nat -> Forall is_byte (uuid_bytes uuid) ->
  exists s, mgos_bt_uuid_to_str uuid = Some s /\ (length s <= 36)%nat.
Proof.
  intros [len bytes]. cbn [uuid_len uuid_bytes]. intros Hl Hb.
  unfold mgos_bt_uuid_to_str. cbn [uuid_len uuid_bytes].
  destruct (Nat.eqb len 2).
  { rewrite union_member_value by (cbn [uuid_bytes]; lia).
    cbn [uuid_bytes option_map]. eexists. split; [reflexivity|].
    rewrite printf_x_length; [lia|lia|].
    pose proof (le_value_bound (firstn 2 bytes) (firstn_is_byte 2 bytes Hb)) as B.
    rewrite length_firstn, Hl in B. cbn [Nat.min] in B.
    change (16 ^ Z.of_nat 4) with 65536.
    change (256 ^ Z.of_nat (Nat.min 2 16)) with 65536 in B. exact B. }
  destruct (Nat.eqb len 4).
  { rewrite union_member_value by (cbn [uuid_bytes]; lia).
    cbn [uuid_bytes option_map]. eexists. split; [reflexivity|].
    rewrite printf_x_length; [lia|lia|].
    pose proof (le_value_bound (firstn 4 bytes) (firstn_is_byte 4 bytes Hb)) as B.
    rewrite length_firstn, Hl in B.
    change (16 ^ Z.of_nat 8) with 4294967296.
    change (256 ^ Z.of_nat (Nat.min 4 16)) with 4294967296 in B. exact B. }
  destruct (Nat.eqb len 16).
  { destruct (uuid128_text_shape bytes Hl Hb) as (s & Hs & Hlen & _).
    exists s. split; [exact Hs|]. lia. }
  eexists. split; [reflexivity|].
  cbn [length]. rewrite length_app. cbn [length].
  pose proof (printf_u_length (Z.of_nat len)). lia.
Qed.

(** * Start-up *)

Lemma all_ok_cases : forall err : boot_call -> Z,
  (forall c, err c = 0) <->
  err esp_bt_controller_init = 0 /\ err esp_bt_controller_enable = 0 /\
  err esp_bluedroid_init = 0 /\ err esp_bluedroid_enable = 0.
Proof.
  intros err. split.
  - intros H. now rewrite !H.
  - intros (H0 & H1 & H2 & H3) []; assumption.
Qed.

Ltac init_cases cfg err :=
  unfold mgos_bt_common_init, ESP_OK;
  destruct (bt_enable cfg); cbn [negb];
  [destruct (bt_keep_enabled cfg); cbn [negb];
   destruct (chosen_dev_name cfg) as [name|];
   [destruct (Z.eqb_spec (err esp_bt_controller_init) 0) as [E0|E0]; cbn [negb];
    [destruct (Z.eqb_spec (err esp_bt_controller_enable) 0) as [E1|E1]; cbn [negb];
     [destruct (Z.eqb_spec (err esp_bluedroid_init) 0) as [E2|E2]; cbn [negb];
      [destruct (Z.eqb_spec (err esp_bluedroid_enable) 0) as [E3|E3]; cbn [negb]
      |]|]|]
   |
   |destruct (Z.eqb_spec (err esp_bt_controller_init) 0) as [E0|E0]; cbn [negb];
    [destruct (Z.eqb_spec (err esp_bt_controller_enable) 0) as [E1|E1]; cbn [negb];
     [destruct (Z.eqb_spec (err esp_bluedroid_init) 0) as [E2|E2]; cbn [negb];
      [destruct (Z.eqb_spec (err esp_bluedroid_enable) 0) as [E3|E3]; cbn [negb]
      |]|]|]
   |]
  |].

(** X22.  [mgos_bt_common_init] returns true in exactly two cases:
    Bluetooth is disabled in the configuration, or a device name is
    configured ([bt.dev_name], or else [device.id]) and all four bring-up
    calls of the stack return 0. *)
Theorem mgos_bt_common_init_result : forall cfg err s,
  fst (fst (mgos_bt_common_init cfg err s)) = true <->
  bt_enable cfg = false \/
  (chosen_dev_name cfg <> None /\ forall c, err c = 0).
Proof.
  intros cfg err s. rewrite all_ok_cases.
  init_cases cfg err; cbn [fst app];
    split; intros H; try discriminate H; try reflexivity;
    try (left; reflexivity);
    try (right; split; [discriminate|tauto]);
    destruct H as [H|(Hn & H0 & H1 & H2 & H3)]; congruence.
Qed.

(** X23.  [mgos_bt_common_init] attempts a bring-up call exactly when
    Bluetooth is enabled, a device name is configured and every earlier
    call of the sequence controller init, controller enable, bluedroid
    init, bluedroid enable returned 0: the first failure stops the
    sequence. *)
Theorem mgos_bt_common_init_boot_order : forall cfg err s c,
  In (boot c) (snd (mgos_bt_common_init cfg err s)) <->
  bt_enable cfg = true /\ chosen_dev_name cfg <> None /\
  forall c', (boot_index c' < boot_index c)%nat -> err c' = 0.
Proof.
  intros cfg err s c.
  assert ((forall c', (boot_index c' < boot_index c)%nat -> err c' = 0) <->
          match c with
          | esp_bt_controller_init => True
          | esp_bt_controller_enable => err esp_bt_controller_init = 0
          | esp_bluedroid_init =>
              err esp_bt_controller_init = 0 /\ err esp_bt_controller_enable = 0
          | esp_bluedroid_enable =>
              err esp_bt_controller_init = 0 /\ err esp_bt_controller_enable = 0
              /\ err esp_bluedroid_init = 0
          end) as Hidx.
  { destruct c; split; intros H.
    - exact I.
    - intros c' Hlt. destruct c'; cbn [boot_index] in Hlt; lia.
    - apply (H esp_bt_controller_init). cbn [boot_index]. lia.
    - intros c' Hlt. destruct c'; cbn [boot_index] in Hlt; lia.
    - split; [apply (H esp_bt_controller_init)|apply (H esp_bt_controller_enable)];
        cbn [boot_index]; lia.
    - intros c' Hlt. destruct c'; cbn [boot_index] in Hlt; first [lia|tauto].
    - split; [|split];
        [apply (H esp_bt_controller_init)|apply (H esp_bt_controller_enable)
        |apply (H esp_bluedroid_init)]; cbn [boot_index]; lia.
    - intros c' Hlt. destruct c'; cbn [boot_index] in Hlt; first [lia|tauto]. }
  rewrite Hidx. clear Hidx.
  init_cases cfg err; cbn [snd app In];
    (split;
     [intros H; repeat destruct H as [H|H]; try discriminate H;
      try contradiction;
      (split; [reflexivity|split; [discriminate|]]);
      injection H as <-; simpl; tauto
     |intros (He & Hn & H); try discriminate He; try congruence;
      destruct c; simpl in H; intuition congruence]).
Qed.

(** X24.  [mgos_bt_common_init] registers the two event callbacks and the
    application, after the four bring-up calls, exactly when Bluetooth is
    enabled and the function returns true, and only then does it set
    [s_dev_name], to the configured name.  The WiFi hook is installed
    exactly when Bluetooth is enabled without [bt.keep_enabled], also on a
    start-up that fails afterwards. *)
Theorem mgos_bt_common_init_registers : forall cfg err s,
  let r := mgos_bt_common_init cfg err s in
  let started := bt_enable cfg && fst (fst r) in
  (forall a, In a [esp_ble_gatts_register_callback;
                   esp_ble_gap_register_callback;
                   esp_ble_gatts_app_register 0] ->
     (In a (snd r) <-> started = true)) /\
  (started = true ->
     snd r = (if bt_keep_enabled cfg then [] else [mgos_wifi_add_on_change_cb])
             ++ [boot esp_bt_controller_init; boot esp_bt_controller_enable;
                 boot esp_bluedroid_init; boot esp_bluedroid_enable;
                 esp_ble_gatts_register_callback;
                 esp_ble_gap_register_callback;
                 esp_ble_gatts_app_register 0]) /\
  snd (fst r) = (if started then chosen_dev_name cfg else s) /\
  (In mgos_wifi_add_on_change_cb (snd r) <->
   bt_enable cfg = true /\ bt_keep_enabled cfg = false).
Proof.
  intros cfg err s r started. subst started r.
  pose proof (eq_refl (chosen_dev_name cfg)) as Hname. revert Hname.
  generalize (chosen_dev_name cfg) at 1 3.
  intros name0 Hname.
  init_cases cfg err; cbn [fst snd app In andb];
    (split; [intros a Ha; cbn [In] in Ha;
             split; intros H;
             [repeat destruct H as [H|H]; try discriminate H;
              try contradiction; try reflexivity;
              repeat destruct Ha as [Ha|Ha]; try contradiction; subst a;
              try discriminate H
             |try discriminate H;
              repeat destruct Ha as [Ha|Ha]; try contradiction; subst a; tauto]
            |split; [intros H; try discriminate H; reflexivity
                    |split; [try reflexivity; congruence
                            |split; [intros H; repeat destruct H as [H|H];
                                     try discriminate H; try contradiction;
                                     split; reflexivity
                                    |intros [H1 H2];
                                     try discriminate H1; try discriminate H2;
                                     tauto]]]]).
Qed.

(** X25.  [mgos_bt_wifi_changed_cb] acts only when WiFi has acquired an
    address.  It then clears [bt.enable] and saves the configuration, and
    disables the controller exactly when the save succeeded; on the cleared
    configuration [mgos_bt_common_init] returns true without a single
    call, whatever the save did. *)
Theorem mgos_bt_wifi_changed_cb_effect : forall ev cfg saved,
  let r := mgos_bt_wifi_changed_cb ev cfg saved in
  (ev <> MGOS_WIFI_IP_ACQUIRED -> r = (cfg, [])) /\
  (ev = MGOS_WIFI_IP_ACQUIRED ->
     bt_enable (fst r) = false /\
     bt_keep_enabled (fst r) = bt_keep_enabled cfg /\
     bt_adv_enable (fst r) = bt_adv_enable cfg /\
     chosen_dev_name (fst r) = chosen_dev_name cfg /\
     hd_error (snd r) = Some save_cfg /\
     (In esp_bt_controller_disable (snd r) <-> saved = true) /\
     forall err s, mgos_bt_common_init (fst r) err s = (true, s, [])).
Proof.
  intros ev cfg saved r. subst r. split.
  - intros H. destruct ev; try reflexivity. now contradiction H.
  - intros ->. cbn [mgos_bt_wifi_changed_cb fst snd hd_error].
    repeat split.
    + destruct saved; cbn [In]; intros H;
        repeat destruct H as [H|H]; try discriminate H; try contradiction;
        reflexivity.
    + intros ->. right. left. reflexivity.
Qed.

Ltac sample_bytes := repeat (constructor; [unfold is_byte; lia|]); constructor.

(** * The further statements on the sample data *)

Lemma register_service_effect_witness :
  flags_ok (sample_requested true) /\
  (exists m' : machine bool,
     mgos_bt_gatts_register_service heart_rate_descr 3 (Some (@accept_all bool))
       true (sample_requested true)
     = Some (true, m',
             [calloc 3%nat; esp_ble_gatts_create_attr_tab heart_rate_descr 3 3]) /\
     length (s_svcs m') = 3%nat) /\
  mgos_bt_gatts_register_service heart_rate_descr 3 (Some (@accept_all bool))
    false (sample_requested true)
  = Some (false, sample_requested true, []).
Proof.
  assert (flags_ok (sample_requested true)) as Hf by (repeat constructor).
  split; [exact Hf|]. split.
  - destruct (register_service_effect bool (sample_requested true) heart_rate_descr 3
                (Some (@accept_all bool)) true Hf) as (m' & Hr & Hs & _).
    exists m'. split; [exact Hr|]. rewrite Hs. reflexivity.
  - exact (register_service_effect bool (sample_requested true) heart_rate_descr 3
             (Some (@accept_all bool)) false Hf).
Defined.

Lemma step_calls_allowed_witness :
  exists (m' : machine bool) acts,
    step flag_world 23 (In_gatts_ev bool (ESP_GATTS_CONNECT_EVT peer_connect) 3)
      (sample_started true) = Some (tt, m', acts) /\
    Forall (fun a => allowed (In_gatts_ev bool (ESP_GATTS_CONNECT_EVT peer_connect) 3) a
                     = true) acts.
Proof.
  assert (exists (m' : machine bool) acts,
            step flag_world 23 (In_gatts_ev bool (ESP_GATTS_CONNECT_EVT peer_connect) 3)
              (sample_started true) = Some (tt, m', acts)) as (m' & acts & E)
    by (eexists _, _; vm_compute; reflexivity).
  exists m', acts. split; [exact E|].
  exact (step_calls_allowed bool flag_world 23 _ _ _ _ E).
Defined.

Lemma step_one_response_witness :
  exists (m' : machine bool) acts,
    step flag_world 23 (In_gatts_ev bool (ESP_GATTS_WRITE_EVT peer_write) 3)
      (sample_connected 23 true) = Some (tt, m', acts) /\
    count_acts is_send_response acts = 1%nat.
Proof.
  assert (exists (m' : machine bool) acts,
            step flag_world 23 (In_gatts_ev bool (ESP_GATTS_WRITE_EVT peer_write) 3)
              (sample_connected 23 true) = Some (tt, m', acts)) as (m' & acts & E)
    by (eexists _, _; vm_compute; reflexivity).
  exists m', acts. split; [exact E|].
  destruct (step_one_response bool flag_world 23 _ _ _ _ E) as (_ & Hw & _).
  exact (Hw peer_write 3 eq_refl eq_refl).
Defined.

Lemma run_keeps_services_witness :
  run flag_world 23 (skipn 3 (session_script bool)) (sample_requested true)
    = Some (sample_connected 23 true) /\
  In (heart_rate bool true None) (s_svcs (sample_requested true)) /\
  (exists new,
     map (@service_ident bool) (s_svcs (sample_connected 23 true))
     = new ++ map (@service_ident bool) (s_svcs (sample_requested true))) /\
  exists s', In s' (s_svcs (sample_connected 23 true)) /\
             service_kept (heart_rate bool true None) s'.
Proof.
  assert (In (heart_rate bool true None) (s_svcs (sample_requested true))) as Hin
    by (simpl; auto).
  split; [reflexivity|]. split; [exact Hin|].
  destruct (run_keeps_services bool flag_world 23 (skipn 3 (session_script bool))
              (sample_requested true) (sample_connected 23 true) eq_refl)
    as (Hnew & Hkept).
  split; [exact Hnew|exact (Hkept _ Hin)].
Defined.

Lemma sessions_only_at_connect_witness :
  step flag_world 23 (In_gatts_ev bool (ESP_GATTS_WRITE_EVT peer_write) 3)
    (sample_connected 23 true)
  = Some (tt, sample_connected 23 true,
          [cb_call 1%nat (Some 7%nat) (ESP_GATTS_WRITE_EVT peer_write);
           esp_ble_gatts_send_response 3 0 78 ESP_GATT_OK]) /\
  exists ce ce',
    hd_error (s_conns (sample_connected 23 true)) = Some ce' /\
    In ce (s_conns (sample_connected 23 true)) /\ sessions ce' = sessions ce.
Proof.
  split; [reflexivity|].
  destruct (sessions_only_at_connect bool flag_world 23
              (In_gatts_ev bool (ESP_GATTS_WRITE_EVT peer_write) 3)
              (sample_connected 23 true) (sample_connected 23 true) _ eq_refl
              ltac:(intros p gif; discriminate)
              {| ce_addr := 5%nat; bc := peer_conn 23;
                 sessions := [{| sse_addr := 7%nat; bs_bc := 5%nat; se := 1%nat |};
                              {| sse_addr := 6%nat; bs_bc := 5%nat; se := 2%nat |}] |}
              ltac:(simpl; auto))
    as (ce & Hin & _ & Hs & _).
  eexists ce, _. split; [reflexivity|]. split; [exact Hin|exact Hs].
Defined.

Lemma one_table_request_per_service_witness :
  exists (m : machine bool) acts (m' : machine bool) acts',
    run_log flag_world 23 (firstn 2 (session_script bool)) (init true)
      = Some (m, acts) /\
    step flag_world 23 (In_gatts_ev bool (ESP_GATTS_REG_EVT 0 0) 3) m
      = Some (tt, m', acts') /\
    requests acts = [] /\
    requests acts' = [(battery_descr, 2%nat); (heart_rate_descr, 3%nat)] /\
    Permutation (requests acts') (marked m').
Proof.
  assert (exists (m : machine bool) acts (m' : machine bool) acts',
            run_log flag_world 23 (firstn 2 (session_script bool)) (init true)
              = Some (m, acts) /\
            step flag_world 23 (In_gatts_ev bool (ESP_GATTS_REG_EVT 0 0) 3) m
              = Some (tt, m', acts') /\
            requests acts = [] /\
            requests acts' = [(battery_descr, 2%nat); (heart_rate_descr, 3%nat)] /\
            marked m = [])
    as (m & acts & m' & acts' & E1 & E2 & R1 & R2 & Hm)
    by (eexists _, _, _, _; repeat split; vm_compute; reflexivity).
  exists m, acts, m', acts'.
  split; [exact E1|]. split; [exact E2|]. split; [exact R1|]. split; [exact R2|].
  destruct (one_table_request_per_service bool flag_world 23 _ _ _ _ _ _ _ E1 E2)
    as (_ & H).
  rewrite Hm, app_nil_r in H. exact H.
Defined.

Lemma find_service_by_attr_handle_first_witness :
  Forall (@resolved bool) (s_svcs (sample_started true)) /\
  find_service_by_attr_handle (s_svcs (sample_started true)) 41
    = Some (Some (heart_rate bool true (Some [40; 41; 42]))).
Proof.
  assert (Forall (@resolved bool) (s_svcs (sample_started true))) as H
    by (repeat constructor).
  split; [exact H|].
  exact (proj1 (find_service_by_attr_handle_first bool _ 41 H)).
Defined.

Lemma connect_then_find_witness :
  cn_is_connected peer_connect = true /\
  exists (m' : machine bool) acts ce,
    esp32_bt_gatts_ev flag_world 23 (ESP_GATTS_CONNECT_EVT peer_connect) 3
      (sample_started true) = Some (tt, m', acts) /\
    find_connection (s_conns m') 3 0 = Some ce /\ bc ce = peer_conn 23.
Proof.
  split; [reflexivity|].
  destruct (connect_then_find bool flag_world 23 (sample_started true) 3
              peer_connect eq_refl) as (m' & acts & ce & E & Hf & Hb & _).
  exists m', acts, ce. split; [exact E|]. split; [exact Hf|exact Hb].
Defined.

Lemma connect_disconnect_round_trip_witness :
  wf (sample_started true) /\ cn_is_connected peer_connect = true /\
  dc_conn_id peer_disconnect = cn_conn_id peer_connect /\
  exists (m1 : machine bool) a1 (m2 : machine bool) a2,
    esp32_bt_gatts_ev flag_world 23 (ESP_GATTS_CONNECT_EVT peer_connect) 3
      (sample_started true) = Some (tt, m1, a1) /\
    esp32_bt_gatts_ev flag_world 23 (ESP_GATTS_DISCONNECT_EVT peer_disconnect) 3 m1
      = Some (tt, m2, a2) /\
    s_conns m2 = [] /\ count_acts is_calloc a1 = 3%nat /\
    count_acts is_any_free a2 = 3%nat.
Proof.
  assert (wf (sample_started true)) as Hw by sample_wf.
  split; [exact Hw|]. split; [reflexivity|]. split; [reflexivity|].
  destruct (connect_disconnect_round_trip bool flag_world 23 (sample_started true) 3
              peer_connect peer_disconnect Hw eq_refl eq_refl)
    as (m1 & a1 & m2 & a2 & E1 & E2 & Hc & _ & Ha & Hf & _).
  exists m1, a1, m2, a2.
  split; [exact E1|]. split; [exact E2|]. split; [exact Hc|].
  split; [exact Ha|exact Hf].
Defined.

Lemma read_evt_dispatch_witness :
  wf (sample_connected 23 true) /\
  Forall (@resolved bool) (s_svcs (sample_connected 23 true)) /\
  rd_need_rsp peer_read = true /\
  esp32_bt_gatts_ev flag_world 23 (ESP_GATTS_READ_EVT peer_read) 3
    (sample_connected 23 true)
  = Some (tt, sample_connected 23 true,
          [cb_call 1%nat (Some 7%nat) (ESP_GATTS_READ_EVT peer_read)]).
Proof.
  assert (wf (sample_connected 23 true)) as Hw by sample_wf.
  assert (Forall (@resolved bool) (s_svcs (sample_connected 23 true))) as Hr
    by (repeat constructor).
  split; [exact Hw|]. split; [exact Hr|]. split; [reflexivity|].
  exact (read_evt_dispatch bool flag_world 23 (sample_connected 23 true) 3
           peer_read Hw Hr eq_refl).
Defined.

Lemma write_evt_dispatch_witness :
  wf (sample_connected 23 true) /\
  Forall (@resolved bool) (s_svcs (sample_connected 23 true)) /\
  wr_need_rsp peer_write = true /\
  esp32_bt_gatts_ev flag_world 23 (ESP_GATTS_WRITE_EVT peer_write) 3
    (sample_connected 23 true)
  = Some (tt, sample_connected 23 true,
          [cb_call 1%nat (Some 7%nat) (ESP_GATTS_WRITE_EVT peer_write);
           esp_ble_gatts_send_response 3 0 78 ESP_GATT_OK]).
Proof.
  assert (wf (sample_connected 23 true)) as Hw by sample_wf.
  assert (Forall (@resolved bool) (s_svcs (sample_connected 23 true))) as Hr
    by (repeat constructor).
  split; [exact Hw|]. split; [exact Hr|]. split; [reflexivity|].
  exact (write_evt_dispatch bool flag_world 23 (sample_connected 23 true) 3
           peer_write Hw Hr eq_refl).
Defined.

Lemma connect_params_and_advertising_witness :
  cn_is_connected peer_connect = true /\
  exists (m' : machine bool) rest,
    esp32_bt_gatts_ev flag_world 23 (ESP_GATTS_CONNECT_EVT peer_connect) 3
      (sample_started true)
    = Some (tt, m',
            esp_ble_gap_update_conn_params [1; 2; 3; 4; 5; 6] 0 80 48 400 :: rest) /\
    count_acts is_start_advertising rest = 1%nat.
Proof.
  split; [reflexivity|].
  destruct (connect_params_and_advertising bool flag_world 23 (sample_started true) 3
              peer_connect eq_refl) as (m' & rest & E & _ & Hs & _).
  exists m', rest. split; [exact E|exact Hs].
Defined.

Lemma reachable_sessions_consistent_witness :
  reachable flag_world 23 (sample_connected 23 true) /\
  exists ce,
    In ce (s_conns (sample_connected 23 true)) /\
    NoDup (map (@se) (sessions ce)) /\
    (length (sessions ce) <= 2)%nat.
Proof.
  assert (reachable flag_world 23 (sample_connected 23 true)) as Hr.
  { apply (run_reachable bool flag_world 23 (session_script bool) (init true)).
    - apply reachable_init.
    - reflexivity. }
  split; [exact Hr|].
  assert (In {| ce_addr := 5%nat; bc := peer_conn 23;
                sessions := [{| sse_addr := 7%nat; bs_bc := 5%nat; se := 1%nat |};
                             {| sse_addr := 6%nat; bs_bc := 5%nat; se := 2%nat |}] |}
             (s_conns (sample_connected 23 true))) as Hin by (simpl; auto).
  destruct (reachable_sessions_consistent bool flag_world 23 _ _ Hr Hin)
    as (Hn & _ & Hl & _).
  eexists. split; [exact Hin|]. split; [exact Hn|exact Hl].
Defined.

Lemma mgos_bt_addr_to_str_text_witness :
  length sample_bda = 6%nat /\ Forall is_byte sample_bda /\
  exists s, mgos_bt_addr_to_str sample_bda = Some s /\ length s = 17%nat.
Proof.
  assert (Forall is_byte sample_bda) as Hb by sample_bytes.
  split; [reflexivity|]. split; [exact Hb|].
  destruct (mgos_bt_addr_to_str_text sample_bda eq_refl Hb) as (s & Hs & Hl & _).
  exists s. split; [exact Hs|exact Hl].
Defined.

Lemma bt_uuid128_to_str_text_witness :
  length (uuid_bytes sample_uuid128) = 16%nat /\
  Forall is_byte (uuid_bytes sample_uuid128) /\
  exists s, bt_uuid128_to_str (uuid_bytes sample_uuid128) = Some s /\
            length s = 36%nat.
Proof.
  assert (Forall is_byte (uuid_bytes sample_uuid128)) as Hb by sample_bytes.
  split; [reflexivity|]. split; [exact Hb|].
  destruct (bt_uuid128_to_str_text (uuid_bytes sample_uuid128) eq_refl Hb)
    as (s & Hs & Hl & _).
  exists s. split; [exact Hs|exact Hl].
Defined.

Lemma mgos_bt_uuid_to_str_bytes_witness :
  length (uuid_bytes sample_uuid16) = 16%nat /\
  Forall is_byte (uuid_bytes sample_uuid16) /\
  In (uuid_len sample_uuid16) [2; 4; 16]%nat /\
  exists s, mgos_bt_uuid_to_str sample_uuid16 = Some s /\
            filter (fun c => negb (is_dash c)) s = byte_hex 24 ++ byte_hex 13.
Proof.
  assert (Forall is_byte (uuid_bytes sample_uuid16)) as Hb by sample_bytes.
  assert (In (uuid_len sample_uuid16) [2; 4; 16]%nat) as Hin by (simpl; auto).
  split; [reflexivity|]. split; [exact Hb|]. split; [exact Hin|].
  destruct (mgos_bt_uuid_to_str_bytes sample_uuid16 eq_refl Hb Hin) as (s & Hs & Hf).
  exists s. split; [exact Hs|exact Hf].
Defined.

Lemma mgos_bt_uuid_to_str_fits_witness :
  length (uuid_bytes sample_uuid128) = 16%nat /\
  Forall is_byte (uuid_bytes sample_uuid128) /\
  exists s, mgos_bt_uuid_to_str sample_uuid128 = Some s /\ (length s <= 36)%nat.
Proof.
  assert (Forall is_byte (uuid_bytes sample_uuid128)) as Hb by sample_bytes.
  split; [reflexivity|]. split; [exact Hb|].
  exact (mgos_bt_uuid_to_str_fits sample_uuid128 eq_refl Hb).
Defined.

Lemma run_heap_safe_witness :
  exists (m : machine bool) acts live,
    run_log flag_world 23
      (session_script bool
       ++ [In_gatts_ev bool (ESP_GATTS_DISCONNECT_EVT peer_disconnect) 3])
      (init true) = Some (m, acts) /\
    count_acts is_any_free acts = 3%nat /\
    heap_after acts [] = Some live /\ incl (nodes m) live.
Proof.
  assert (exists (m : machine bool) acts,
            run_log flag_world 23
              (session_script bool
               ++ [In_gatts_ev bool (ESP_GATTS_DISCONNECT_EVT peer_disconnect) 3])
              (init true) = Some (m, acts) /\
            count_acts is_any_free acts = 3%nat) as (m & acts & E & Hc)
    by (eexists _, _; split; vm_compute; reflexivity).
  destruct (run_heap_safe bool flag_world 23 _ _ _ _ E) as (live & Ha & _ & _ & Hi).
  exists m, acts, live.
  split; [exact E|]. split; [exact Hc|]. split; [exact Ha|exact Hi].
Defined.

